(** * whatsapp/http.go: request construction, dispatch and message envelopes

    A shallow embedding of [src/http.go] (package [whatsapp]) together with
    models of the Go standard-library functions it calls ([path], [net/url],
    [net/http], [encoding/json]).  Go strings are byte strings: they are
    modelled by [string], whose characters are the 256 [ascii] bytes. *)

From Stdlib Require Import Ascii String List Bool Arith ZArith Lia.
From stdpp Require Import base option list gmap strings sorting.

Import ListNotations.
Local Open Scope string_scope.
Local Open Scope list_scope.
Local Open Scope nat_scope.

(** ** Bytes and strings *)

Module Bytes.

Definition code (c : ascii) : nat := nat_of_ascii c.

(** [lo <= c <= hi] on byte values. *)
Definition between (lo hi : nat) (c : ascii) : bool :=
  (lo <=? code c) && (code c <=? hi).

Definition is_lower (c : ascii) : bool := between 97 122 c.
Definition is_upper (c : ascii) : bool := between 65 90 c.
Definition is_digit (c : ascii) : bool := between 48 57 c.
Definition is_alpha (c : ascii) : bool := is_lower c || is_upper c.

Definition to_lower (c : ascii) : ascii :=
  if is_upper c then ascii_of_nat (code c + 32) else c.
Definition to_upper (c : ascii) : ascii :=
  if is_lower c then ascii_of_nat (code c - 32) else c.

Definition is_hex (c : ascii) : bool :=
  is_digit c || between 97 102 c || between 65 70 c.

Definition unhex (c : ascii) : nat :=
  if is_digit c then code c - 48
  else if between 97 102 c then code c - 97 + 10
  else if between 65 70 c then code c - 65 + 10
  else 0.

(** Lower-case and upper-case hexadecimal digits of a value below 16. *)
Definition hex_lower (n : nat) : ascii :=
  if n <? 10 then ascii_of_nat (48 + n) else ascii_of_nat (97 + (n - 10)).
Definition hex_upper (n : nat) : ascii :=
  if n <? 10 then ascii_of_nat (48 + n) else ascii_of_nat (65 + (n - 10)).

Definition dquote : ascii := ascii_of_nat 34.
Definition backslash : ascii := ascii_of_nat 92.
Definition slash : ascii := "/"%char.

Definition eqb (a b : ascii) : bool := Ascii.eqb a b.

End Bytes.

Module Str.

Definition of_byte (c : ascii) : string := String c EmptyString.

Fixpoint map (f : ascii -> ascii) (s : string) : string :=
  match s with
  | EmptyString => EmptyString
  | String c s' => String (f c) (map f s')
  end.

Fixpoint forallb (f : ascii -> bool) (s : string) : bool :=
  match s with
  | EmptyString => true
  | String c s' => f c && forallb f s'
  end.

Fixpoint existsb (f : ascii -> bool) (s : string) : bool :=
  match s with
  | EmptyString => false
  | String c s' => f c || existsb f s'
  end.

Fixpoint rev_onto (s acc : string) : string :=
  match s with
  | EmptyString => acc
  | String c s' => rev_onto s' (String c acc)
  end.
Definition rev (s : string) : string := rev_onto s EmptyString.

(** [strings.HasPrefix]. *)
Fixpoint has_prefix (s p : string) {struct p} : bool :=
  match p, s with
  | EmptyString, _ => true
  | String a p', String b s' => Bytes.eqb a b && has_prefix s' p'
  | String _ _, EmptyString => false
  end.

(** [strings.HasSuffix]. *)
Definition has_suffix (s p : string) : bool := has_prefix (rev s) (rev p).

(** [strings.Contains] for a one-byte needle. *)
Definition contains_byte (c : ascii) (s : string) : bool :=
  existsb (Bytes.eqb c) s.

(** [strings.Count] for a one-byte needle. *)
Fixpoint count_byte (c : ascii) (s : string) : nat :=
  match s with
  | EmptyString => 0
  | String d s' => (if Bytes.eqb c d then 1 else 0) + count_byte c s'
  end.

(** [strings.Cut(s, sep)] for a one-byte separator: the text before the
    first separator, the text after it, and whether it was found. *)
Fixpoint cut (sep : ascii) (s : string) : string * string * bool :=
  match s with
  | EmptyString => (EmptyString, EmptyString, false)
  | String c s' =>
      if Bytes.eqb c sep then (EmptyString, s', true)
      else let '(b, a, found) := cut sep s' in (String c b, a, found)
  end.

(** [strings.Split(s, sep)] for a one-byte separator. *)
Fixpoint split (sep : ascii) (s : string) : list string :=
  match s with
  | EmptyString => [EmptyString]
  | String c s' =>
      if Bytes.eqb c sep then EmptyString :: split sep s'
      else match split sep s' with
           | seg :: rest => String c seg :: rest
           | [] => [of_byte c]
           end
  end.

(** [strings.Join]. *)
Fixpoint join (sep : string) (l : list string) : string :=
  match l with
  | [] => EmptyString
  | [x] => x
  | x :: rest => x +:+ sep +:+ join sep rest
  end.

(** [s[1:]], and [s[:len(s)-1]]. *)
Definition tail (s : string) : string :=
  match s with EmptyString => EmptyString | String _ s' => s' end.
Definition drop_last (s : string) : string := rev (tail (rev s)).

(** Source text is written with single quotes standing for the double
    quotes of the Go literal. *)
Definition Q (s : string) : string :=
  map (fun c => if Bytes.eqb c "'"%char then Bytes.dquote else c) s.

(** [strings.ToLower] on ASCII. *)
Definition to_lower (s : string) : string := map Bytes.to_lower s.

End Str.

Abbreviation Q := Str.Q.

(** ** UTF-8, as [unicode/utf8] decodes it *)

Module utf8.

Definition cont (c : ascii) : bool := Bytes.between 128 191 c.

(** [utf8.DecodeRuneInString] on a string whose first byte [c0] is at
    least 0x80: [Some n] when the string starts with a well-formed
    encoding of [n] bytes, [None] when the decoder answers
    [(RuneError, 1)]. *)
Definition size (c0 : ascii) (rest : string) : option nat :=
  let b0 := Bytes.code c0 in
  if (194 <=? b0) && (b0 <=? 223) then
    match rest with
    | String c1 _ => if cont c1 then Some 2 else None
    | _ => None
    end
  else if (224 <=? b0) && (b0 <=? 239) then
    match rest with
    | String c1 (String c2 _) =>
        let lo := if b0 =? 224 then 160 else 128 in
        let hi := if b0 =? 237 then 159 else 191 in
        if Bytes.between lo hi c1 && cont c2 then Some 3 else None
    | _ => None
    end
  else if (240 <=? b0) && (b0 <=? 244) then
    match rest with
    | String c1 (String c2 (String c3 _)) =>
        let lo := if b0 =? 240 then 144 else 128 in
        let hi := if b0 =? 244 then 143 else 191 in
        if Bytes.between lo hi c1 && cont c2 && cont c3 then Some 4 else None
    | _ => None
    end
  else None.

(** [utf8.AppendRune]: the encoding of a code point; surrogates and
    values above U+10FFFF encode as U+FFFD. *)
Definition replacement : string :=
  String (ascii_of_nat 239) (String (ascii_of_nat 191) (String (ascii_of_nat 189) "")).

Definition byte_of_N (n : N) : ascii := ascii_of_N n.

Definition encode (r : N) : string :=
  (if r <? 128 then Str.of_byte (byte_of_N r)
   else if r <? 2048 then
     String (byte_of_N (192 + r / 64))
       (String (byte_of_N (128 + r mod 64)) "")
   else if ((55296 <=? r) && (r <=? 57343)) || (1114111 <? r) then replacement
   else if r <? 65536 then
     String (byte_of_N (224 + r / 4096))
       (String (byte_of_N (128 + (r / 64) mod 64))
          (String (byte_of_N (128 + r mod 64)) ""))
   else
     String (byte_of_N (240 + r / 262144))
       (String (byte_of_N (128 + (r / 4096) mod 64))
          (String (byte_of_N (128 + (r / 64) mod 64))
             (String (byte_of_N (128 + r mod 64)) ""))))%N.

End utf8.

(** ** JSON values and [encoding/json] *)

#[warnings="-register-all"]
Inductive json : Type :=
| JNull
| JBool (b : bool)
| JNumber (literal : string)
| JString (s : string)
| JArray (elems : list json)
| JObject (members : list (string * json)).

Module Json.

(** *** Encoding, as [json.Marshal] writes it *)

(** [htmlSafeSet]: the ASCII bytes [json.Marshal] copies unchanged. *)
Definition html_safe (c : ascii) : bool :=
  let b := Bytes.code c in
  (32 <=? b) && (b <? 128)
  && negb (b =? 34) && negb (b =? 38) && negb (b =? 60)
  && negb (b =? 62) && negb (b =? 92).

(** The escape written for an ASCII byte outside [htmlSafeSet]. *)
Definition escape_ascii (c : ascii) : string :=
  let b := Bytes.code c in
  if (b =? 92) || (b =? 34) then String Bytes.backslash (Str.of_byte c)
  else if b =? 8 then String Bytes.backslash "b"
  else if b =? 12 then String Bytes.backslash "f"
  else if b =? 10 then String Bytes.backslash "n"
  else if b =? 13 then String Bytes.backslash "r"
  else if b =? 9 then String Bytes.backslash "t"
  else String Bytes.backslash
         ("u00" +:+ String (Bytes.hex_lower (b / 16))
                      (Str.of_byte (Bytes.hex_lower (b mod 16)))).

(** U+2028 and U+2029 are the byte sequences E2 80 A8 and E2 80 A9. *)
Definition line_separator (c0 : ascii) (rest : string) : option ascii :=
  match rest with
  | String c1 (String c2 _) =>
      if (Bytes.code c0 =? 226) && (Bytes.code c1 =? 128) then
        if Bytes.code c2 =? 168 then Some "8"%char
        else if Bytes.code c2 =? 169 then Some "9"%char
        else None
      else None
  | _ => None
  end.

(** The body of [appendString] (with [escapeHTML]), between the quotes.
    [pending] counts the continuation bytes of the rune being consumed;
    they are copied when [copy] is set and dropped otherwise. *)
Fixpoint encode_bytes (copy : bool) (pending : nat) (s : string) : string :=
  match s with
  | EmptyString => EmptyString
  | String c s' =>
      match pending with
      | S k =>
          if copy then String c (encode_bytes copy k s')
          else encode_bytes copy k s'
      | O =>
          if Bytes.code c <? 128 then
            if html_safe c then String c (encode_bytes true 0 s')
            else escape_ascii c +:+ encode_bytes true 0 s'
          else
            match utf8.size c s' with
            | None =>
                String Bytes.backslash "ufffd" +:+ encode_bytes true 0 s'
            | Some n =>
                match line_separator c s' with
                | Some d =>
                    String Bytes.backslash ("u202" +:+ Str.of_byte d)
                      +:+ encode_bytes false (n - 1) s'
                | None => String c (encode_bytes true (n - 1) s')
                end
            end
      end
  end.

Definition encode_string (s : string) : string :=
  String Bytes.dquote (encode_bytes true 0 s +:+ Str.of_byte Bytes.dquote).

(** The compact text [json.Marshal] produces for a value. *)
Fixpoint render (v : json) : string :=
  match v with
  | JNull => "null"
  | JBool true => "true"
  | JBool false => "false"
  | JNumber lit => lit
  | JString s => encode_string s
  | JArray elems => "[" +:+ Str.join "," (List.map render elems) +:+ "]"
  | JObject members =>
      "{" +:+ Str.join ","
                (List.map (fun '(k, x) => encode_string k +:+ ":" +:+ render x)
                          members)
          +:+ "}"
  end.

(** *** Decoding, as the scanner and [unquote] of [encoding/json] read it *)

Inductive parsed (A : Type) : Type :=
| Parsed (a : A) (rest : string)
| SyntaxError (msg : string)
| OutOfFuel.
Arguments Parsed {A} a rest.
Arguments SyntaxError {A} msg.
Arguments OutOfFuel {A}.

Definition map_parsed {A B} (f : A -> B) (r : parsed A) : parsed B :=
  match r with
  | Parsed a rest => Parsed (f a) rest
  | SyntaxError msg => SyntaxError msg
  | OutOfFuel => OutOfFuel
  end.

Definition is_space (c : ascii) : bool :=
  let b := Bytes.code c in (b =? 32) || (b =? 9) || (b =? 13) || (b =? 10).

Fixpoint skip_space (s : string) : string :=
  match s with
  | String c s' => if is_space c then skip_space s' else s
  | EmptyString => s
  end.

Fixpoint split_at (n : nat) (s : string) : string * string :=
  match n, s with
  | S k, String c s' => let '(a, b) := split_at k s' in (String c a, b)
  | _, _ => (EmptyString, s)
  end.

(** [getu4]: the value of four hexadecimal digits. *)
Definition hex4 (s : string) : option (N * string) :=
  match s with
  | String a (String b (String c (String d rest))) =>
      if Bytes.is_hex a && Bytes.is_hex b && Bytes.is_hex c && Bytes.is_hex d
      then Some ((((N.of_nat (Bytes.unhex a) * 16 + N.of_nat (Bytes.unhex b)) * 16
                   + N.of_nat (Bytes.unhex c)) * 16 + N.of_nat (Bytes.unhex d))%N,
                 rest)
      else None
  | _ => None
  end.

(** [getu4] on text that must start with a backslash and [u]. *)
Definition escaped_hex4 (s : string) : option (N * string) :=
  match s with
  | String b (String u rest) =>
      if Bytes.eqb b Bytes.backslash && Bytes.eqb u "u"%char then hex4 rest else None
  | _ => None
  end.

Definition is_surrogate (r : N) : bool := ((55296 <=? r) && (r <? 57344))%N.

(** [utf16.DecodeRune]. *)
Definition decode_surrogates (r1 r2 : N) : option N :=
  (if (55296 <=? r1) && (r1 <? 56320) && (56320 <=? r2) && (r2 <? 57344)
   then Some ((r1 - 55296) * 1024 + (r2 - 56320) + 65536)
   else None)%N.

Definition simple_escape (e : ascii) : option ascii :=
  let b := Bytes.code e in
  if (b =? 34) || (b =? 92) || (b =? 47) then Some e
  else if Bytes.eqb e "b"%char then Some (ascii_of_nat 8)
  else if Bytes.eqb e "f"%char then Some (ascii_of_nat 12)
  else if Bytes.eqb e "n"%char then Some (ascii_of_nat 10)
  else if Bytes.eqb e "r"%char then Some (ascii_of_nat 13)
  else if Bytes.eqb e "t"%char then Some (ascii_of_nat 9)
  else None.


(** A string literal after its opening quote: the decoded bytes and the
    text after the closing quote. *)
Fixpoint unquote (fuel : nat) (s : string) : parsed string :=
  match fuel with
  | O => OutOfFuel
  | S fuel' =>
      let continue pre rest := map_parsed (String.append pre) (unquote fuel' rest) in
      match s with
      | EmptyString => SyntaxError "unexpected end of JSON input"
      | String c s' =>
          if Bytes.eqb c Bytes.dquote then Parsed EmptyString s'
          else if Bytes.eqb c Bytes.backslash then
            match s' with
            | EmptyString => SyntaxError "unexpected end of JSON input"
            | String e s'' =>
                if Bytes.eqb e "u"%char then
                  match hex4 s'' with
                  | None => SyntaxError "invalid character in \u hexadecimal character escape"
                  | Some (r, s3) =>
                      if is_surrogate r then
                        match escaped_hex4 s3 with
                        | Some (r2, s5) =>
                            match decode_surrogates r r2 with
                            | Some dec => continue (utf8.encode dec) s5
                            | None => continue utf8.replacement s3
                            end
                        | None => continue utf8.replacement s3
                        end
                      else continue (utf8.encode r) s3
                  end
                else
                  match simple_escape e with
                  | Some d => continue (Str.of_byte d) s''
                  | None => SyntaxError "invalid character in string escape code"
                  end
            end
          else if Bytes.code c <? 32 then
            SyntaxError "invalid character in string literal"
          else if Bytes.code c <? 128 then continue (Str.of_byte c) s'
          else
            match utf8.size c s' with
            | None => continue utf8.replacement s'
            | Some n =>
                let '(chunk, rest) := split_at (n - 1) s' in
                continue (String c chunk) rest
            end
      end
  end.

Fixpoint digits (s : string) : string * string :=
  match s with
  | String c s' =>
      if Bytes.is_digit c then let '(d, r) := digits s' in (String c d, r)
      else (EmptyString, s)
  | EmptyString => (EmptyString, s)
  end.

(** The parts of a number literal: each gives the accepted text and what
    follows it. *)
Definition sign (s : string) : string * string :=
  match s with
  | String c s' => if Bytes.eqb c "-"%char then ("-", s') else ("", s)
  | EmptyString => ("", s)
  end.

Definition int_part (s : string) : parsed string :=
  match s with
  | String c s' =>
      if Bytes.eqb c "0"%char then Parsed "0" s'
      else if Bytes.is_digit c then
             let '(d, r) := digits s' in Parsed (String c d) r
      else SyntaxError "invalid character in numeric literal"
  | EmptyString => SyntaxError "unexpected end of JSON input"
  end.

Definition frac_part (s : string) : parsed string :=
  match s with
  | String c s' =>
      if Bytes.eqb c "."%char then
        match digits s' with
        | (EmptyString, _) =>
            SyntaxError "invalid character after decimal point in numeric literal"
        | (d, r) => Parsed ("." +:+ d) r
        end
      else Parsed "" s
  | EmptyString => Parsed "" s
  end.

Definition exp_part (s : string) : parsed string :=
  match s with
  | String c s' =>
      if Bytes.eqb c "e"%char || Bytes.eqb c "E"%char then
        let '(esign, s'') :=
          match s' with
          | String d t =>
              if Bytes.eqb d "+"%char || Bytes.eqb d "-"%char
              then (Str.of_byte d, t) else ("", s')
          | EmptyString => ("", s')
          end in
        match digits s'' with
        | (EmptyString, _) =>
            SyntaxError "invalid character in exponent of numeric literal"
        | (d, r) => Parsed (Str.of_byte c +:+ esign +:+ d) r
        end
      else Parsed "" s
  | EmptyString => Parsed "" s
  end.

(** A number literal: the accepted text and what follows it. *)
Definition number (s : string) : parsed string :=
  let '(sg, s1) := sign s in
  match int_part s1 with
  | Parsed i s2 =>
      match frac_part s2 with
      | Parsed f s3 =>
          match exp_part s3 with
          | Parsed e s4 => Parsed (sg +:+ i +:+ f +:+ e) s4
          | other => other
          end
      | other => other
      end
  | other => other
  end.

Definition literal (word : string) (v : json) (s : string) : parsed json :=
  let '(w, rest) := split_at (String.length word) s in
  if String.eqb w word then Parsed v rest
  else SyntaxError ("invalid character in literal " +:+ word).

(** A value, with leading white space; arrays and objects recurse.  The
    two list parsers are entered after the opening bracket and the first
    element or member. *)
Fixpoint value (fuel : nat) (s : string) : parsed json :=
  match fuel with
  | O => OutOfFuel
  | S fuel' =>
      match skip_space s with
      | EmptyString => SyntaxError "unexpected end of JSON input"
      | String c s' =>
          if Bytes.eqb c Bytes.dquote then
            map_parsed JString (unquote (S (String.length s')) s')
          else if Bytes.eqb c "{"%char then
            match skip_space s' with
            | String d s'' =>
                if Bytes.eqb d "}"%char then Parsed (JObject []) s''
                else
                  map_parsed JObject (members fuel' (skip_space s'))
            | EmptyString => SyntaxError "unexpected end of JSON input"
            end
          else if Bytes.eqb c "["%char then
            match skip_space s' with
            | String d s'' =>
                if Bytes.eqb d "]"%char then Parsed (JArray []) s''
                else
                  map_parsed JArray (elements fuel' s')
            | EmptyString => SyntaxError "unexpected end of JSON input"
            end
          else if Bytes.eqb c "t"%char then literal "true" (JBool true) (String c s')
          else if Bytes.eqb c "f"%char then literal "false" (JBool false) (String c s')
          else if Bytes.eqb c "n"%char then literal "null" JNull (String c s')
          else if Bytes.eqb c "-"%char || Bytes.is_digit c then
            map_parsed JNumber (number (String c s'))
          else SyntaxError "invalid character looking for beginning of value"
      end
  end

with elements (fuel : nat) (s : string) : parsed (list json) :=
  match fuel with
  | O => OutOfFuel
  | S fuel' =>
      match value fuel' s with
      | Parsed v rest =>
          match skip_space rest with
          | String c rest' =>
              if Bytes.eqb c ","%char then
                map_parsed (cons v) (elements fuel' rest')
              else if Bytes.eqb c "]"%char then Parsed [v] rest'
              else SyntaxError "invalid character after array element"
          | EmptyString => SyntaxError "unexpected end of JSON input"
          end
      | SyntaxError m => SyntaxError m
      | OutOfFuel => OutOfFuel
      end
  end

with members (fuel : nat) (s : string) : parsed (list (string * json)) :=
  match fuel with
  | O => OutOfFuel
  | S fuel' =>
      match skip_space s with
      | String q s' =>
          if Bytes.eqb q Bytes.dquote then
            match unquote (S (String.length s')) s' with
            | Parsed k rest =>
                match skip_space rest with
                | String c rest' =>
                    if Bytes.eqb c ":"%char then
                      match value fuel' rest' with
                      | Parsed v rest'' =>
                          match skip_space rest'' with
                          | String d rest3 =>
                              if Bytes.eqb d ","%char then
                                map_parsed (cons (k, v)) (members fuel' rest3)
                              else if Bytes.eqb d "}"%char then Parsed [(k, v)] rest3
                              else SyntaxError "invalid character after object key:value pair"
                          | EmptyString => SyntaxError "unexpected end of JSON input"
                          end
                      | SyntaxError m => SyntaxError m
                      | OutOfFuel => OutOfFuel
                      end
                    else SyntaxError "invalid character after object key"
                | EmptyString => SyntaxError "unexpected end of JSON input"
                end
            | SyntaxError m => SyntaxError m
            | OutOfFuel => OutOfFuel
            end
          else SyntaxError "invalid character looking for beginning of object key string"
      | EmptyString => SyntaxError "unexpected end of JSON input"
      end
  end.

(** [Decoder.Decode]: the first value of the input; what follows it is
    left unread. *)
Definition parse_first (s : string) : parsed json :=
  value (2 * String.length s + 2) s.

(** [json.Unmarshal] checks the whole input: one value, then only white
    space. *)
Definition parse (s : string) : parsed json :=
  match parse_first s with
  | Parsed v rest =>
      match skip_space rest with
      | EmptyString => Parsed v EmptyString
      | String _ _ => SyntaxError "invalid character after top-level value"
      end
  | other => other
  end.

Definition valid (s : string) : bool :=
  match parse s with Parsed _ _ => true | _ => false end.

(** The value a decoder stores for key [k] of an object: the last
    member with that key wins. *)
Fixpoint lookup_members (k : string) (l : list (string * json)) : option json :=
  match l with
  | [] => None
  | (k', v) :: rest =>
      match lookup_members k rest with
      | Some v' => Some v'
      | None => if String.eqb k k' then Some v else None
      end
  end.

Definition field (k : string) (v : json) : option json :=
  match v with
  | JObject members => lookup_members k members
  | _ => None
  end.

Definition has_field (k : string) (v : json) : bool :=
  match field k v with Some _ => true | None => false end.

(** *** What a reader gets back *)

(** A Go string need not be UTF-8, a JSON text is: [json.Marshal] writes
    each byte that starts no well-formed encoding as U+FFFD, and a reader
    gets the string with those bytes replaced. *)
Fixpoint coerce (pending : nat) (s : string) : string :=
  match s with
  | EmptyString => EmptyString
  | String c s' =>
      match pending with
      | S k => String c (coerce k s')
      | O =>
          if Bytes.code c <? 128 then String c (coerce 0 s')
          else
            match utf8.size c s' with
            | None => utf8.replacement +:+ coerce 0 s'
            | Some n => String c (coerce (n - 1) s')
            end
      end
  end.

Definition as_read (s : string) : string := coerce 0 s.

(** Well-formed UTF-8: no byte of the string is replaced. *)
Fixpoint well_formed (pending : nat) (s : string) : bool :=
  match s with
  | EmptyString => true
  | String c s' =>
      match pending with
      | S k => well_formed k s'
      | O =>
          if Bytes.code c <? 128 then well_formed 0 s'
          else
            match utf8.size c s' with
            | None => false
            | Some n => well_formed (n - 1) s'
            end
      end
  end.

Definition is_utf8 (s : string) : bool := well_formed 0 s.

(** The value a reader gets back for a marshalled value. *)
Fixpoint as_read_json (v : json) : json :=
  match v with
  | JString s => JString (as_read s)
  | JArray elems => JArray (List.map as_read_json elems)
  | JObject members =>
      JObject (List.map (fun '(k, x) => (as_read k, as_read_json x)) members)
  | other => other
  end.

(** Values without numbers: the envelopes of this package are made of
    strings, booleans, objects and lists. *)
Fixpoint textual (v : json) : bool :=
  match v with
  | JNumber _ => false
  | JArray elems => forallb textual elems
  | JObject members => forallb (fun '(_, x) => textual x) members
  | _ => true
  end.

(** Fuel that reads a marshalled value back. *)
Fixpoint need (v : json) : nat :=
  match v with
  | JArray elems => S (fold_right (fun x n => S (Nat.max (need x) n)) 0 elems)
  | JObject members =>
      S (fold_right (fun '(_, x) n => S (Nat.max (need x) n)) 0 members)
  | _ => 1
  end.

(** *** Progress of the reader *)

(** A result of the reader on [s] is fine when it is not [OutOfFuel] and,
    when a value was read, the text left is shorter than [s]. *)
Definition fine {A} (r : parsed A) (s : string) : Prop :=
  r <> OutOfFuel
  /\ forall a rest, r = Parsed a rest -> String.length rest < String.length s.

(** The optional parts may read nothing. *)
Definition fine_or_same {A} (r : parsed A) (s : string) : Prop :=
  r <> OutOfFuel
  /\ forall a rest, r = Parsed a rest -> String.length rest <= String.length s.

(** *** Reading back what was marshalled *)

(** With enough fuel the reader gets a marshalled value back. *)
Definition reads_back (v : json) : Prop :=
  forall fuel tail,
    need v <= fuel ->
    value fuel (render v +:+ tail) = Parsed (as_read_json v) tail.

(** Fuel for the elements of a list. *)
Definition needs (l : list json) : nat :=
  fold_right (fun x n => S (Nat.max (need x) n)) 0 l.

(** A member of an object as it is written, and as it is read. *)
Definition member_text (k : string) (body : string) : string :=
  String Bytes.dquote (encode_bytes true 0 k +:+ String Bytes.dquote (String ":" body)).

Definition member_render (kv : string * json) : string :=
  let '(k, x) := kv in encode_string k +:+ ":" +:+ render x.

Definition member_read (kv : string * json) : string * json :=
  let '(k, x) := kv in (as_read k, as_read_json x).

End Json.

(** ** Errors and results *)

(** Modelled from the spec: the declaration of [ErrorResponse] is not part
    of the sources.  [Send] assigns its integer field [Code] and returns a
    pointer to it as an [error]; the spec describes it as the structure a
    non-200 body is decoded into, carrying [code] and further structured
    error fields, kept here as the JSON they were decoded from. *)
Record ErrorResponse : Type := {
  Code : Z;
  Fields : json;
}.

(** The Go [error] values that flow through this package. *)
Inductive error : Type :=
| errorf (format : string) (args : list string)   (* fmt.Errorf / errors.New *)
| errorf_w (format : string) (err : error)       (* fmt.Errorf with a %w verb *)
| url_EscapeError (s : string)
| url_InvalidHostError (s : string)
| url_Error (Op URL : string) (Err : error)
| json_SyntaxError (msg : string)
| json_UnmarshalTypeError (Value Field : string)
| json_UnsupportedTypeError (Type_ : string)
| io_EOF
| foreign_error (msg : string)                   (* raised by a collaborator *)
| ErrorResponse_error (e : ErrorResponse).       (* a *ErrorResponse *)

Inductive result (A : Type) : Type :=
| Ok (a : A)
| Err (e : error).
Arguments Ok {A} a.
Arguments Err {A} e.

Definition result_bind {A B} (r : result A) (f : A -> result B) : result B :=
  match r with Ok a => f a | Err e => Err e end.

(** [let? x := r in k]: [x, err := r; if err != nil { return err }; k]. *)
Notation "'let?' x ':=' r 'in' k" := (result_bind r (fun x => k))
  (at level 10, x name, r at level 100, k at level 200).

Definition is_Ok {A} (r : result A) : bool :=
  match r with Ok _ => true | Err _ => false end.

(** ** Package [path] *)

Module path.

(** The write buffer of [Clean]: [out] holds the [w] bytes written so
    far, [dotdot] is the index where a [..] element must stop. *)
Record lazybuf : Type := { out : string; dotdot : nat }.

(** [out.w--; for out.w > dotdot && out.index(out.w) != '/' { out.w-- }]
    on the reversed buffer: [dropped] is the byte at index [w]. *)
Fixpoint backtrack_loop (dd : nat) (dropped : ascii) (r : string) : string :=
  match r with
  | EmptyString => EmptyString
  | String c r' =>
      if (dd <? String.length r) && negb (Bytes.eqb dropped Bytes.slash)
      then backtrack_loop dd c r'
      else r
  end.

Definition backtrack (dd : nat) (o : string) : string :=
  match Str.rev o with
  | EmptyString => EmptyString
  | String c r' => Str.rev (backtrack_loop dd c r')
  end.

(** One turn of the loop of [Clean], on the path element [seg] that
    starts at the read index (an empty [seg] is a slash). *)
Definition clean_step (rooted : bool) (b : lazybuf) (seg : string) : lazybuf :=
  let w := String.length (out b) in
  if String.eqb seg "" then b                       (* empty path element *)
  else if String.eqb seg "." then b                 (* . element *)
  else if String.eqb seg ".." then                  (* .. element *)
    if dotdot b <? w then
      {| out := backtrack (dotdot b) (out b); dotdot := dotdot b |}
    else if negb rooted then
      let o := (if 0 <? w then out b +:+ "/" else out b) +:+ ".." in
      {| out := o; dotdot := String.length o |}
    else b
  else                                              (* real path element *)
    let o := if (rooted && negb (w =? 1)) || (negb rooted && negb (w =? 0))
             then out b +:+ "/" else out b in
    {| out := o +:+ seg; dotdot := dotdot b |}.

(** [path.Clean].  The elements are the pieces between slashes; the
    slash of a rooted path gives an empty first element, which is skipped
    like every empty element. *)
Definition Clean (p : string) : string :=
  if String.eqb p "" then "."
  else
    let rooted := Str.has_prefix p "/" in
    let b0 := if rooted then {| out := "/"; dotdot := 1 |}
              else {| out := ""; dotdot := 0 |} in
    let b := fold_left (clean_step rooted) (Str.split Bytes.slash p) b0 in
    if String.length (out b) =? 0 then "." else out b.

(** The buffer [path.Join] builds before cleaning it. *)
Fixpoint join_buf (buf : string) (elem : list string) : string :=
  match elem with
  | [] => buf
  | e :: rest =>
      if (0 <? String.length buf) || negb (String.eqb e "") then
        join_buf ((if 0 <? String.length buf then buf +:+ "/" else buf) +:+ e) rest
      else join_buf buf rest
  end.

(** [path.Join]. *)
Definition Join (elem : list string) : string :=
  if forallb (fun e => String.eqb e "") elem then ""
  else Clean (join_buf "" elem).

(** Path elements *)

(** The path elements of a string: the non-empty pieces between
    slashes. *)
Definition nonempty (seg : string) : bool := negb (String.eqb seg "").

Definition elements (s : string) : list string :=
  List.filter nonempty (Str.split Bytes.slash s).

Definition rooted (s : string) : bool := Str.has_prefix s "/".

(** What [Clean] returns for the buffer its loop leaves. *)
Definition finish (b : lazybuf) : string :=
  if String.length (out b) =? 0 then "." else out b.

Definition root : lazybuf := {| out := "/"; dotdot := 1 |}.

(** [Clean] of a rooted path, from its elements. *)
Definition clean_rooted (elems : list string) : string :=
  finish (fold_left (clean_step true) elems root).


End path.

(** ** Package [net/url] *)

Module url.

Inductive encoding : Type :=
| encodePath | encodePathSegment | encodeHost | encodeZone
| encodeUserPassword | encodeQueryComponent | encodeFragment.

Definition is_host_mode (mode : encoding) : bool :=
  match mode with encodeHost | encodeZone => true | _ => false end.

Definition one_of (c : ascii) (set : string) : bool := Str.contains_byte c set.

(** [shouldEscape]. *)
Definition shouldEscape (c : ascii) (mode : encoding) : bool :=
  if Bytes.is_alpha c || Bytes.is_digit c then false
  else if is_host_mode mode
          && (one_of c "!$&'()*+,;=:[]<>" || Bytes.eqb c Bytes.dquote) then false
  else if one_of c "-_.~" then false
  else if one_of c "$&+,/:;=?@" then
    match mode with
    | encodePath => Bytes.eqb c "?"%char
    | encodePathSegment => one_of c "/;,?"
    | encodeUserPassword => one_of c "@/?:"
    | encodeQueryComponent => true
    | encodeFragment => false
    | encodeHost | encodeZone => true
    end
  else if match mode with encodeFragment => one_of c "!()*" | _ => false end
  then false
  else true.

Definition byte_of_hex (a b : ascii) : ascii :=
  ascii_of_nat (Bytes.unhex a * 16 + Bytes.unhex b).

(** [unescape]: the check of the escapes and the decoding, in one pass
    (the first malformed escape or host byte is reported). *)
Fixpoint unescape (s : string) (mode : encoding) : result string :=
  match s with
  | EmptyString => Ok EmptyString
  | String c s' =>
      if Bytes.eqb c "%"%char then
        match s' with
        | String a (String b rest) =>
            if Bytes.is_hex a && Bytes.is_hex b then
              let esc := String c (String a (Str.of_byte b)) in
              if match mode with encodeHost => true | _ => false end
                 && (Bytes.unhex a <? 8) && negb (String.eqb esc "%25")
              then Err (url_EscapeError esc)
              else if match mode with encodeZone => true | _ => false end
                      && negb (String.eqb esc "%25")
                      && negb (Bytes.eqb (byte_of_hex a b) " "%char)
                      && shouldEscape (byte_of_hex a b) encodeHost
              then Err (url_EscapeError esc)
              else
                let? r := unescape rest mode in
                Ok (String (byte_of_hex a b) r)
            else Err (url_EscapeError (String c (String a (Str.of_byte b))))
        | _ => Err (url_EscapeError s)
        end
      else if Bytes.eqb c "+"%char then
        let? r := unescape s' mode in
        Ok (String (match mode with
                    | encodeQueryComponent => " "%char
                    | _ => c
                    end) r)
      else if is_host_mode mode && (Bytes.code c <? 128) && shouldEscape c encodeHost
      then Err (url_InvalidHostError (Str.of_byte c))
      else
        let? r := unescape s' mode in
        Ok (String c r)
  end.

(** [escape]. *)
Fixpoint escape (s : string) (mode : encoding) : string :=
  match s with
  | EmptyString => EmptyString
  | String c s' =>
      if Bytes.eqb c " "%char
         && match mode with encodeQueryComponent => true | _ => false end
      then String "+"%char (escape s' mode)
      else if shouldEscape c mode then
        String "%"%char
          (String (Bytes.hex_upper (Bytes.code c / 16))
             (String (Bytes.hex_upper (Bytes.code c mod 16)) (escape s' mode)))
      else String c (escape s' mode)
  end.

Definition QueryEscape (s : string) : string := escape s encodeQueryComponent.
Definition QueryUnescape (s : string) : result string := unescape s encodeQueryComponent.

(** [validEncoded]. *)
Definition validEncoded (s : string) (mode : encoding) : bool :=
  Str.forallb
    (fun c => one_of c "!$&'()*+,;=:@" || one_of c "[]" || Bytes.eqb c "%"%char
              || negb (shouldEscape c mode)) s.

Record Userinfo : Type := {
  username : string;
  password : string;
  passwordSet : bool;
}.

Record URL : Type := {
  Scheme : string;
  Opaque : string;
  User : option Userinfo;
  Host : string;
  Path : string;
  RawPath : string;
  OmitHost : bool;
  ForceQuery : bool;
  RawQuery : string;
  Fragment : string;
  RawFragment : string;
}.

Definition empty : URL :=
  {| Scheme := ""; Opaque := ""; User := None; Host := ""; Path := "";
     RawPath := ""; OmitHost := false; ForceQuery := false; RawQuery := "";
     Fragment := ""; RawFragment := "" |}.

(** [URL.setPath]. *)
Definition setPath (u : URL) (p : string) : result URL :=
  let? path := unescape p encodePath in
  Ok {| Scheme := Scheme u; Opaque := Opaque u; User := User u; Host := Host u;
        Path := path;
        RawPath := if String.eqb p (escape path encodePath) then "" else p;
        OmitHost := OmitHost u; ForceQuery := ForceQuery u;
        RawQuery := RawQuery u; Fragment := Fragment u;
        RawFragment := RawFragment u |}.

(** [URL.EscapedPath]. *)
Definition EscapedPath (u : URL) : string :=
  let fallback :=
    if String.eqb (Path u) "*" then "*" else escape (Path u) encodePath in
  if negb (String.eqb (RawPath u) "") && validEncoded (RawPath u) encodePath then
    match unescape (RawPath u) encodePath with
    | Ok p => if String.eqb p (Path u) then RawPath u else fallback
    | Err _ => fallback
    end
  else fallback.

(** [URL.setFragment]. *)
Definition setFragment (u : URL) (f : string) : result URL :=
  let? frag := unescape f encodeFragment in
  Ok {| Scheme := Scheme u; Opaque := Opaque u; User := User u; Host := Host u;
        Path := Path u; RawPath := RawPath u;
        OmitHost := OmitHost u; ForceQuery := ForceQuery u;
        RawQuery := RawQuery u; Fragment := frag;
        RawFragment := if String.eqb f (escape frag encodeFragment) then "" else f |}.

(** [URL.EscapedFragment]. *)
Definition EscapedFragment (u : URL) : string :=
  let fallback := escape (Fragment u) encodeFragment in
  if negb (String.eqb (RawFragment u) "") && validEncoded (RawFragment u) encodeFragment then
    match unescape (RawFragment u) encodeFragment with
    | Ok f => if String.eqb f (Fragment u) then RawFragment u else fallback
    | Err _ => fallback
    end
  else fallback.

(** [getScheme]: the scheme and the rest, or the whole text when it has
    no scheme. *)
Fixpoint getScheme_from (i : nat) (rawURL s : string) (acc : string)
  : result (string * string) :=
  match s with
  | EmptyString => Ok ("", rawURL)
  | String c s' =>
      if Bytes.is_alpha c then getScheme_from (S i) rawURL s' (acc +:+ Str.of_byte c)
      else if Bytes.is_digit c || one_of c "+-." then
        if i =? 0 then Ok ("", rawURL)
        else getScheme_from (S i) rawURL s' (acc +:+ Str.of_byte c)
      else if Bytes.eqb c ":"%char then
        if i =? 0 then Err (errorf "missing protocol scheme" [])
        else Ok (acc, s')
      else Ok ("", rawURL)
  end.

Definition getScheme (rawURL : string) : result (string * string) :=
  getScheme_from 0 rawURL rawURL "".

(** [validOptionalPort]. *)
Definition validOptionalPort (port : string) : bool :=
  match port with
  | EmptyString => true
  | String c digits => Bytes.eqb c ":"%char && Str.forallb Bytes.is_digit digits
  end.

(** [validUserinfo]. *)
Definition validUserinfo (s : string) : bool :=
  Str.forallb
    (fun c => Bytes.is_alpha c || Bytes.is_digit c || one_of c "-._:~!$&'()*+,;=%@") s.

(** The text before and from the last occurrence of a byte,
    [strings.LastIndex]; [None] when the byte does not occur. *)
Fixpoint cut_last (c : ascii) (s : string) : option (string * string) :=
  match s with
  | EmptyString => None
  | String d s' =>
      match cut_last c s' with
      | Some (before, from) => Some (String d before, from)
      | None => if Bytes.eqb c d then Some (EmptyString, s) else None
      end
  end.

(** The text before and from the first occurrence of a needle,
    [strings.Index]. *)
Fixpoint cut_index (needle s : string) : option (string * string) :=
  if Str.has_prefix s needle then Some (EmptyString, s)
  else match s with
       | EmptyString => None
       | String d s' =>
           match cut_index needle s' with
           | Some (before, from) => Some (String d before, from)
           | None => None
           end
       end.

(** [parseHost]. *)
Definition parseHost (host : string) : result string :=
  if Str.has_prefix host "[" then
    match cut_last "]"%char host with
    | None => Err (errorf "missing ']' in host" [])
    | Some (before, from) =>            (* host[:i], host[i:] *)
        let colonPort := Str.tail from in
        if negb (validOptionalPort colonPort)
        then Err (errorf "invalid port %q after host" [colonPort])
        else
          match cut_index "%25" before with
          | Some (h1, zone) =>
              let? host1 := unescape h1 encodeHost in
              let? host2 := unescape zone encodeZone in
              let? host3 := unescape from encodeHost in
              Ok (host1 +:+ host2 +:+ host3)
          | None => unescape host encodeHost
          end
    end
  else
    match cut_last ":"%char host with
    | Some (_, colonPort) =>
        if negb (validOptionalPort colonPort)
        then Err (errorf "invalid port %q after host" [colonPort])
        else unescape host encodeHost
    | None => unescape host encodeHost
    end.

(** [parseAuthority]. *)
Definition parseAuthority (authority : string) : result (option Userinfo * string) :=
  match cut_last "@"%char authority with
  | None =>
      let? host := parseHost authority in
      Ok (None, host)
  | Some (userinfo, from) =>
      let? host := parseHost (Str.tail from) in
      if negb (validUserinfo userinfo)
      then Err (errorf "net/url: invalid userinfo" [])
      else if negb (Str.contains_byte ":"%char userinfo) then
        let? name := unescape userinfo encodeUserPassword in
        Ok (Some {| username := name; password := ""; passwordSet := false |}, host)
      else
        let '(name, pass, _) := Str.cut ":"%char userinfo in
        let? name := unescape name encodeUserPassword in
        let? pass := unescape pass encodeUserPassword in
        Ok (Some {| username := name; password := pass; passwordSet := true |}, host)
  end.

(** [stringContainsCTLByte]. *)
Definition stringContainsCTLByte (s : string) : bool :=
  Str.existsb (fun c => (Bytes.code c <? 32) || (Bytes.code c =? 127)) s.

Definition with_scheme (u : URL) (scheme : string) : URL :=
  {| Scheme := scheme; Opaque := Opaque u; User := User u; Host := Host u;
     Path := Path u; RawPath := RawPath u; OmitHost := OmitHost u;
     ForceQuery := ForceQuery u; RawQuery := RawQuery u;
     Fragment := Fragment u; RawFragment := RawFragment u |}.

Definition with_query (u : URL) (force : bool) (raw : string) : URL :=
  {| Scheme := Scheme u; Opaque := Opaque u; User := User u; Host := Host u;
     Path := Path u; RawPath := RawPath u; OmitHost := OmitHost u;
     ForceQuery := force; RawQuery := raw;
     Fragment := Fragment u; RawFragment := RawFragment u |}.

Definition with_host (u : URL) (user : option Userinfo) (host : string)
                     (omit : bool) : URL :=
  {| Scheme := Scheme u; Opaque := Opaque u; User := user; Host := host;
     Path := Path u; RawPath := RawPath u; OmitHost := omit;
     ForceQuery := ForceQuery u; RawQuery := RawQuery u;
     Fragment := Fragment u; RawFragment := RawFragment u |}.

Definition with_opaque (u : URL) (opaque : string) : URL :=
  {| Scheme := Scheme u; Opaque := opaque; User := User u; Host := Host u;
     Path := Path u; RawPath := RawPath u; OmitHost := OmitHost u;
     ForceQuery := ForceQuery u; RawQuery := RawQuery u;
     Fragment := Fragment u; RawFragment := RawFragment u |}.

(** [parse(rawURL, viaRequest)] with [viaRequest = false]. *)
Definition parse (rawURL : string) : result URL :=
  if stringContainsCTLByte rawURL
  then Err (errorf "net/url: invalid control character in URL" [])
  else if String.eqb rawURL "*" then
    Ok {| Scheme := ""; Opaque := ""; User := None; Host := ""; Path := "*";
          RawPath := ""; OmitHost := false; ForceQuery := false; RawQuery := "";
          Fragment := ""; RawFragment := "" |}
  else
    let? sr := getScheme rawURL in
    let '(scheme, rest) := sr in
    let u := with_scheme empty (Str.to_lower scheme) in
    let '(rest, u) :=
      if Str.has_suffix rest "?" && (Str.count_byte "?"%char rest =? 1)
      then (Str.drop_last rest, with_query u true "")
      else let '(before, after, _) := Str.cut "?"%char rest in
           (before, with_query u false after) in
    if negb (Str.has_prefix rest "/") && negb (String.eqb (Scheme u) "")
    then Ok (with_opaque u rest)   (* rootless paths are opaque *)
    else if negb (Str.has_prefix rest "/")
            && (let '(segment, _, _) := Str.cut Bytes.slash rest in
                Str.contains_byte ":"%char segment)
    then Err (errorf "first path segment in URL cannot contain colon" [])
    else
      let? ru :=
        if (negb (String.eqb (Scheme u) "") || negb (Str.has_prefix rest "///"))
           && Str.has_prefix rest "//"
        then
          let authority := Str.tail (Str.tail rest) in
          let '(authority, rest) :=
            match cut_index "/" authority with
            | Some (a, r) => (a, r)
            | None => (authority, "")
            end in
          let? uh := parseAuthority authority in
          Ok (rest, with_host u (fst uh) (snd uh) false)
        else if negb (String.eqb (Scheme u) "") && Str.has_prefix rest "/"
        then Ok (rest, with_host u None "" true)
        else Ok (rest, u) in
      setPath (snd ru) (fst ru).

(** [url.Parse]. *)
Definition Parse (rawURL : string) : result URL :=
  let '(u, frag, _) := Str.cut "#"%char rawURL in
  match parse u with
  | Err e => Err (url_Error "parse" u e)
  | Ok url =>
      if String.eqb frag "" then Ok url
      else match setFragment url frag with
           | Err e => Err (url_Error "parse" rawURL e)
           | Ok url' => Ok url'
           end
  end.

(** [Userinfo.String]. *)
Definition Userinfo_String (ui : Userinfo) : string :=
  escape (username ui) encodeUserPassword
  +:+ (if passwordSet ui then ":" +:+ escape (password ui) encodeUserPassword else "").

(** [URL.String]. *)
Definition String_ (u : URL) : string :=
  let scheme := if String.eqb (Scheme u) "" then "" else Scheme u +:+ ":" in
  let body :=
    if negb (String.eqb (Opaque u) "") then scheme +:+ Opaque u
    else
      let has_user := match User u with Some _ => true | None => false end in
      let authority :=
        if negb (String.eqb (Scheme u) "") || negb (String.eqb (Host u) "") || has_user
        then
          if OmitHost u && String.eqb (Host u) "" && negb has_user then ""
          else
            (if negb (String.eqb (Host u) "") || negb (String.eqb (Path u) "") || has_user
             then "//" else "")
            +:+ match User u with
                | Some ui => Userinfo_String ui +:+ "@"
                | None => ""
                end
            +:+ (if String.eqb (Host u) "" then "" else escape (Host u) encodeHost)
        else "" in
      let buf := scheme +:+ authority in
      let p := EscapedPath u in
      let buf :=
        if negb (String.eqb p "") && negb (Str.has_prefix p "/")
           && negb (String.eqb (Host u) "")
        then buf +:+ "/" else buf in
      let buf :=
        if (String.length buf =? 0)
           && (let '(segment, _, _) := Str.cut Bytes.slash p in
               Str.contains_byte ":"%char segment)
        then buf +:+ "./" else buf in
      buf +:+ p in
  body
  +:+ (if ForceQuery u || negb (String.eqb (RawQuery u) "")
       then "?" +:+ RawQuery u else "")
  +:+ (if String.eqb (Fragment u) "" then "" else "#" +:+ EscapedFragment u).

(** The path [URL.JoinPath] computes from the escaped path of the URL
    and the elements to append. *)
Definition joined_path (escaped : string) (elem : list string) : string :=
  let elem0 := escaped in
  let relative := negb (Str.has_prefix elem0 "/") in
  let elem0 := if relative then "/" +:+ elem0 else elem0 in
  let elem := elem0 :: elem in
  let p := if relative then Str.tail (path.Join elem) else path.Join elem in
  (* path.Join removes trailing slashes; at least one is preserved *)
  if Str.has_suffix (List.last elem "") "/" && negb (Str.has_suffix p "/")
  then p +:+ "/" else p.

(** [url.setPath(p)] with its error dropped, which leaves the path as it
    was. *)
Definition with_path (u : URL) (p : string) : URL :=
  match setPath u p with
  | Ok url => url
  | Err _ => u
  end.

(** [URL.JoinPath]. *)
Definition URL_JoinPath (u : URL) (elem : list string) : URL :=
  with_path u (joined_path (EscapedPath u) elem).

(** [url.JoinPath]. *)
Definition JoinPath (base : string) (elem : list string) : result string :=
  let? u := Parse base in
  Ok (String_ (URL_JoinPath u elem)).

(** [url.Values]. *)
Abbreviation Values := (gmap string (list string)).

(** [Values.Add]. *)
Definition Values_Add (v : Values) (key value : string) : Values :=
  <[key := default [] (v !! key) ++ [value]]> v.

(** One turn of the loop of [parseQuery], on the text [key] cut off
    before the next ampersand.  The error is not kept: [URL.Query] discards
    it. *)
Definition parseQuery_step (m : Values) (key : string) : Values :=
  if Str.contains_byte ";"%char key then m
  else if String.eqb key "" then m
  else
    let '(key, value, _) := Str.cut "="%char key in
    match QueryUnescape key, QueryUnescape value with
    | Ok key, Ok value => Values_Add m key value
    | _, _ => m
    end.

(** [parseQuery]: the loop cuts the query at every ampersand; the pieces
    it visits are those of [strings.Split], an empty piece being skipped. *)
Definition parseQuery (m : Values) (query : string) : Values :=
  fold_left parseQuery_step (Str.split "&"%char query) m.

(** [URL.Query]. *)
Definition Query (u : URL) : Values := parseQuery ∅ (RawQuery u).

Fixpoint insert_sorted (k : string) (l : list string) : list string :=
  match l with
  | [] => [k]
  | x :: rest => if String.leb k x then k :: l else x :: insert_sorted k rest
  end.

Definition sorted_keys (v : Values) : list string :=
  foldr insert_sorted [] (map fst (map_to_list v)).

(** [Values.Encode]: the pairs in the order of the sorted keys. *)
Definition Values_Encode (v : Values) : string :=
  Str.join "&"
    (flat_map
       (fun k => map (fun x => QueryEscape k +:+ "=" +:+ QueryEscape x)
                     (default [] (v !! k)))
       (sorted_keys v)).

(** The path [URL.JoinPath] computes, from the path elements: the
    cleaned rooted join, without its slash when the base path is
    relative, and with one trailing slash when the last element ends in a
    slash. *)
Definition joined (base_rooted : bool) (elems : list string) (trailing : bool)
  : string :=
  let j := path.clean_rooted elems in
  let p := if base_rooted then j else Str.tail j in
  if trailing && negb (Str.has_suffix p "/") then p +:+ "/" else p.

End url.

(** ** Package [net/http] *)

(** [context.Context]: a nil interface value or a context. *)
Inductive Context : Type :=
| ctx_nil
| ctx_of (name : string).

Module http.

Definition StatusOK : Z := 200.

(** [validHeaderFieldByte] and [httpguts.IsTokenRune]: the token bytes
    of RFC 7230. *)
Definition is_token_byte (c : ascii) : bool :=
  Bytes.is_alpha c || Bytes.is_digit c || url.one_of c "!#$%&'*+-.^_`|~".

(** The loop of [canonicalMIMEHeaderKey]: upper case at the start and
    after each dash, lower case elsewhere. *)
Fixpoint canonical_from (upper : bool) (s : string) : string :=
  match s with
  | EmptyString => EmptyString
  | String c s' =>
      let c' := if upper && Bytes.is_lower c then Bytes.to_upper c
                else if negb upper && Bytes.is_upper c then Bytes.to_lower c
                else c in
      String c' (canonical_from (Bytes.eqb c' "-"%char) s')
  end.

(** [textproto.CanonicalMIMEHeaderKey]: a key with a byte that is not a
    token byte is returned unchanged. *)
Definition CanonicalMIMEHeaderKey (s : string) : string :=
  if Str.forallb is_token_byte s then canonical_from true s else s.

(** [http.Header], a [map[string][]string]. *)
Abbreviation Header := (gmap string (list string)).

(** [Header.Set]. *)
Definition Header_Set (h : Header) (key value : string) : Header :=
  <[CanonicalMIMEHeaderKey key := [value]]> h.

(** [Header.Get]. *)
Definition Header_Get (h : Header) (key : string) : string :=
  match h !! CanonicalMIMEHeaderKey key with
  | Some (v :: _) => v
  | _ => ""
  end.

(** The body of a request: no body, [http.NoBody], or the bytes of a
    buffer. *)
Inductive RequestBody : Type :=
| body_nil
| NoBody
| body_buffer (bytes : string).

Record Request : Type := {
  ctx : Context;
  Method : string;
  URL : url.URL;
  Header_ : Header;
  Body : RequestBody;
  ContentLength : Z;
  Host : string;
}.

(** [validMethod]. *)
Definition validMethod (method : string) : bool :=
  (0 <? String.length method) && Str.forallb is_token_byte method.

(** [removeEmptyPort]. *)
Definition removeEmptyPort (host : string) : string :=
  let last_index c :=
    match url.cut_last c host with
    | Some (before, _) => Z.of_nat (String.length before)
    | None => (-1)%Z
    end in
  if (last_index "]"%char <? last_index ":"%char)%Z && Str.has_suffix host ":"
  then Str.drop_last host else host.

(** [http.NewRequestWithContext]; [body] is [None] for a nil reader and
    the contents of the [*bytes.Buffer] otherwise. *)
Definition NewRequestWithContext (ctx : Context) (method url_ : string)
                                 (body : option string) : result Request :=
  let method := if String.eqb method "" then "GET" else method in
  if negb (validMethod method)
  then Err (errorf "net/http: invalid method %q" [method])
  else match ctx with
       | ctx_nil => Err (errorf "net/http: nil Context" [])
       | ctx_of _ =>
           let? u := url.Parse url_ in
           let host := removeEmptyPort (url.Host u) in
           let u := url.with_host u (url.User u) host (url.OmitHost u) in
           Ok {| ctx := ctx; Method := method; URL := u; Header_ := ∅;
                 Body := match body with
                         | None => body_nil
                         | Some b => if String.length b =? 0 then NoBody
                                     else body_buffer b
                         end;
                 ContentLength := match body with
                                  | None => 0%Z
                                  | Some b => Z.of_nat (String.length b)
                                  end;
                 Host := host |}
       end.

Definition with_Header (req : Request) (h : Header) : Request :=
  {| ctx := ctx req; Method := Method req; URL := URL req; Header_ := h;
     Body := Body req; ContentLength := ContentLength req; Host := Host req |}.

Definition with_RawQuery (req : Request) (raw : string) : Request :=
  {| ctx := ctx req; Method := Method req;
     URL := url.with_query (URL req) (url.ForceQuery (URL req)) raw;
     Header_ := Header_ req;
     Body := Body req; ContentLength := ContentLength req; Host := Host req |}.

(** The body stream of a response, an [io.ReadCloser]: [content] is what
    [io.ReadAll] returns for it. *)
Record ReadCloser : Type := { content : result string }.

(** [http.Response].  [RespBody] is an interface value: [None] is the nil
    interface. *)
Record Response : Type := {
  StatusCode : Z;
  RespHeader : Header;
  RespBody : option ReadCloser;
}.

(** [*http.Client], by what its transport answers to a request. *)
Record Client : Type := { Do : Request -> result Response }.

End http.

(** ** Package [models]: the payload structures *)

(** Modelled from the spec: package [models] is not part of the sources.
    [http.go] fills [Text] with [PreviewUrl] and [Body], and [Reaction]
    with [MessageID] and [Emoji]; the spec and the comment of [React] give
    their JSON names ([preview_url], [body], [message_id], [emoji]).
    [Location] and [Contacts] are only passed through by [http.go] and are
    kept as the JSON they marshal to. *)
Module models.

Record Text : Type := { PreviewUrl : bool; Body : string }.
Record Reaction : Type := { MessageID : string; Emoji : string }.
Definition Location : Type := json.
Definition Contacts : Type := json.

Definition Text_json (t : Text) : json :=
  JObject [("preview_url", JBool (PreviewUrl t)); ("body", JString (Body t))].

Definition Reaction_json (r : Reaction) : json :=
  JObject [("message_id", JString (MessageID r)); ("emoji", JString (Emoji r))].

End models.

(** ** Package [whatsapp]: the data model *)

(** [RequestParams].  Its declaration is not part of the sources; the
    fields are the ones [NewRequestWithContext] reads.  [Headers] and
    [Query] are Go maps that are only ranged over: they are given by their
    entries in the order the [range] statement visits them, which Go leaves
    unspecified; the keys of a map are pairwise distinct. *)
Module RequestParams.
Record t : Type := {
  BaseURL : string;
  ApiVersion : string;
  SenderID : string;
  Endpoint : string;
  Method : string;
  Headers : list (string * string);
  Query : list (string * string);
  Bearer : string;
}.

Definition well_formed (p : t) : Prop :=
  NoDup (map fst (Headers p)) ∧ NoDup (map fst (Query p)).
End RequestParams.

(** Modelled from the spec: the declaration of [Message] is not part of
    the sources.  The envelope carries [messaging_product], [to], an
    optional [recipient_type], the discriminant [type] and one payload
    field among [text], [location], [reaction], [contacts]; a field that is
    optional is left out of the JSON when it has its zero value. *)
Module Message.
Record t : Type := {
  Product : string;
  To : string;
  RecipientType : string;
  Type_ : string;
  Text : option models.Text;
  Location : option models.Location;
  Reaction : option models.Reaction;
  Contacts : option models.Contacts;
}.

Definition omitempty (name : string) (v : string) : list (string * json) :=
  if String.eqb v "" then [] else [(name, JString v)].

Definition optional {A} (name : string) (to_json : A -> json) (v : option A)
  : list (string * json) :=
  match v with None => [] | Some x => [(name, to_json x)] end.

Definition to_json (m : t) : json :=
  JObject ([("messaging_product", JString (Product m)); ("to", JString (To m))]
           ++ omitempty "recipient_type" (RecipientType m)
           ++ [("type", JString (Type_ m))]
           ++ optional "text" models.Text_json (Text m)
           ++ optional "location" id (Location m)
           ++ optional "reaction" models.Reaction_json (Reaction m)
           ++ optional "contacts" id (Contacts m)).
End Message.

(** [json.Marshal] of a [*Message]: strings, booleans and nested structures
    always marshal. *)
Definition json_Marshal_Message (m : Message.t) : result string :=
  Ok (Json.render (Message.to_json m)).

(** A Go value of type [any], by what [json.Marshal] makes of it. *)
Inductive any : Type :=
| any_nil
| any_Text (t : models.Text)
| any_value (v : json)                (* a value that marshals to [v] *)
| any_unsupported (type_ : string).   (* a channel, a function, ... *)

Definition json_Marshal_any (v : any) : result string :=
  match v with
  | any_nil => Ok "null"
  | any_Text t => Ok (Json.render (models.Text_json t))
  | any_value j => Ok (Json.render j)
  | any_unsupported ty => Err (json_UnsupportedTypeError ty)
  end.

(** Modelled from the spec: the declaration of [ResponseMessage] is not
    part of the sources.  The comment of [React] shows the success body:
    [messaging_product], a list [contacts] of objects with [input] and
    [wa_id], and a list [messages] of objects with [id]. *)
Module ResponseMessage.
Record Contact : Type := { Input : string; WhatsappId : string }.
Record MessageID : Type := { ID : string }.
Record t : Type := {
  Product : string;
  Contacts : list Contact;
  Messages : list MessageID;
}.
End ResponseMessage.

(** [Response]: its declaration is not part of the sources; [Send] assigns
    the three fields. *)
Module Response.
Record t : Type := {
  StatusCode : Z;
  Headers : http.Header;
  Message : ResponseMessage.t;
}.
End Response.

Module SendTextRequest.
Record t : Type := { Recipient : string; Message : string; PreviewURL : bool }.
End SendTextRequest.

Module SendLocationRequest.
Record t : Type := { Recipient : string; Location : option models.Location }.
End SendLocationRequest.

Module ReactRequest.
Record t : Type := { Recipient : string; MessageID : string; Emoji : string }.
End ReactRequest.

Module SendContactRequest.
Record t : Type := { Recipient : string; Contacts : option models.Contacts }.
End SendContactRequest.

(** [MessageType] is a string type: [buildReplyPayload] converts it with
    [string(options.MessageType)]. *)
Definition MessageType : Type := string.

(** ReplyParams contains options for replying to a message. *)
Module ReplyParams.
Record t : Type := {
  Recipient : string;
  Context : string;       (* this is ID of the message to reply to *)
  MessageType_ : MessageType;
  Content : any;          (* this is a Text if MessageType is Text *)
}.
End ReplyParams.

(** ** Decoding response bodies *)

(** How [encoding/json] stores a decoded JSON value into a zero value of a
    Go type; it follows from the declaration of the type. *)
Class FromJSON (T : Type) : Type := from_json : json -> result T.

(** [json.Unmarshal(data, &v)]: the whole input must be one JSON value. *)
Definition json_Unmarshal {T} `{FromJSON T} (data : string) : result T :=
  match Json.parse data with
  | Json.Parsed v _ => from_json v
  | Json.SyntaxError msg => Err (json_SyntaxError msg)
  | Json.OutOfFuel => Err (json_SyntaxError "exceeded max depth")
  end.

(** [json.NewDecoder(bytes.NewBuffer(data)).Decode(&v)]: the first JSON
    value of the input; an input with no value at all is [io.EOF]. *)
Definition json_Decoder_Decode {T} `{FromJSON T} (data : string) : result T :=
  match Json.skip_space data with
  | EmptyString => Err io_EOF
  | _ =>
      match Json.parse_first data with
      | Json.Parsed v _ => from_json v
      | Json.SyntaxError msg => Err (json_SyntaxError msg)
      | Json.OutOfFuel => Err (json_SyntaxError "exceeded max depth")
      end
  end.

(** ** Request Builder *)

(** NewRequestWithContext creates a new [*http.Request] with context by
    using the [RequestParams].  [payload] is [None] for a nil slice. *)
Definition NewRequestWithContext (ctx : Context) (params : RequestParams.t)
                                 (payload : option string) : result http.Request :=
  match url.JoinPath (RequestParams.BaseURL params)
                     [RequestParams.ApiVersion params;
                      RequestParams.SenderID params;
                      RequestParams.Endpoint params] with
  | Err err => Err (errorf_w "failed to join url parts: %w" err)
  | Ok requestURL =>
      match
        match payload with
        | None =>
            http.NewRequestWithContext ctx (RequestParams.Method params)
                                       requestURL None
        | Some payload =>        (* bytes.NewBuffer(payload) *)
            http.NewRequestWithContext ctx (RequestParams.Method params)
                                       requestURL (Some payload)
        end
      with
      | Err err => Err (errorf_w "failed to create new request: %w" err)
      | Ok req =>
          (* for key, value := range params.Headers *)
          let header :=
            fold_left (fun h kv => http.Header_Set h (fst kv) (snd kv))
                      (RequestParams.Headers params) (http.Header_ req) in
          let header :=
            if negb (String.eqb (RequestParams.Bearer params) "")
            then http.Header_Set header "Authorization"
                                 ("Bearer " +:+ RequestParams.Bearer params)
            else header in
          let req := http.with_Header req header in
          let req :=
            if 0 <? List.length (RequestParams.Query params) then
              let query :=
                fold_left (fun q kv => url.Values_Add q (fst kv) (snd kv))
                          (RequestParams.Query params) (url.Query (http.URL req)) in
              http.with_RawQuery req (url.Values_Encode query)
            else req in
          Ok req
      end
  end.

(** ** Dispatcher *)

(** What a call does to the outside: the request handed to the transport
    and the operations on the body stream of the response. *)
Inductive event : Type :=
| ev_Do (req : http.Request)     (* client.Do(req) *)
| ev_ReadAll                     (* io.ReadAll(resp.Body) *)
| ev_Close.                      (* resp.Body.Close() *)

(** A function either returns or ends in a run-time panic. *)
Inductive outcome (A : Type) : Type :=
| Returned (a : A)
| Panicked (reason : string).
Arguments Returned {A} a.
Arguments Panicked {A} reason.

(** A computation that appends its events to the trace so far. *)
Definition Exec (A : Type) : Type := list event -> outcome A * list event.

Module Exec.

Definition ret {A} (a : A) : Exec A := fun t => (Returned a, t).

Definition bind {A B} (m : Exec A) (k : A -> Exec B) : Exec B :=
  fun t => match m t with
           | (Returned a, t') => k a t'
           | (Panicked r, t') => (Panicked r, t')
           end.

Definition emit (e : event) : Exec unit := fun t => (Returned tt, t ++ [e]).

Definition panic {A} (reason : string) : Exec A := fun t => (Panicked reason, t).

Definition nil_dereference : string :=
  "runtime error: invalid memory address or nil pointer dereference".

(** [defer recv.m(); rest], for a method [m] of the interface value
    [recv].  The method value is evaluated when the [defer] statement
    executes, which panics on a nil interface; the call itself runs when
    [rest] is left, by a return or by a panic. *)
Definition defer_method {R A} (recv : option R) (m : R -> Exec unit)
                        (rest : Exec A) : Exec A :=
  match recv with
  | None => panic nil_dereference
  | Some r =>
      fun t => match rest t with
               | (o, t') =>
                   match m r t' with
                   | (Returned _, t'') => (o, t'')
                   | (Panicked reason, t'') => (Panicked reason, t'')
                   end
               end
  end.

End Exec.

Notation "'do' x <- m ; k" := (Exec.bind m (fun x => k))
  (at level 10, x name, m at level 100, k at level 200, only parsing).

(** [client.Do(req)]. *)
Definition client_Do (client : http.Client) (req : http.Request)
  : Exec (result http.Response) :=
  fun t => (Returned (http.Do client req), t ++ [ev_Do req]).

(** [body.Close()]. *)
Definition Body_Close (body : http.ReadCloser) : Exec unit := Exec.emit ev_Close.

(** [io.ReadAll(body)]; reading from a nil interface panics. *)
Definition io_ReadAll (body : option http.ReadCloser) : Exec (result string) :=
  match body with
  | None => Exec.panic Exec.nil_dereference
  | Some rc => fun t => (Returned (http.content rc), t ++ [ev_ReadAll])
  end.

Definition with_Code (e : ErrorResponse) (code : Z) : ErrorResponse :=
  {| Code := code; Fields := Fields e |}.

Section Dispatcher.

Context `{FromJSON ErrorResponse} `{FromJSON ResponseMessage.t}.

(** [Send].  The Go function returns a [*Response] and an [error] of which
    exactly one is nil at every return statement: [Ok r] is [(&r, nil)]
    and [Err e] is [(nil, e)]. *)
Definition Send (ctx : Context) (client : http.Client)
                (params : RequestParams.t) (payload : option string)
  : Exec (result Response.t) :=
  match NewRequestWithContext ctx params payload with
  | Err err => Exec.ret (Err err)
  | Ok req =>
      do r <- client_Do client req;
      match r with
      | Err err => Exec.ret (Err err)
      | Ok resp =>
          Exec.defer_method (http.RespBody resp) Body_Close (
            match http.RespBody resp with
            | None => Exec.ret (Err (errorf "empty response body" []))
            | Some _ =>
                do read <- io_ReadAll (http.RespBody resp);
                match read with
                | Err err => Exec.ret (Err err)
                | Ok bodybytes =>
                    if negb (http.StatusCode resp =? http.StatusOK)%Z then
                      match json_Unmarshal (T := ErrorResponse) bodybytes with
                      | Err err => Exec.ret (Err err)
                      | Ok errResponse =>
                          let errResponse :=
                            with_Code errResponse (http.StatusCode resp) in
                          Exec.ret (Err (ErrorResponse_error errResponse))
                      end
                    else
                      match json_Decoder_Decode (T := ResponseMessage.t) bodybytes with
                      | Err err => Exec.ret (Err err)
                      | Ok message =>
                          Exec.ret (Ok {| Response.StatusCode := http.StatusCode resp;
                                          Response.Headers := http.RespHeader resp;
                                          Response.Message := message |})
                      end
                end
            end)
      end
  end.

(** ** Message Envelope Builders *)

(** SendText sends a text message to the recipient. *)
Definition SendText (ctx : Context) (client : http.Client)
                    (params : RequestParams.t) (req : SendTextRequest.t)
  : Exec (result Response.t) :=
  let text :=
    {| Message.Product := "whatsapp";
       Message.To := SendTextRequest.Recipient req;
       Message.RecipientType := "individual";
       Message.Type_ := "text";
       Message.Text := Some {| models.PreviewUrl := SendTextRequest.PreviewURL req;
                               models.Body := SendTextRequest.Message req |};
       Message.Location := None; Message.Reaction := None;
       Message.Contacts := None |} in
  match json_Marshal_Message text with
  | Err err => Exec.ret (Err err)
  | Ok payload => Send ctx client params (Some payload)
  end.

Definition SendLocation (ctx : Context) (client : http.Client)
                        (params : RequestParams.t) (req : SendLocationRequest.t)
  : Exec (result Response.t) :=
  let location :=
    {| Message.Product := "whatsapp";
       Message.To := SendLocationRequest.Recipient req;
       Message.RecipientType := "individual";
       Message.Type_ := "location";
       Message.Location := SendLocationRequest.Location req;
       Message.Text := None; Message.Reaction := None;
       Message.Contacts := None |} in
  match json_Marshal_Message location with
  | Err err => Exec.ret (Err err)
  | Ok payload => Send ctx client params (Some payload)
  end.

(** The envelope [React] builds. *)
Definition React_envelope (req : ReactRequest.t) : Message.t :=
  {| Message.Product := "whatsapp";
     Message.To := ReactRequest.Recipient req;
     Message.Type_ := "reaction";
     Message.Reaction := Some {| models.MessageID := ReactRequest.MessageID req;
                                 models.Emoji := ReactRequest.Emoji req |};
     Message.RecipientType := "";
     Message.Text := None; Message.Location := None;
     Message.Contacts := None |}.

(** React sends a reaction to a message. *)
Definition React (ctx : Context) (client : http.Client)
                 (params : RequestParams.t) (req : ReactRequest.t)
  : Exec (result Response.t) :=
  let reaction := React_envelope req in
  match json_Marshal_Message reaction with
  | Err err => Exec.ret (Err err)
  | Ok payload => Send ctx client params (Some payload)
  end.

Definition SendContact (ctx : Context) (client : http.Client)
                       (params : RequestParams.t) (req : SendContactRequest.t)
  : Exec (result Response.t) :=
  let contact :=
    {| Message.Product := "whatsapp";
       Message.To := SendContactRequest.Recipient req;
       Message.RecipientType := "individual";
       Message.Type_ := "contact";
       Message.Contacts := SendContactRequest.Contacts req;
       Message.Text := None; Message.Location := None;
       Message.Reaction := None |} in
  match json_Marshal_Message contact with
  | Err err => Exec.ret (Err err)
  | Ok payload => Send ctx client params (Some payload)
  end.

(** ** Reply Builder *)

(** buildReplyPayload builds the payload for a reply. *)
Definition buildReplyPayload (options : ReplyParams.t) : result string :=
  match json_Marshal_any (ReplyParams.Content options) with
  | Err err => Err err
  | Ok contentByte =>
      Ok (Q "{'messaging_product':'whatsapp','context':{'message_id':'"
          +:+ ReplyParams.Context options
          +:+ Q "'},'to':'"
          +:+ ReplyParams.Recipient options
          +:+ Q "','type':'"
          +:+ ReplyParams.MessageType_ options
          +:+ Q "','"
          +:+ ReplyParams.MessageType_ options
          +:+ Q "':"
          +:+ contentByte
          +:+ "}")
  end.

(** Reply is used to reply to a message; [options] is [None] for a nil
    pointer. *)
Definition Reply (ctx : Context) (client : http.Client)
                 (params : RequestParams.t) (options : option ReplyParams.t)
  : Exec (result Response.t) :=
  match options with
  | None => Exec.ret (Err (errorf "options cannot be nil" []))
  | Some options =>
      match buildReplyPayload options with
      | Err err => Exec.ret (Err err)
      | Ok payload => Send ctx client params (Some payload)
      end
  end.

End Dispatcher.

(** ** Decoders of the two response structures *)

Module Decode.

(** The member a decoder stores into the field named [name]: keys match
    without regard to (ASCII) case, the last matching member wins. *)
Fixpoint member (name : string) (l : list (string * json)) : option json :=
  match l with
  | [] => None
  | (k, v) :: rest =>
      match member name rest with
      | Some v' => Some v'
      | None => if String.eqb (Str.to_lower k) (Str.to_lower name)
                then Some v else None
      end
  end.

Definition kind (v : json) : string :=
  match v with
  | JNull => "null" | JBool _ => "bool" | JNumber _ => "number"
  | JString _ => "string" | JArray _ => "array" | JObject _ => "object"
  end.

Fixpoint decimal (s : string) (acc : Z) : option Z :=
  match s with
  | EmptyString => Some acc
  | String c s' =>
      if Bytes.is_digit c
      then decimal s' (acc * 10 + Z.of_nat (Bytes.code c - 48))%Z
      else None
  end.

(** A number literal stored into an [int]. *)
Definition int (field : string) (v : option json) : result Z :=
  match v with
  | None | Some JNull => Ok 0%Z
  | Some (JNumber lit) =>
      let n := match lit with
               | String "-"%char digits => option_map Z.opp (decimal digits 0)
               | _ => decimal lit 0
               end in
      match n with
      | Some z =>
          if ((- 2 ^ 63 <=? z) && (z <? 2 ^ 63))%Z then Ok z
          else Err (json_UnmarshalTypeError ("number " +:+ lit) field)
      | None => Err (json_UnmarshalTypeError ("number " +:+ lit) field)
      end
  | Some other => Err (json_UnmarshalTypeError (kind other) field)
  end.

Definition str (field : string) (v : option json) : result string :=
  match v with
  | None | Some JNull => Ok ""
  | Some (JString s) => Ok s
  | Some other => Err (json_UnmarshalTypeError (kind other) field)
  end.

(** A structure: [fill] reads the members of an object; [null] leaves
    the zero value. *)
Definition struct {A} (field : string) (zero : A)
                  (fill : list (string * json) -> result A) (v : json) : result A :=
  match v with
  | JNull => Ok zero
  | JObject ms => fill ms
  | other => Err (json_UnmarshalTypeError (kind other) field)
  end.

Fixpoint each {A} (f : json -> result A) (l : list json) : result (list A) :=
  match l with
  | [] => Ok []
  | x :: rest =>
      let? a := f x in
      let? r := each f rest in
      Ok (a :: r)
  end.

Definition slice {A} (field : string) (f : json -> result A) (v : option json)
  : result (list A) :=
  match v with
  | None | Some JNull => Ok []
  | Some (JArray l) => each f l
  | Some other => Err (json_UnmarshalTypeError (kind other) field)
  end.

End Decode.

(** Modelled from the spec: [ErrorResponse] decodes an object; its [code]
    member is stored in [Code], the object itself is kept in [Fields]. *)
#[global] Instance ErrorResponse_FromJSON : FromJSON ErrorResponse :=
  fun v =>
    Decode.struct "ErrorResponse" {| Code := 0; Fields := JNull |}
      (fun ms =>
         let? code := Decode.int "ErrorResponse.code" (Decode.member "code" ms) in
         Ok {| Code := code; Fields := v |}) v.

Definition Contact_from_json (v : json) : result ResponseMessage.Contact :=
  Decode.struct "ResponseMessage.contacts"
    {| ResponseMessage.Input := ""; ResponseMessage.WhatsappId := "" |}
    (fun ms =>
       let? input := Decode.str "input" (Decode.member "input" ms) in
       let? wa_id := Decode.str "wa_id" (Decode.member "wa_id" ms) in
       Ok {| ResponseMessage.Input := input; ResponseMessage.WhatsappId := wa_id |}) v.

Definition MessageID_from_json (v : json) : result ResponseMessage.MessageID :=
  Decode.struct "ResponseMessage.messages" {| ResponseMessage.ID := "" |}
    (fun ms =>
       let? id := Decode.str "id" (Decode.member "id" ms) in
       Ok {| ResponseMessage.ID := id |}) v.

(** Modelled from the spec: [ResponseMessage] decodes the success body
    shown in the comment of [React]. *)
#[global] Instance ResponseMessage_FromJSON : FromJSON ResponseMessage.t :=
  Decode.struct "ResponseMessage"
    {| ResponseMessage.Product := ""; ResponseMessage.Contacts := [];
       ResponseMessage.Messages := [] |}
    (fun ms =>
       let? product := Decode.str "messaging_product"
                                  (Decode.member "messaging_product" ms) in
       let? contacts := Decode.slice "contacts" Contact_from_json
                                     (Decode.member "contacts" ms) in
       let? messages := Decode.slice "messages" MessageID_from_json
                                     (Decode.member "messages" ms) in
       Ok {| ResponseMessage.Product := product;
             ResponseMessage.Contacts := contacts;
             ResponseMessage.Messages := messages |}).

(** ** Notions used in the properties *)



(** The loop [for key, value := range params.Headers] on a header map. *)
Definition range_Header_Set (entries : list (string * string)) (h : http.Header)
  : http.Header :=
  fold_left (fun h kv => http.Header_Set h (fst kv) (snd kv)) entries h.

(** The number of times the body stream is closed in a trace. *)
Definition is_Close (e : event) : bool :=
  match e with ev_Close => true | _ => false end.

Definition closes (t : list event) : nat := List.length (List.filter is_Close t).

Section Classify.

Context `{FromJSON ErrorResponse} `{FromJSON ResponseMessage.t}.

(** The value [Send] returns once the body of the response has been
    read: the two branches on the status code. *)
Definition classify (resp : http.Response) (read : result string)
  : result Response.t :=
  match read with
  | Err err => Err err
  | Ok bodybytes =>
      if negb (http.StatusCode resp =? http.StatusOK)%Z then
        match json_Unmarshal (T := ErrorResponse) bodybytes with
        | Err err => Err err
        | Ok e => Err (ErrorResponse_error (with_Code e (http.StatusCode resp)))
        end
      else
        match json_Decoder_Decode (T := ResponseMessage.t) bodybytes with
        | Err err => Err err
        | Ok message =>
            Ok {| Response.StatusCode := http.StatusCode resp;
                  Response.Headers := http.RespHeader resp;
                  Response.Message := message |}
        end
  end.

End Classify.

(** ** Example inputs *)

Module Example.

Definition ctx : Context := ctx_of "background".

(** The parameters of a call, by what varies in the examples. *)
Definition make (api sender endpoint : string)
                (headers : list (string * string)) (bearer : string)
  : RequestParams.t :=
  {| RequestParams.BaseURL := "https://graph.facebook.com";
     RequestParams.ApiVersion := api;
     RequestParams.SenderID := sender;
     RequestParams.Endpoint := endpoint;
     RequestParams.Method := "POST";
     RequestParams.Headers := headers;
     RequestParams.Query := [];
     RequestParams.Bearer := bearer |}.

Definition with_segments (api sender endpoint : string) : RequestParams.t :=
  make api sender endpoint [("Content-Type", "application/json")] "ACCESS_TOKEN".

Definition with_auth (headers : list (string * string)) (bearer : string)
  : RequestParams.t :=
  make "v15.0" "1234567890" "messages" headers bearer.

Definition params : RequestParams.t :=
  with_segments "v15.0" "1234567890" "messages".


(** What [url.Parse] makes of the base URL. *)
Definition base : url.URL :=
  {| url.Scheme := "https"; url.Opaque := ""; url.User := None;
     url.Host := "graph.facebook.com"; url.Path := ""; url.RawPath := "";
     url.OmitHost := false; url.ForceQuery := false; url.RawQuery := "";
     url.Fragment := ""; url.RawFragment := "" |}.

(** The caller supplies an [Authorization] header and a bearer token. *)
Definition both : RequestParams.t :=
  with_auth [("Authorization", "Basic dXNlcjpwYXNz");
             ("Content-Type", "application/json")] "ACCESS_TOKEN".

(** No bearer token, and two keys of the map that name the same header. *)
Definition two_spellings : RequestParams.t :=
  with_auth [("Authorization", "Basic dXNlcjpwYXNz");
             ("authorization", "Basic b3RoZXI6b25l")] "".

(** No bearer token, one [Authorization] entry. *)
Definition header_only : RequestParams.t :=
  with_auth [("Accept", "application/json");
             ("Authorization", "Basic dXNlcjpwYXNz");
             ("Content-Type", "application/json")] "".

(** The request built for parameters, without a payload. *)
Definition request_of (p : RequestParams.t) : http.Request :=
  match NewRequestWithContext ctx p None with
  | Ok req => req
  | Err _ =>
      {| http.ctx := ctx; http.Method := ""; http.URL := url.empty;
         http.Header_ := ∅; http.Body := http.body_nil;
         http.ContentLength := 0; http.Host := "" |}
  end.

Definition request : http.Request := request_of params.


(** A client whose transport answers every request with [resp]. *)
Definition answering (resp : http.Response) : http.Client :=
  {| http.Do := fun _ => Ok resp |}.

Definition body_of (text : string) : option http.ReadCloser :=
  Some {| http.content := Ok text |}.

Definition response (status : Z) (body : option http.ReadCloser) : http.Response :=
  {| http.StatusCode := status; http.RespHeader := ∅; http.RespBody := body |}.

Definition success_body : string :=
  Q "{'messaging_product':'whatsapp','contacts':[{'input':'15550001111','wa_id':'15550001111'}],'messages':[{'id':'wamid.ID'}]}".

Definition success_decoded : ResponseMessage.t :=
  {| ResponseMessage.Product := "whatsapp";
     ResponseMessage.Contacts :=
       [{| ResponseMessage.Input := "15550001111";
           ResponseMessage.WhatsappId := "15550001111" |}];
     ResponseMessage.Messages := [{| ResponseMessage.ID := "wamid.ID" |}] |}.

(** An error body whose own code, 190, is not the status of the
    response. *)
Definition error_body : string :=
  Q "{'code':190,'error':{'message':'Invalid OAuth access token','type':'OAuthException','code':190}}".

Definition error_decoded : ErrorResponse :=
  {| Code := 190;
     Fields :=
       JObject
         [("code", JNumber "190");
          ("error",
           JObject [("message", JString "Invalid OAuth access token");
                    ("type", JString "OAuthException");
                    ("code", JNumber "190")])] |}.

(** The reaction of the spec: recipient 123, message wamid.ABC and the
    emoji U+1F600, the four bytes F0 9F 98 80. *)
Definition grinning : string :=
  String (ascii_of_nat 240) (String (ascii_of_nat 159)
    (String (ascii_of_nat 152) (String (ascii_of_nat 128) ""))).

Definition reaction : ReactRequest.t :=
  {| ReactRequest.Recipient := "123";
     ReactRequest.MessageID := "wamid.ABC";
     ReactRequest.Emoji := grinning |}.

Definition reaction_payload : string :=
  Q "{'messaging_product':'whatsapp','to':'123','type':'reaction','reaction':{'message_id':'wamid.ABC','emoji':'"
  +:+ grinning +:+ Q "'}}".

(** A recipient with a double quote in it, in a reply and in the envelope
    of [SendText]. *)
Definition quoted : string := Q "12'34".

Definition reply_to (recipient : string) : ReplyParams.t :=
  {| ReplyParams.Recipient := recipient;
     ReplyParams.Context := "wamid.ABC";
     ReplyParams.MessageType_ := "text";
     ReplyParams.Content := any_Text {| models.PreviewUrl := false;
                                        models.Body := "hi" |} |}.

Definition reply : ReplyParams.t := reply_to quoted.

Definition reply_payload : string :=
  Q "{'messaging_product':'whatsapp','context':{'message_id':'wamid.ABC'},'to':'12'34','type':'text','text':{'preview_url':false,'body':'hi'}}".

Definition text : Message.t :=
  {| Message.Product := "whatsapp"; Message.To := quoted;
     Message.RecipientType := "individual"; Message.Type_ := "text";
     Message.Text := Some {| models.PreviewUrl := false; models.Body := "hi" |};
     Message.Location := None; Message.Reaction := None;
     Message.Contacts := None |}.

(** A recipient that closes its string and adds a member. *)
Definition injecting : ReplyParams.t := reply_to (Q "123','to':'456").

(** Responses that take [Send] through its other paths. *)
Definition unreadable : http.Response :=
  response 200 (Some {| http.content := Err (foreign_error "unexpected EOF") |}).
Definition blank : http.Response := response 200 (body_of " ").
Definition bad_gateway : http.Response := response 502 (body_of "Bad Gateway").

(** Parameters with a method that is not a token, with headers written
    in lower case, and with a query. *)
Definition bad_method : RequestParams.t :=
  {| RequestParams.BaseURL := "https://graph.facebook.com";
     RequestParams.ApiVersion := "v15.0";
     RequestParams.SenderID := "1234567890";
     RequestParams.Endpoint := "messages";
     RequestParams.Method := "PO ST";
     RequestParams.Headers := [];
     RequestParams.Query := [];
     RequestParams.Bearer := "" |}.

Definition lower_case : RequestParams.t :=
  with_auth [("content-type", "application/json"); ("x-request-id", "42")]
            "ACCESS_TOKEN".

Definition with_query : RequestParams.t :=
  {| RequestParams.BaseURL := "https://graph.facebook.com?debug=all";
     RequestParams.ApiVersion := "v15.0";
     RequestParams.SenderID := "1234567890";
     RequestParams.Endpoint := "messages";
     RequestParams.Method := "GET";
     RequestParams.Headers := [("Accept", "application/json");
                               ("Content-Type", "application/json")];
     RequestParams.Query := [("fields", "id,name"); ("limit", "10")];
     RequestParams.Bearer := "ACCESS_TOKEN" |}.

(** A value map with a key and a value that need escaping. *)
Definition values : url.Values :=
  <["a" := ["1"; "2"]]> (<["b c" := ["x&y=z"]]> ∅).

(** A reply with plain identifiers, and one whose content does not
    marshal. *)
Definition plain_reply : ReplyParams.t := reply_to "15550001111".

Definition unsupported_reply : ReplyParams.t :=
  {| ReplyParams.Recipient := "15550001111";
     ReplyParams.Context := "wamid.ABC";
     ReplyParams.MessageType_ := "text";
     ReplyParams.Content := any_unsupported "chan int" |}.


Definition malformed_escape : RequestParams.t :=
  make "v15.0" "1234567890" "100%/messages"
       [("Content-Type", "application/json")] "ACCESS_TOKEN".

(** A location and a contact list as they marshal, and a success body
    followed by text that is not JSON. *)
Definition dar_es_salaam : models.Location :=
  JObject [("longitude", JNumber "39.2083"); ("latitude", JNumber "-6.7924");
           ("name", JString "Dar es Salaam"); ("address", JString "Posta")].

Definition location : SendLocationRequest.t :=
  {| SendLocationRequest.Recipient := "15550001111";
     SendLocationRequest.Location := Some dar_es_salaam |}.

Definition jane : models.Contacts :=
  JArray [JObject [("name", JObject [("formatted_name", JString "Jane Doe")]);
                   ("phones", JArray [JObject [("phone", JString "+255 755 000 111");
                                               ("type", JString "CELL")]])]].

Definition contact : SendContactRequest.t :=
  {| SendContactRequest.Recipient := "15550001111";
     SendContactRequest.Contacts := Some jane |}.

Definition accepted : list (string * json) :=
  [("messaging_product", JString "whatsapp");
   ("messages", JArray [JObject [("id", JString "wamid.ID")]])].

Definition accepted_decoded : ResponseMessage.t :=
  {| ResponseMessage.Product := "whatsapp";
     ResponseMessage.Contacts := [];
     ResponseMessage.Messages := [{| ResponseMessage.ID := "wamid.ID" |}] |}.

Definition trailing (status : Z) : http.Response :=
  response status (body_of (Json.render (JObject accepted) +:+ " -- served by edge-7")).

(** Inputs and results of [path.Clean], [url.JoinPath] and
    [http.CanonicalMIMEHeaderKey] as the Go library documents them. *)
Definition cleaned : list (string * string) :=
  [("", "."); ("abc", "abc"); ("abc/def", "abc/def"); (".", "."); ("..", "..");
   ("../..", "../.."); ("../../abc", "../../abc"); ("/abc", "/abc"); ("/", "/");
   ("abc/", "abc"); ("abc/def/", "abc/def"); ("./", "."); ("../", "..");
   ("/abc/", "/abc"); ("abc//def//ghi", "abc/def/ghi"); ("//abc", "/abc");
   ("///abc", "/abc"); ("//abc//", "/abc"); ("abc//", "abc");
   ("abc/./def", "abc/def"); ("/./abc/def", "/abc/def"); ("abc/.", "abc");
   ("abc/def/ghi/../jkl", "abc/def/jkl"); ("abc/def/../ghi/../jkl", "abc/jkl");
   ("abc/def/..", "abc"); ("abc/def/../..", "."); ("/abc/def/../..", "/");
   ("abc/def/../../..", ".."); ("/abc/def/../../..", "/");
   ("abc/def/../../../ghi/jkl/../../../mno", "../../mno");
   ("abc/./../def", "def"); ("abc//./../def", "def");
   ("abc/../../././../def", "../../def")].

Definition joined_urls : list (string * list string * string) :=
  [("https://go.googlesource.com", ["go"], "https://go.googlesource.com/go");
   ("https://go.googlesource.com/a/b/c", ["../../../go"],
    "https://go.googlesource.com/go");
   ("https://go.googlesource.com/", ["./go"], "https://go.googlesource.com/go");
   ("https://go.googlesource.com//", ["/go"; "a"; "b"; "c"],
    "https://go.googlesource.com/go/a/b/c");
   ("https://go.googlesource.com", ["google.com/go"],
    "https://go.googlesource.com/google.com/go");
   ("https://go.googlesource.com/a%2fb", ["c%2fd"],
    "https://go.googlesource.com/a%2fb/c%2fd");
   ("https://graph.facebook.com/", ["v15.0"; "1234567890"; "messages"],
    "https://graph.facebook.com/v15.0/1234567890/messages");
   ("https://graph.facebook.com", ["/v15.0/"; "//1234567890"; "messages"],
    "https://graph.facebook.com/v15.0/1234567890/messages");
   ("https://graph.facebook.com", ["v15.0"; "1234567890"; "messages/"],
    "https://graph.facebook.com/v15.0/1234567890/messages/")].

Definition canonical_keys : list (string * string) :=
  [("content-type", "Content-Type"); ("AUTHORIZATION", "Authorization");
   ("authorization", "Authorization"); ("x-forwarded-for", "X-Forwarded-For");
   ("uSER-aGENT", "User-Agent"); ("foo bar", "foo bar"); ("a-b-c", "A-B-C")].

Definition marshalled_strings : list (string * string) :=
  [("hi", Q "'hi'"); (Q "a'b", Q "'a\'b'"); ("a\b", Q "'a\\b'");
   ("<b>&", Q "'\u003cb\u003e\u0026'");
   (String (ascii_of_nat 10) "", Q "'\n'");
   (String (ascii_of_nat 1) "", Q "'\u0001'");
   (String (ascii_of_nat 255) "x", Q "'\ufffdx'")].

End Example.

(** ** Notions used in the further properties *)

(** The number of requests handed to the transport in a trace. *)
Definition is_Do (e : event) : bool :=
  match e with ev_Do _ => true | _ => false end.

Definition exchanges (t : list event) : nat := List.length (List.filter is_Do t).

(** Bytes a JSON reader takes as they are inside a string literal: not
    the quote, not the backslash, no control byte. *)
Definition literal_byte (c : ascii) : bool :=
  negb (Bytes.eqb c Bytes.dquote) && negb (Bytes.eqb c Bytes.backslash)
  && negb (Bytes.code c <? 32).

Definition literal_text (s : string) : bool := Str.forallb literal_byte s.

(** A string written between quotes without escaping, and the text after
    it. *)
Definition raw_literal (s tail : string) : string :=
  String Bytes.dquote (s +:+ String Bytes.dquote tail).

(** A member of an object written the same way: the key, a colon, and
    the text from the value on. *)
Definition raw_member (key value_on : string) : string :=
  raw_literal key (String ":" value_on).

(** The text of a reply, member by member: up to the value of [to], and
    after the recipient. *)
Definition reply_head (context to_value_on : string) : string :=
  let context_object :=
    String "{" (raw_member "message_id"
                  (raw_literal context
                     (String "}" (String "," (raw_member "to" to_value_on))))) in
  String "{" (raw_member "messaging_product"
                (raw_literal "whatsapp"
                   (String "," (raw_member "context" context_object)))).

Definition reply_tail (type_ content : string) : string :=
  String "," (raw_member "type"
                (raw_literal type_
                   (String "," (raw_member type_ (content +:+ "}"))))).

(** The object a reply is meant to be: the context, the recipient, the
    declared type and the content under a member named by the type. *)
Definition reply_envelope (context recipient type_ : string) (content : json)
  : json :=
  JObject [("messaging_product", JString "whatsapp");
           ("context", JObject [("message_id", JString context)]);
           ("to", JString recipient);
           ("type", JString type_);
           (type_, content)].

(** The bytes that structure a query string. *)
Definition separator (c : ascii) : Prop :=
  c = "&"%char \/ c = "="%char \/ c = ";"%char.

(** A value map in which every key has at least one value, as
    [Values.Add] and [parseQuery] leave them. *)
Definition populated (v : url.Values) : Prop :=
  forall k l, v !! k = Some l -> l <> [].

(** The pairs of a value map in the order [Values.Encode] writes them,
    and the loop that adds pairs to a map. *)
Definition encoded_pairs (v : url.Values) : list (string * string) :=
  flat_map (fun k => map (pair k) (default [] (v !! k))) (url.sorted_keys v).

Definition range_Values_Add (entries : list (string * string)) (q : url.Values)
  : url.Values :=
  fold_left (fun q kv => url.Values_Add q (fst kv) (snd kv)) entries q.




(** A number literal that is a JSON number, and the values all of whose
    number literals are: what [json.Marshal] can have written. *)
Definition number_literal (lit : string) : bool :=
  match Json.number lit with
  | Json.Parsed text EmptyString => String.eqb text lit
  | _ => false
  end.

Fixpoint marshalled (v : json) : bool :=
  match v with
  | JNumber lit => number_literal lit
  | JArray elems => forallb marshalled elems
  | JObject members => forallb (fun '(_, x) => marshalled x) members
  | _ => true
  end.

(** Text that may follow a value: nothing, or a comma or a closing
    bracket first. *)
Definition ends_value (tail : string) : bool :=
  match tail with
  | EmptyString => true
  | String c _ => Bytes.eqb c "," || Bytes.eqb c "]" || Bytes.eqb c "}"
  end.

(** With enough fuel the reader gets a marshalled value back, before
    such text. *)
Definition reads_back_before (v : json) : Prop :=
  forall fuel tail,
    ends_value tail = true ->
    Json.need v <= fuel ->
    Json.value fuel (Json.render v +:+ tail) = Json.Parsed (Json.as_read_json v) tail.

(** A run that extends the trace [t] by at most one exchange. *)
Definition at_most_one_exchange {A} (t : list event)
                                (run : outcome A * list event) : Prop :=
  exists more, snd run = t ++ more /\ exchanges more <= 1.

(** * Properties *)

(** ** The library models on documented cases *)

Module Checks.

Import Example.

Lemma Clean_cases :
  forallb (fun '(p, cleaned) => String.eqb (path.Clean p) cleaned) cleaned = true.
Proof. vm_compute. reflexivity. Qed.

Lemma Join_cases :
  path.Join ["a"; "b"] = "a/b" /\ path.Join ["a"; ""] = "a"
  /\ path.Join [""; "b"] = "b" /\ path.Join ["/"; "a"] = "/a"
  /\ path.Join ["a/"; "b"] = "a/b" /\ path.Join [""; ""] = ""
  /\ path.Join [] = "".
Proof. repeat split; vm_compute; reflexivity. Qed.

Lemma JoinPath_cases :
  Forall (fun '(base, elem, joined) => url.JoinPath base elem = Ok joined)
         joined_urls.
Proof. repeat constructor. Qed.

Lemma JoinPath_rejects_host :
  is_Ok (url.JoinPath "http://[fe80::1%en0]:8080/" ["/go"]) = false.
Proof. vm_compute. reflexivity. Qed.

Lemma CanonicalMIMEHeaderKey_cases :
  forallb (fun '(key, canonical) =>
             String.eqb (http.CanonicalMIMEHeaderKey key) canonical)
          canonical_keys = true.
Proof. vm_compute. reflexivity. Qed.

Lemma encode_string_cases :
  forallb (fun '(s, text) => String.eqb (Json.encode_string s) text)
          marshalled_strings = true.
Proof. vm_compute. reflexivity. Qed.

End Checks.

(** ** Appending strings *)

Module StrFacts.

Lemma append_nil (b : string) : "" +:+ b = b.
Proof. reflexivity. Qed.

Lemma append_cons c (a b : string) : String c a +:+ b = String c (a +:+ b).
Proof. reflexivity. Qed.

Lemma append_assoc (a b c : string) : (a +:+ b) +:+ c = a +:+ (b +:+ c).
Proof.
  induction a as [| x a IH]; [reflexivity |].
  rewrite !append_cons. f_equal. exact IH.
Qed.

Lemma append_empty_r (a : string) : a +:+ "" = a.
Proof.
  induction a as [| x a IH]; [reflexivity |].
  rewrite append_cons. f_equal. exact IH.
Qed.

Lemma append_length (a b : string) :
  String.length (a +:+ b) = String.length a + String.length b.
Proof.
  induction a as [| x a IH]; [reflexivity |].
  rewrite append_cons. cbn [String.length]. now rewrite IH.
Qed.

End StrFacts.

(** ** The JSON reader always answers *)

Module JsonFacts.

Import Json.

Lemma fine_syntax {A} msg s : fine (@SyntaxError A msg) s.
Proof. split; [discriminate | intros a rest [=]]. Qed.

Lemma fine_parsed {A} (a : A) rest s :
  String.length rest < String.length s -> fine (Parsed a rest) s.
Proof. intros Hlt. split; [discriminate | now intros a' rest' [= _ <-]]. Qed.

Lemma fine_weaken {A} (r : parsed A) s s' :
  fine r s' -> String.length s' <= String.length s -> fine r s.
Proof.
  intros [Hfuel Hrest] Hle. split; [exact Hfuel |].
  intros a rest Hr. specialize (Hrest a rest Hr). lia.
Qed.

Lemma fine_map {A B} (r : parsed A) (f : A -> B) s :
  fine r s -> fine (map_parsed f r) s.
Proof.
  intros [Hfuel Hrest]. destruct r as [a rest | m |]; [| apply fine_syntax | contradiction].
  apply fine_parsed, (Hrest a rest eq_refl).
Qed.

Lemma skip_space_length s : String.length (skip_space s) <= String.length s.
Proof.
  induction s as [| c s IH]; cbn [skip_space]; [lia |].
  destruct (is_space c); cbn [String.length] in *; lia.
Qed.

Lemma skip_space_cons s c s' :
  skip_space s = String c s' -> String.length s' < String.length s.
Proof.
  intros Hs. pose proof (skip_space_length s) as Hle.
  rewrite Hs in Hle. cbn [String.length] in Hle. lia.
Qed.

Lemma split_at_length n s a b :
  split_at n s = (a, b) -> String.length a + String.length b = String.length s.
Proof.
  revert s a b. induction n as [| n IH]; intros s a b; cbn [split_at].
  - intros [= <- <-]. reflexivity.
  - destruct s as [| c s]; [intros [= <- <-]; reflexivity |].
    destruct (split_at n s) as [a' b'] eqn:Hsplit. intros [= <- <-].
    specialize (IH s a' b' Hsplit). cbn [String.length]. lia.
Qed.

Lemma hex4_length s r rest :
  hex4 s = Some (r, rest) -> String.length s = String.length rest + 4.
Proof.
  unfold hex4. destruct s as [| a [| b [| c [| d s]]]]; try discriminate.
  destruct (_ && _); [| discriminate]. intros [= _ <-]. cbn [String.length]. lia.
Qed.

Lemma escaped_hex4_length s r rest :
  escaped_hex4 s = Some (r, rest) -> String.length s = String.length rest + 6.
Proof.
  unfold escaped_hex4. destruct s as [| b [| u s]]; try discriminate.
  destruct (_ && _); [| discriminate]. intros Hhex%hex4_length.
  cbn [String.length]. lia.
Qed.

(** A string literal is read with fuel above its length. *)
Lemma unquote_fine fuel s :
  String.length s < fuel -> fine (unquote fuel s) s.
Proof.
  revert s. induction fuel as [| fuel IH]; intros s Hfuel; [lia |].
  assert (Hnext : forall pre rest,
             String.length rest < String.length s ->
             fine (map_parsed (String.append pre) (unquote fuel rest)) s).
  { intros pre rest Hlt. apply fine_map, (fine_weaken _ s rest); [| lia].
    apply IH. lia. }
  cbn [unquote]. destruct s as [| c s']; [apply fine_syntax |].
  cbn [String.length] in *.
  destruct (Bytes.eqb c Bytes.dquote); [apply fine_parsed; cbn; lia |].
  destruct (Bytes.eqb c Bytes.backslash).
  - destruct s' as [| e s'']; [apply fine_syntax |]. cbn [String.length] in *.
    destruct (Bytes.eqb e "u").
    + destruct (hex4 s'') as [[r s3] |] eqn:Hhex; [| apply fine_syntax].
      apply hex4_length in Hhex.
      destruct (is_surrogate r); [| apply Hnext; lia].
      destruct (escaped_hex4 s3) as [[r2 s5] |] eqn:Hhex2; [| apply Hnext; lia].
      apply escaped_hex4_length in Hhex2.
      destruct (decode_surrogates r r2); apply Hnext; lia.
    + destruct (simple_escape e); [apply Hnext; lia | apply fine_syntax].
  - destruct (Bytes.code c <? 32); [apply fine_syntax |].
    destruct (Bytes.code c <? 128); [apply Hnext; lia |].
    destruct (utf8.size c s') as [n |]; [| apply Hnext; lia].
    destruct (split_at (n - 1) s') as [chunk rest] eqn:Hsplit.
    apply split_at_length in Hsplit. apply Hnext. lia.
Qed.

Lemma digits_length s d r :
  digits s = (d, r) -> String.length r <= String.length s.
Proof.
  revert d r. induction s as [| c s IH]; intros d r; cbn [digits].
  - intros [= <- <-]. reflexivity.
  - destruct (Bytes.is_digit c); [| intros [= <- <-]; reflexivity].
    destruct (digits s) as [d' r'] eqn:Hd. intros [= <- <-].
    specialize (IH d' r' eq_refl). cbn [String.length]. lia.
Qed.

Lemma sign_length s sg s1 :
  sign s = (sg, s1) -> String.length s1 <= String.length s.
Proof.
  unfold sign. destruct s as [| c s']; [intros [= <- <-]; reflexivity |].
  destruct (Bytes.eqb c "-"); intros [= <- <-]; cbn [String.length]; lia.
Qed.

Lemma int_part_fine s : fine (int_part s) s.
Proof.
  unfold int_part. destruct s as [| c s']; [apply fine_syntax |].
  destruct (Bytes.eqb c "0"); [apply fine_parsed; cbn; lia |].
  destruct (Bytes.is_digit c); [| apply fine_syntax].
  destruct (digits s') as [d r] eqn:Hd. apply digits_length in Hd.
  apply fine_parsed. cbn [String.length]. lia.
Qed.

Lemma frac_part_fine s : fine_or_same (frac_part s) s.
Proof.
  unfold frac_part. split.
  - destruct s as [| c s']; [discriminate |].
    destruct (Bytes.eqb c "."); [| discriminate].
    destruct (digits s') as [[| x d] r]; discriminate.
  - intros a rest. destruct s as [| c s']; [now intros [= _ <-] |].
    destruct (Bytes.eqb c "."); [| now intros [= _ <-]].
    destruct (digits s') as [[| x d] r] eqn:Hd; [discriminate |].
    apply digits_length in Hd. intros [= _ <-]. cbn [String.length]. lia.
Qed.

Lemma exp_part_fine s : fine_or_same (exp_part s) s.
Proof.
  unfold exp_part.
  destruct s as [| c s']; [split; [discriminate | now intros a rest [= _ <-]] |].
  destruct (_ || _); [| split; [discriminate | now intros a rest [= _ <-]]].
  assert (Hsign : forall esign s'',
             match s' with
             | String d t =>
                 if Bytes.eqb d "+" || Bytes.eqb d "-"
                 then (Str.of_byte d, t) else ("", s')
             | EmptyString => ("", s')
             end = (esign, s'') ->
             String.length s'' <= String.length s').
  { intros esign s''. destruct s' as [| d t]; [now intros [= _ <-] |].
    destruct (_ || _); intros [= _ <-]; cbn [String.length]; lia. }
  destruct (match s' with EmptyString => _ | String d t => _ end)
    as [esign s''].
  specialize (Hsign esign s'' eq_refl).
  destruct (digits s'') as [[| x d] r] eqn:Hd;
    [split; [discriminate | intros a rest [=]] |].
  apply digits_length in Hd.
  split; [discriminate |]. intros a rest [= _ <-]. cbn [String.length]. lia.
Qed.

Lemma number_fine s : fine (number s) s.
Proof.
  unfold number. destruct (sign s) as [sg s1] eqn:Hsign. apply sign_length in Hsign.
  destruct (int_part_fine s1) as [Hi1 Hi2].
  destruct (int_part s1) as [i s2 | m |]; [| apply fine_syntax | contradiction].
  specialize (Hi2 i s2 eq_refl).
  destruct (frac_part_fine s2) as [Hf1 Hf2].
  destruct (frac_part s2) as [f s3 | m |]; [| apply fine_syntax | contradiction].
  specialize (Hf2 f s3 eq_refl).
  destruct (exp_part_fine s3) as [He1 He2].
  destruct (exp_part s3) as [e s4 | m |]; [| apply fine_syntax | contradiction].
  specialize (He2 e s4 eq_refl).
  apply fine_parsed. lia.
Qed.

Lemma literal_fine word v s :
  0 < String.length word -> fine (literal word v s) s.
Proof.
  intros Hword. unfold literal.
  destruct (split_at (String.length word) s) as [w rest] eqn:Hsplit.
  apply split_at_length in Hsplit.
  destruct (String.eqb_spec w word) as [-> | _]; [| apply fine_syntax].
  apply fine_parsed. lia.
Qed.

(** The three readers answer with fuel above twice the length of the
    input. *)
Lemma readers_fine fuel :
  (forall s, 2 * String.length s + 2 <= fuel -> fine (value fuel s) s)
  /\ (forall s, 2 * String.length s + 3 <= fuel -> fine (elements fuel s) s)
  /\ (forall s, 2 * String.length s + 3 <= fuel -> fine (members fuel s) s).
Proof.
  induction fuel as [| fuel (IHvalue & IHelements & IHmembers)];
    [repeat split; intros; lia |].
  split; [| split]; intros s Hfuel.
  - (* value *)
    cbn [value].
    destruct (skip_space s) as [| c s'] eqn:Hs; [apply fine_syntax |].
    apply skip_space_cons in Hs.
    destruct (Bytes.eqb c Bytes.dquote).
    { apply fine_map, (fine_weaken _ s s'); [| lia]. apply unquote_fine. lia. }
    destruct (Bytes.eqb c "{").
    { destruct (skip_space s') as [| d s''] eqn:Hs'; [apply fine_syntax |].
      destruct (Bytes.eqb d "}").
      - apply skip_space_cons in Hs'. apply fine_parsed. lia.
      - rewrite <- Hs'. pose proof (skip_space_length s') as Hle.
        apply fine_map, (fine_weaken _ s (skip_space s')); [| lia].
        apply IHmembers. lia. }
    destruct (Bytes.eqb c "[").
    { destruct (skip_space s') as [| d s''] eqn:Hs'; [apply fine_syntax |].
      destruct (Bytes.eqb d "]").
      - apply skip_space_cons in Hs'. apply fine_parsed. lia.
      - apply fine_map, (fine_weaken _ s s'); [| lia].
        apply IHelements. lia. }
    destruct (Bytes.eqb c "t").
    { apply (fine_weaken _ s (String c s')); [| cbn [String.length]; lia].
      apply literal_fine. cbn. lia. }
    destruct (Bytes.eqb c "f").
    { apply (fine_weaken _ s (String c s')); [| cbn [String.length]; lia].
      apply literal_fine. cbn. lia. }
    destruct (Bytes.eqb c "n").
    { apply (fine_weaken _ s (String c s')); [| cbn [String.length]; lia].
      apply literal_fine. cbn. lia. }
    destruct (_ || _); [| apply fine_syntax].
    apply fine_map, (fine_weaken _ s (String c s')); [| cbn [String.length]; lia].
    apply number_fine.
  - (* elements *)
    cbn [elements].
    destruct (IHvalue s) as [Hv1 Hv2]; [lia |].
    destruct (value fuel s) as [v rest | m |]; [| apply fine_syntax | contradiction].
    specialize (Hv2 v rest eq_refl).
    destruct (skip_space rest) as [| c rest'] eqn:Hrest; [apply fine_syntax |].
    apply skip_space_cons in Hrest.
    destruct (Bytes.eqb c ",").
    { apply fine_map, (fine_weaken _ s rest'); [| lia]. apply IHelements. lia. }
    destruct (Bytes.eqb c "]"); [apply fine_parsed; lia | apply fine_syntax].
  - (* members *)
    cbn [members].
    destruct (skip_space s) as [| q s'] eqn:Hs; [apply fine_syntax |].
    apply skip_space_cons in Hs.
    destruct (Bytes.eqb q Bytes.dquote); [| apply fine_syntax].
    destruct (unquote_fine (S (String.length s')) s') as [Hk1 Hk2]; [lia |].
    destruct (unquote (S (String.length s')) s') as [k rest | m |];
      [| apply fine_syntax | contradiction].
    specialize (Hk2 k rest eq_refl).
    destruct (skip_space rest) as [| c rest'] eqn:Hrest; [apply fine_syntax |].
    apply skip_space_cons in Hrest.
    destruct (Bytes.eqb c ":"); [| apply fine_syntax].
    destruct (IHvalue rest') as [Hv1 Hv2]; [lia |].
    destruct (value fuel rest') as [v rest'' | m |];
      [| apply fine_syntax | contradiction].
    specialize (Hv2 v rest'' eq_refl).
    destruct (skip_space rest'') as [| d rest3] eqn:Hrest''; [apply fine_syntax |].
    apply skip_space_cons in Hrest''.
    destruct (Bytes.eqb d ",").
    { apply fine_map, (fine_weaken _ s rest3); [| lia]. apply IHmembers. lia. }
    destruct (Bytes.eqb d "}"); [apply fine_parsed; lia | apply fine_syntax].
Qed.

(** [parse_first] and [parse] never run out of fuel: the branch for it in
    [json_Unmarshal] and [json_Decoder_Decode] is never taken. *)
Lemma parse_first_answers s : parse_first s <> OutOfFuel.
Proof.
  unfold parse_first.
  destruct (readers_fine (2 * String.length s + 2)) as (Hvalue & _).
  now destruct (Hvalue s).
Qed.

Lemma parse_answers s : parse s <> OutOfFuel.
Proof.
  unfold parse. pose proof (parse_first_answers s) as Hfirst.
  destruct (parse_first s) as [v rest | m |]; [| discriminate | contradiction].
  destruct (skip_space rest); discriminate.
Qed.

Lemma map_parsed_fuel {A B} (f : A -> B) (r : parsed A) :
  map_parsed f r <> OutOfFuel -> r <> OutOfFuel.
Proof. now destruct r. Qed.

(** More fuel does not change an answer. *)
Lemma readers_stable fuel :
  (forall s more, fuel <= more -> value fuel s <> OutOfFuel ->
                  value more s = value fuel s)
  /\ (forall s more, fuel <= more -> elements fuel s <> OutOfFuel ->
                     elements more s = elements fuel s)
  /\ (forall s more, fuel <= more -> members fuel s <> OutOfFuel ->
                     members more s = members fuel s).
Proof.
  induction fuel as [| fuel (IHvalue & IHelements & IHmembers)];
    [repeat split; intros s more _ Hfuel; now contradiction Hfuel |].
  split; [| split]; intros s [| more] Hle; try lia; assert (fuel <= more) by lia.
  - (* value *)
    cbn [value]. destruct (skip_space s) as [| c s']; [reflexivity |].
    destruct (Bytes.eqb c Bytes.dquote); [reflexivity |].
    destruct (Bytes.eqb c "{").
    { destruct (skip_space s') as [| d s'']; [reflexivity |].
      destruct (Bytes.eqb d "}"); [reflexivity |].
      intros Hfuel%map_parsed_fuel. now rewrite IHmembers. }
    destruct (Bytes.eqb c "[").
    { destruct (skip_space s') as [| d s'']; [reflexivity |].
      destruct (Bytes.eqb d "]"); [reflexivity |].
      intros Hfuel%map_parsed_fuel. now rewrite IHelements. }
    reflexivity.
  - (* elements *)
    cbn [elements]. intros Hfuel.
    assert (Hvalue : value fuel s <> OutOfFuel)
      by (intros Hv; now rewrite Hv in Hfuel).
    rewrite (IHvalue s more) by assumption.
    destruct (value fuel s) as [v rest | m |]; [| reflexivity | contradiction].
    destruct (skip_space rest) as [| c rest']; [reflexivity |].
    destruct (Bytes.eqb c ","); [| reflexivity].
    apply map_parsed_fuel in Hfuel. now rewrite IHelements.
  - (* members *)
    cbn [members]. destruct (skip_space s) as [| q s']; [reflexivity |].
    destruct (Bytes.eqb q Bytes.dquote); [| reflexivity].
    destruct (unquote (S (String.length s')) s') as [k rest | m |];
      [| reflexivity | reflexivity].
    destruct (skip_space rest) as [| c rest']; [reflexivity |].
    destruct (Bytes.eqb c ":"); [| reflexivity].
    intros Hfuel.
    assert (Hvalue : value fuel rest' <> OutOfFuel)
      by (intros Hv; now rewrite Hv in Hfuel).
    rewrite (IHvalue rest' more) by assumption.
    destruct (value fuel rest') as [v rest'' | m |]; [| reflexivity | contradiction].
    destruct (skip_space rest'') as [| d rest3]; [reflexivity |].
    destruct (Bytes.eqb d ","); [| reflexivity].
    apply map_parsed_fuel in Hfuel. now rewrite IHmembers.
Qed.

(** What some fuel reads is what [parse_first] reads. *)
Lemma parse_first_with fuel s v rest :
  value fuel s = Parsed v rest -> parse_first s = Parsed v rest.
Proof.
  intros Hvalue. unfold parse_first.
  set (enough := 2 * String.length s + 2).
  destruct (readers_stable fuel) as (Hup & _).
  destruct (readers_stable enough) as (Hdown & _).
  destruct (Nat.le_ge_cases fuel enough) as [Hle | Hge].
  - rewrite (Hup s enough Hle); [exact Hvalue | now rewrite Hvalue].
  - rewrite <- (Hdown s fuel Hge); [exact Hvalue |].
    destruct (readers_fine enough) as (Hfine & _).
    apply (Hfine s). unfold enough. lia.
Qed.

End JsonFacts.

(** ** Strings survive marshalling *)

Module RoundTrip.

Import Json StrFacts.

(** One escape of [json.Marshal] is read back by one turn of [unquote]. *)
Lemma unquote_escape_ascii c fuel tail :
  (Bytes.code c <? 128) = true -> html_safe c = false ->
  unquote (S fuel) (escape_ascii c +:+ tail)
  = map_parsed (String.append (Str.of_byte c)) (unquote fuel tail).
Proof.
  destruct c as [b0 b1 b2 b3 b4 b5 b6 b7].
  destruct b0, b1, b2, b3, b4, b5, b6, b7; intros Hascii Hsafe;
    try discriminate Hascii; try discriminate Hsafe; reflexivity.
Qed.

Lemma unquote_safe c fuel tail :
  (Bytes.code c <? 128) = true -> html_safe c = true ->
  unquote (S fuel) (String c tail)
  = map_parsed (String.append (Str.of_byte c)) (unquote fuel tail).
Proof.
  destruct c as [b0 b1 b2 b3 b4 b5 b6 b7].
  destruct b0, b1, b2, b3, b4, b5, b6, b7; intros Hascii Hsafe;
    try discriminate Hascii; try discriminate Hsafe; reflexivity.
Qed.

(** A byte from 0x80 on starts a rune, or is replaced. *)
Lemma unquote_high c fuel rest :
  (Bytes.code c <? 128) = false ->
  unquote (S fuel) (String c rest)
  = match utf8.size c rest with
    | None => map_parsed (String.append utf8.replacement) (unquote fuel rest)
    | Some n =>
        let '(chunk, rest') := split_at (n - 1) rest in
        map_parsed (String.append (String c chunk)) (unquote fuel rest')
    end.
Proof.
  destruct c as [b0 b1 b2 b3 b4 b5 b6 b7].
  destruct b0, b1, b2, b3, b4, b5, b6, b7; intros Hhigh;
    try discriminate Hhigh; reflexivity.
Qed.

Lemma unquote_replacement fuel tail :
  unquote (S fuel) (String Bytes.backslash "ufffd" +:+ tail)
  = map_parsed (String.append utf8.replacement) (unquote fuel tail).
Proof. reflexivity. Qed.

Lemma code_eq c n : (Bytes.code c =? n) = true -> c = ascii_of_nat n.
Proof.
  intros Hc%Nat.eqb_eq. rewrite <- Hc. unfold Bytes.code.
  now rewrite ascii_nat_embedding.
Qed.

(** The shapes of a well-formed encoding: the lead byte, then one to
    three continuation bytes that alone decide the answer. *)
Lemma size_shape c rest n :
  utf8.size c rest = Some n ->
  exists chunk rest',
    rest = chunk +:+ rest'
    /\ String.length chunk = n - 1
    /\ forall tail, utf8.size c (chunk +:+ tail) = Some n.
Proof.
  unfold utf8.size.
  destruct (_ && _).
  { destruct rest as [| c1 t]; [discriminate |].
    destruct (utf8.cont c1) eqn:H1; [| discriminate]. intros [= <-].
    exists (Str.of_byte c1), t.
    split; [reflexivity |]. split; [reflexivity |]. intros tail.
    change (Str.of_byte c1 +:+ tail) with (String c1 tail). cbv iota.
    now rewrite H1. }
  destruct (_ && _).
  { destruct rest as [| c1 [| c2 t]]; try discriminate.
    destruct (_ && _) eqn:H1; [| discriminate]. intros [= <-].
    exists (String c1 (Str.of_byte c2)), t.
    split; [reflexivity |]. split; [reflexivity |]. intros tail.
    change (String c1 (Str.of_byte c2) +:+ tail) with (String c1 (String c2 tail)).
    cbv iota. now rewrite H1. }
  destruct (_ && _); [| discriminate].
  destruct rest as [| c1 [| c2 [| c3 t]]]; try discriminate.
  destruct (_ && _) eqn:H1; [| discriminate]. intros [= <-].
  exists (String c1 (String c2 (Str.of_byte c3))), t.
  split; [reflexivity |]. split; [reflexivity |]. intros tail.
  change (String c1 (String c2 (Str.of_byte c3)) +:+ tail)
    with (String c1 (String c2 (String c3 tail))).
  cbv iota. now rewrite H1.
Qed.

Lemma split_at_append chunk tail :
  split_at (String.length chunk) (chunk +:+ tail) = (chunk, tail).
Proof.
  induction chunk as [| c chunk IH]; [now destruct tail |].
  rewrite append_cons. cbn [String.length split_at]. now rewrite IH.
Qed.

(** Continuation bytes are copied by the writer and kept by the reader. *)
Lemma encode_pending chunk rest :
  encode_bytes true (String.length chunk) (chunk +:+ rest)
  = chunk +:+ encode_bytes true 0 rest.
Proof.
  induction chunk as [| c chunk IH]; [reflexivity |].
  rewrite !append_cons. cbn [String.length encode_bytes]. now rewrite IH.
Qed.

Lemma encode_bytes_idle copy rest :
  encode_bytes copy 0 rest = encode_bytes true 0 rest.
Proof. now destruct rest. Qed.

Lemma encode_dropped chunk rest :
  encode_bytes false (String.length chunk) (chunk +:+ rest)
  = encode_bytes true 0 rest.
Proof.
  induction chunk as [| c chunk IH]; [now destruct rest |].
  rewrite !append_cons. cbn [String.length encode_bytes]. exact IH.
Qed.

Lemma coerce_pending chunk rest :
  coerce (String.length chunk) (chunk +:+ rest) = chunk +:+ coerce 0 rest.
Proof.
  induction chunk as [| c chunk IH]; [reflexivity |].
  rewrite !append_cons. cbn [String.length coerce]. now rewrite IH.
Qed.

(** U+2028 and U+2029 are written as escapes and read back as their three
    bytes. *)
Lemma line_separator_shape c rest d :
  line_separator c rest = Some d ->
  exists c1 c2 rest',
    rest = String c1 (String c2 rest')
    /\ utf8.size c rest = Some 3
    /\ forall fuel tail,
         unquote (S fuel) (String Bytes.backslash ("u202" +:+ Str.of_byte d) +:+ tail)
         = map_parsed (String.append (String c (String c1 (Str.of_byte c2))))
                      (unquote fuel tail).
Proof.
  unfold line_separator. intros Hsep.
  destruct rest as [| c1 [| c2 rest']]; try discriminate.
  destruct (Bytes.code c =? 226) eqn:H0; [| discriminate].
  destruct (Bytes.code c1 =? 128) eqn:H1; [| discriminate].
  apply code_eq in H0, H1. subst c c1. cbn [andb] in Hsep.
  exists (ascii_of_nat 128), c2, rest'. split; [reflexivity |].
  destruct (Bytes.code c2 =? 168) eqn:H2.
  - apply code_eq in H2. subst c2. injection Hsep as <-. split; reflexivity.
  - destruct (Bytes.code c2 =? 169) eqn:H3; [| discriminate].
    apply code_eq in H3. subst c2. injection Hsep as <-. split; reflexivity.
Qed.

(** The string literal [json.Marshal] writes for [s] is read back as [s],
    its ill-formed bytes replaced. *)
Lemma unquote_encode_steps fuel s tail :
  String.length s < fuel ->
  unquote fuel (encode_bytes true 0 s +:+ String Bytes.dquote tail)
  = Parsed (as_read s) tail.
Proof.
  unfold as_read. revert s tail.
  induction fuel as [| fuel IH]; intros s tail Hfuel; [lia |].
  destruct s as [| c s']; [reflexivity |].
  cbn [String.length] in Hfuel. cbn [encode_bytes coerce].
  destruct (Bytes.code c <? 128) eqn:Hascii.
  - destruct (html_safe c) eqn:Hsafe.
    + rewrite append_cons, unquote_safe by assumption.
      now rewrite IH by lia.
    + rewrite append_assoc, unquote_escape_ascii by assumption.
      now rewrite IH by lia.
  - destruct (line_separator c s') as [d |] eqn:Hsep.
    + destruct (line_separator_shape _ _ _ Hsep)
        as (c1 & c2 & rest' & -> & -> & Hread).
      cbn [String.length] in Hfuel.
      cbn [Nat.sub encode_bytes coerce].
      rewrite encode_bytes_idle, append_assoc, Hread.
      rewrite IH by lia. reflexivity.
    + destruct (utf8.size c s') as [n |] eqn:Hsize.
      * destruct (size_shape _ _ _ Hsize) as (chunk & rest & -> & Hlen & Hany).
        rewrite append_length in Hfuel.
        rewrite append_cons, unquote_high by assumption.
        rewrite <- Hlen, encode_pending, append_assoc, Hany.
        rewrite <- Hlen, split_at_append, coerce_pending.
        now rewrite IH by lia.
      * rewrite append_assoc, unquote_replacement.
        now rewrite IH by lia.
Qed.

Lemma size_bound c rest n : utf8.size c rest = Some n -> n <= 4.
Proof.
  intros Hsize. destruct (size_shape _ _ _ Hsize) as (chunk & rest' & _ & _ & Hany).
  specialize (Hany ""). unfold utf8.size in Hany.
  repeat match type of Hany with
         | (if ?b then _ else _) = _ => destruct b
         | match ?x with _ => _ end = _ => destruct x
         end; try discriminate; injection Hany as <-; lia.
Qed.

Lemma escape_ascii_length c : 0 < String.length (escape_ascii c).
Proof.
  unfold escape_ascii.
  repeat match goal with |- context [if ?b then _ else _] => destruct b end;
    cbn [String.length]; lia.
Qed.

(** The writer never shortens a string, the bytes it drops apart. *)
Lemma encode_bytes_length s copy pending :
  String.length s
  <= String.length (encode_bytes copy pending s) + (if copy then 0 else pending).
Proof.
  revert copy pending. induction s as [| c s IH]; intros copy pending;
    [cbn; lia |].
  pose proof (IH true 0) as Hnext.
  pose proof (fun n => IH true (n - 1)) as Hcopy.
  pose proof (fun n => IH false (n - 1)) as Hdrop.
  pose proof (escape_ascii_length c) as Hescape.
  cbv iota in Hnext, Hcopy, Hdrop.
  cbn [encode_bytes String.length]. destruct pending as [| k].
  - assert (Hgoal :
        S (String.length s)
        <= String.length
             (if Bytes.code c <? 128
              then if html_safe c
                   then String c (encode_bytes true 0 s)
                   else escape_ascii c +:+ encode_bytes true 0 s
              else match utf8.size c s with
                   | Some n =>
                       match line_separator c s with
                       | Some d =>
                           String Bytes.backslash ("u202" +:+ Str.of_byte d)
                           +:+ encode_bytes false (n - 1) s
                       | None => String c (encode_bytes true (n - 1) s)
                       end
                   | None =>
                       String Bytes.backslash "ufffd" +:+ encode_bytes true 0 s
                   end)); [| destruct copy; lia].
    destruct (Bytes.code c <? 128).
    + destruct (html_safe c); [cbn [String.length]; lia |].
      rewrite append_length. lia.
    + destruct (utf8.size c s) as [n |] eqn:Hsize.
      * apply size_bound in Hsize. specialize (Hcopy n). specialize (Hdrop n).
        destruct (line_separator c s); [| cbn [String.length]; lia].
        rewrite append_length. cbn [String.length].
        rewrite append_length. cbn [String.length Str.of_byte]. lia.
      * rewrite append_length. cbn [String.length]. lia.
  - destruct copy.
    + specialize (IH true k). cbv iota in IH. cbn [String.length]. lia.
    + specialize (IH false k). cbv iota in IH. lia.
Qed.

(** The literal is read back by the fuel [value] and [members] give to
    [unquote]. *)
Lemma unquote_encode s tail :
  let text := encode_bytes true 0 s +:+ String Bytes.dquote tail in
  unquote (S (String.length text)) text = Parsed (as_read s) tail.
Proof.
  cbv zeta. apply unquote_encode_steps.
  rewrite append_length. pose proof (encode_bytes_length s true 0) as Hlen.
  cbv iota in Hlen. lia.
Qed.

(** Well-formed UTF-8 is read back unchanged; so is ASCII text. *)
Lemma coerce_well_formed s pending :
  well_formed pending s = true -> coerce pending s = s.
Proof.
  revert pending. induction s as [| c s IH]; intros pending; [reflexivity |].
  cbn [well_formed coerce]. destruct pending as [| k].
  - destruct (Bytes.code c <? 128); [intros Hs; f_equal; now apply IH |].
    destruct (utf8.size c s) as [n |]; [| discriminate].
    intros Hs. f_equal. now apply IH.
  - intros Hs. f_equal. now apply IH.
Qed.

Lemma as_read_utf8 s : is_utf8 s = true -> as_read s = s.
Proof. apply coerce_well_formed. Qed.

Lemma as_read_ascii s :
  Str.forallb (fun c => Bytes.code c <? 128) s = true -> as_read s = s.
Proof.
  unfold as_read. induction s as [| c s IH]; [reflexivity |].
  cbn [Str.forallb coerce]. intros [Hc Hs]%andb_true_iff.
  rewrite Hc. f_equal. now apply IH.
Qed.

(** Induction on a value, with the property for its elements and
    members. *)
Lemma json_nested_ind (P : json -> Prop) :
  P JNull ->
  (forall b, P (JBool b)) ->
  (forall lit, P (JNumber lit)) ->
  (forall s, P (JString s)) ->
  (forall elems, Forall P elems -> P (JArray elems)) ->
  (forall members, Forall (fun kv => P (snd kv)) members -> P (JObject members)) ->
  forall v, P v.
Proof.
  intros Hnull Hbool Hnumber Hstring Harray Hobject.
  fix IH 1. intros [| b | lit | s | elems | members].
  - exact Hnull.
  - apply Hbool.
  - apply Hnumber.
  - apply Hstring.
  - apply Harray. induction elems as [| x elems IHelems]; constructor.
    + apply IH.
    + exact IHelems.
  - apply Hobject. induction members as [| [k x] members IHmembers]; constructor.
    + apply IH.
    + exact IHmembers.
Qed.

(** A marshalled value starts with a byte that is neither white space nor
    a closing bracket. *)
Lemma render_head v :
  textual v = true ->
  exists c r, render v = String c r
              /\ is_space c = false
              /\ Bytes.eqb c "]" = false /\ Bytes.eqb c "}" = false.
Proof.
  destruct v as [| [|] | lit | s | elems | members]; intros Htext;
    try discriminate Htext; cbn [render]; eexists _, _;
    (split; [reflexivity | repeat split; reflexivity]).
Qed.

(** One turn of [elements] and of [members], on what [value] has read. *)
Lemma elements_cons fuel s v rest :
  value fuel s = Parsed v (String "," rest) ->
  elements (S fuel) s = map_parsed (cons v) (elements fuel rest).
Proof. intros Hvalue. cbn [elements]. rewrite Hvalue. reflexivity. Qed.

Lemma elements_last fuel s v rest :
  value fuel s = Parsed v (String "]" rest) ->
  elements (S fuel) s = Parsed [v] rest.
Proof. intros Hvalue. cbn [elements]. rewrite Hvalue. reflexivity. Qed.

Lemma members_key fuel k body :
  members (S fuel) (member_text k body)
  = match value fuel body with
    | Parsed v rest'' =>
        match skip_space rest'' with
        | String d rest3 =>
            if Bytes.eqb d ","
            then map_parsed (cons (as_read k, v)) (members fuel rest3)
            else if Bytes.eqb d "}" then Parsed [(as_read k, v)] rest3
                 else SyntaxError "invalid character after object key:value pair"
        | EmptyString => SyntaxError "unexpected end of JSON input"
        end
    | SyntaxError m => SyntaxError m
    | OutOfFuel => OutOfFuel
    end.
Proof.
  unfold member_text. cbn [members].
  change (skip_space (String Bytes.dquote ?x)) with (String Bytes.dquote x).
  cbv iota. change (Bytes.eqb Bytes.dquote Bytes.dquote) with true. cbv iota.
  rewrite (unquote_encode k (String ":" body)). reflexivity.
Qed.

Lemma members_cons fuel k body v rest :
  value fuel body = Parsed v (String "," rest) ->
  members (S fuel) (member_text k body)
  = map_parsed (cons (as_read k, v)) (members fuel rest).
Proof. intros Hvalue. rewrite members_key, Hvalue. reflexivity. Qed.

Lemma members_last fuel k body v rest :
  value fuel body = Parsed v (String "}" rest) ->
  members (S fuel) (member_text k body) = Parsed [(as_read k, v)] rest.
Proof. intros Hvalue. rewrite members_key, Hvalue. reflexivity. Qed.

Lemma elements_render l fuel tail :
  l <> [] ->
  Forall reads_back l ->
  needs l <= fuel ->
  elements fuel (Str.join "," (map render l) +:+ String "]" tail)
  = Parsed (map as_read_json l) tail.
Proof.
  intros Hne Hall. revert fuel.
  induction Hall as [| x l Hx Hall IH]; [contradiction |]. clear Hne.
  intros [| fuel] Hfuel; cbn [needs fold_right] in Hfuel; [lia |].
  fold (needs l) in Hfuel.
  destruct l as [| y l].
  - cbn [map Str.join]. apply elements_last, Hx. lia.
  - change (Str.join "," (map render (x :: y :: l)))
      with (render x +:+ "," +:+ Str.join "," (map render (y :: l))).
    rewrite !append_assoc.
    rewrite (elements_cons fuel _ (as_read_json x)
               (Str.join "," (map render (y :: l)) +:+ String "]" tail))
      by (apply Hx; lia).
    rewrite IH by (discriminate || lia). reflexivity.
Qed.

Lemma member_render_text k x rest :
  member_render (k, x) +:+ rest = member_text k (render x +:+ rest).
Proof.
  unfold member_render, member_text, encode_string, Str.of_byte.
  now rewrite !append_cons, !append_assoc.
Qed.

Lemma members_render l fuel tail :
  l <> [] ->
  Forall (fun kv => reads_back (snd kv)) l ->
  needs (map snd l) <= fuel ->
  members fuel (Str.join "," (map member_render l) +:+ String "}" tail)
  = Parsed (map member_read l) tail.
Proof.
  intros Hne Hall. revert fuel.
  induction Hall as [| [k x] l Hx Hall IH]; [contradiction |]. clear Hne.
  cbn [snd] in Hx.
  intros [| fuel] Hfuel; cbn [needs map snd fold_right] in Hfuel; [lia |].
  fold (needs (map snd l)) in Hfuel.
  destruct l as [| kv l].
  - cbn [map Str.join]. rewrite member_render_text.
    apply members_last, Hx. lia.
  - change (Str.join "," (map member_render ((k, x) :: kv :: l)))
      with (member_render (k, x) +:+ "," +:+ Str.join "," (map member_render (kv :: l))).
    rewrite !append_assoc, member_render_text.
    rewrite (members_cons fuel k _ (as_read_json x)
               (Str.join "," (map member_render (kv :: l)) +:+ String "}" tail))
      by (apply Hx; lia).
    rewrite IH by (discriminate || lia). reflexivity.
Qed.

Lemma value_string fuel s tail :
  value (S fuel) (encode_string s +:+ tail) = Parsed (JString (as_read s)) tail.
Proof.
  unfold encode_string, Str.of_byte.
  rewrite append_cons, append_assoc, append_cons, append_nil.
  cbn [value].
  change (skip_space (String Bytes.dquote ?x)) with (String Bytes.dquote x).
  cbv iota. change (Bytes.eqb Bytes.dquote Bytes.dquote) with true. cbv iota.
  rewrite unquote_encode. reflexivity.
Qed.

Lemma value_array fuel text :
  value (S fuel) (String "[" text)
  = match skip_space text with
    | String d rest =>
        if Bytes.eqb d "]" then Parsed (JArray []) rest
        else map_parsed JArray (elements fuel text)
    | EmptyString => SyntaxError "unexpected end of JSON input"
    end.
Proof. reflexivity. Qed.

Lemma value_object fuel text :
  value (S fuel) (String "{" text)
  = match skip_space text with
    | String d rest =>
        if Bytes.eqb d "}" then Parsed (JObject []) rest
        else map_parsed JObject (members fuel (skip_space text))
    | EmptyString => SyntaxError "unexpected end of JSON input"
    end.
Proof. reflexivity. Qed.

Lemma join_cons sep (x : string) l :
  Str.join sep (x :: l)
  = x +:+ match l with [] => "" | _ :: _ => sep +:+ Str.join sep l end.
Proof. destruct l; cbn [Str.join]; [now rewrite append_empty_r | reflexivity]. Qed.

Lemma needs_members (members : list (string * json)) :
  fold_right (fun '(_, x) n => S (Nat.max (need x) n)) 0 members
  = needs (map snd members).
Proof.
  induction members as [| [k x] members IH]; [reflexivity |].
  cbn [fold_right map snd needs]. now rewrite IH.
Qed.

(** The reader gets back every marshalled value without numbers. *)
Lemma value_render v : textual v = true -> reads_back v.
Proof.
  induction v as [| b | lit | s | elems IH | members IH] using json_nested_ind;
    intros Htext [| fuel] tail Hfuel; cbn [need] in Hfuel; try lia.
  - reflexivity.
  - destruct b; reflexivity.
  - discriminate Htext.
  - apply value_string.
  - cbn [textual] in Htext. cbn [render as_read_json].
    assert (Hall : Forall reads_back elems).
    { clear Hfuel. induction IH as [| x elems Hx _ IHelems]; [constructor |].
      cbn [forallb] in Htext. apply andb_true_iff in Htext as [Htx Htl].
      constructor; [now apply Hx | now apply IHelems]. }
    destruct elems as [| x elems]; [reflexivity |].
    fold (needs (x :: elems)) in Hfuel.
    rewrite !append_assoc. change ("[" +:+ ?t) with (String "[" t).
    rewrite value_array.
    destruct (render_head x) as (c & r & Hhead & Hspace & Hclose & _).
    { cbn [forallb] in Htext. now apply andb_true_iff in Htext as [Htx _]. }
    pose proof (elements_render (x :: elems) fuel tail) as Hread.
    change ("]" +:+ tail) with (String "]" tail).
    rewrite Hread by (discriminate || assumption || lia).
    cbn [map]. rewrite join_cons, Hhead, !append_cons.
    cbn [skip_space]. rewrite Hspace, Hclose. reflexivity.
  - cbn [textual] in Htext. cbn [render as_read_json].
    rewrite needs_members in Hfuel.
    assert (Hall : Forall (fun kv => reads_back (snd kv)) members).
    { clear Hfuel. induction IH as [| [k x] members Hx _ IHmembers]; [constructor |].
      cbn [forallb] in Htext. apply andb_true_iff in Htext as [Htx Htl].
      constructor; [now apply Hx | now apply IHmembers]. }
    destruct members as [| [k x] members]; [reflexivity |].
    rewrite !append_assoc. change ("{" +:+ ?t) with (String "{" t).
    rewrite value_object.
    change ("}" +:+ tail) with (String "}" tail).
    change (map (fun '(k0, x0) => encode_string k0 +:+ ":" +:+ render x0))
      with (map member_render).
    change (map (fun '(k0, x0) => (as_read k0, as_read_json x0)))
      with (map member_read).
    set (text := Str.join "," (map member_render ((k, x) :: members))
                 +:+ String "}" tail) in *.
    assert (Hshape : exists body, text = member_text k body).
    { unfold text. cbn [map]. rewrite join_cons, append_assoc, member_render_text.
      now eexists. }
    destruct Hshape as (body & Hshape).
    assert (Hskip : skip_space text = String Bytes.dquote
                       (encode_bytes true 0 k +:+ String Bytes.dquote (String ":" body)))
      by now rewrite Hshape.
    rewrite Hskip at 1. cbv iota.
    change (Bytes.eqb Bytes.dquote "}") with false. cbv iota.
    fold (member_text k body). rewrite Hskip. fold (member_text k body).
    rewrite <- Hshape. unfold text.
    rewrite (members_render ((k, x) :: members) fuel tail)
      by (discriminate || assumption || (cbn [map snd] in *; lia)).
    reflexivity.
Qed.

(** What [json.Marshal] writes for a value without numbers parses, and
    gives the value back. *)
Theorem parse_render v :
  textual v = true -> parse (render v) = Parsed (as_read_json v) "".
Proof.
  intros Htext.
  pose proof (value_render v Htext (need v) "" (Nat.le_refl _)) as Hvalue.
  rewrite append_empty_r in Hvalue.
  apply JsonFacts.parse_first_with in Hvalue.
  unfold parse. now rewrite Hvalue.
Qed.

End RoundTrip.

(** ** Path joining *)

Module PathFacts.

Import path StrFacts.




Lemma split_not_nil c s : Str.split c s <> [].
Proof.
  destruct s as [| d s]; cbn; [discriminate |].
  destruct (Bytes.eqb d c); [discriminate |].
  destruct (Str.split c s); discriminate.
Qed.

(** [strings.Split] distributes over a separator. *)
Lemma split_append_sep c x y :
  Str.split c (x +:+ String c y) = Str.split c x ++ Str.split c y.
Proof.
  induction x as [| d x IH].
  - rewrite append_nil. cbn [Str.split app]. unfold Bytes.eqb.
    now rewrite Ascii.eqb_refl.
  - rewrite append_cons. cbn [Str.split]. rewrite IH.
    destruct (Bytes.eqb d c); [reflexivity |].
    destruct (Str.split c x) eqn:Hx; [now apply split_not_nil in Hx | reflexivity].
Qed.















End PathFacts.

(** ** The Request Builder: the URL *)






(** ** The Request Builder: headers *)

Lemma http_NewRequestWithContext_Header ctx method url_ body req :
  http.NewRequestWithContext ctx method url_ body = Ok req ->
  http.Header_ req = ∅.
Proof.
  unfold http.NewRequestWithContext.
  destruct (negb (http.validMethod _)); [discriminate |].
  destruct ctx; [discriminate |].
  destruct (url.Parse url_); [| discriminate].
  cbn. intros [= <-]. reflexivity.
Qed.

(** The header map of the request that [NewRequestWithContext] returns. *)
Lemma NewRequestWithContext_Header ctx params payload req :
  NewRequestWithContext ctx params payload = Ok req ->
  http.Header_ req
  = let h := range_Header_Set (RequestParams.Headers params) ∅ in
    if negb (String.eqb (RequestParams.Bearer params) "")
    then http.Header_Set h "Authorization" ("Bearer " +:+ RequestParams.Bearer params)
    else h.
Proof.
  unfold NewRequestWithContext.
  destruct (url.JoinPath _ _) as [requestURL | err]; [| discriminate].
  destruct payload as [payload |];
    (destruct (http.NewRequestWithContext _ _ _ _) as [req0 | err] eqn:Hreq0;
     [| discriminate]);
    apply http_NewRequestWithContext_Header in Hreq0;
    intros [= <-]; rewrite Hreq0; unfold range_Header_Set;
    destruct (0 <? length (RequestParams.Query params)); reflexivity.
Qed.

Lemma canonical_Authorization :
  http.CanonicalMIMEHeaderKey "Authorization" = "Authorization".
Proof. reflexivity. Qed.

(** The entry the loop leaves under a canonical key is the value of the
    last entry visited whose key has that canonical form. *)
Lemma range_Header_Set_last (before after : list (string * string)) key value h :
  Forall (fun kv => http.CanonicalMIMEHeaderKey (fst kv)
                    <> http.CanonicalMIMEHeaderKey key) after ->
  range_Header_Set (before ++ (key, value) :: after) h
    !! http.CanonicalMIMEHeaderKey key = Some [value].
Proof.
  intros Hafter. unfold range_Header_Set.
  rewrite fold_left_app. cbn [fold_left fst snd].
  set (h' := fold_left _ before h). clearbody h'.
  assert (Hnow : http.Header_Set h' key value !! http.CanonicalMIMEHeaderKey key
                 = Some [value]) by apply lookup_insert_eq.
  revert Hnow. generalize (http.Header_Set h' key value). clear h'.
  induction Hafter as [| [k v] after Hk _ IH]; intros m Hm; [exact Hm |].
  cbn [fold_left fst snd]. apply IH.
  unfold http.Header_Set. rewrite lookup_insert_ne; [exact Hm | exact Hk].
Qed.

(** C2: with a non-empty bearer token the request carries the header
    [Authorization: Bearer <token>], whatever the caller put in [Headers]
    (an [Authorization] entry included) and in whatever order the map is
    visited. *)
Theorem C2_bearer_overrides_authorization ctx params payload req :
  RequestParams.Bearer params <> "" ->
  NewRequestWithContext ctx params payload = Ok req ->
  http.Header_ req !! "Authorization" = Some ["Bearer " +:+ RequestParams.Bearer params]
  /\ http.Header_Get (http.Header_ req) "Authorization"
     = "Bearer " +:+ RequestParams.Bearer params.
Proof.
  intros Hbearer Hreq.
  assert (Hentry : http.Header_ req !! "Authorization"
                   = Some ["Bearer " +:+ RequestParams.Bearer params]).
  { rewrite (NewRequestWithContext_Header _ _ _ _ Hreq). cbv zeta.
    destruct (String.eqb_spec (RequestParams.Bearer params) "") as [Heq | _];
      [contradiction |].
    cbn [negb]. unfold http.Header_Set. rewrite canonical_Authorization.
    apply lookup_insert_eq. }
  split; [exact Hentry |].
  unfold http.Header_Get. rewrite canonical_Authorization, Hentry. reflexivity.
Qed.

Lemma C2_witness :
  http.Header_ (Example.request_of Example.both) !! "Authorization"
  = Some ["Bearer ACCESS_TOKEN"]
  /\ http.Header_Get (http.Header_ (Example.request_of Example.both))
                     "Authorization"
     = "Bearer ACCESS_TOKEN".
Proof.
  apply (C2_bearer_overrides_authorization Example.ctx Example.both None).
  - vm_compute. discriminate.
  - vm_compute. reflexivity.
Defined.

(** The claim C10 as stated fails when another key of [Headers] names the
    same header and is visited later: the caller's ["Authorization"] entry
    is replaced by that one. *)
Lemma C10_counterexample :
  RequestParams.Bearer Example.two_spellings = ""
  /\ RequestParams.well_formed Example.two_spellings
  /\ In ("Authorization", "Basic dXNlcjpwYXNz")
        (RequestParams.Headers Example.two_spellings)
  /\ NewRequestWithContext Example.ctx Example.two_spellings None
     = Ok (Example.request_of Example.two_spellings)
  /\ http.Header_Get (http.Header_ (Example.request_of Example.two_spellings))
                     "Authorization"
     = "Basic b3RoZXI6b25l"
  /\ http.Header_Get (http.Header_ (Example.request_of Example.two_spellings))
                     "Authorization"
     <> "Basic dXNlcjpwYXNz".
Proof.
  split; [reflexivity |].
  split; [split; apply (bool_decide_unpack _); vm_compute; reflexivity |].
  split; [left; reflexivity |].
  split; [vm_compute; reflexivity |].
  split; [vm_compute; reflexivity | vm_compute; discriminate].
Qed.

(** C10, amended: with an empty bearer token the header map of the request
    is exactly what the caller's entries give, and an ["Authorization"]
    entry is carried through unchanged when no entry visited after it has a
    key with the same canonical form. *)
Theorem C10_no_bearer_keeps_caller_authorization
    ctx params payload req before value after :
  RequestParams.Bearer params = "" ->
  NewRequestWithContext ctx params payload = Ok req ->
  RequestParams.Headers params = before ++ ("Authorization", value) :: after ->
  Forall (fun kv => http.CanonicalMIMEHeaderKey (fst kv) <> "Authorization") after ->
  http.Header_ req = range_Header_Set (RequestParams.Headers params) ∅
  /\ http.Header_ req !! "Authorization" = Some [value]
  /\ http.Header_Get (http.Header_ req) "Authorization" = value.
Proof.
  intros Hbearer Hreq Hheaders Hafter.
  assert (Hmap : http.Header_ req = range_Header_Set (RequestParams.Headers params) ∅).
  { rewrite (NewRequestWithContext_Header _ _ _ _ Hreq), Hbearer. reflexivity. }
  assert (Hentry : http.Header_ req !! "Authorization" = Some [value]).
  { rewrite Hmap, Hheaders.
    apply (range_Header_Set_last before after "Authorization" value ∅).
    rewrite canonical_Authorization. exact Hafter. }
  split; [exact Hmap |]. split; [exact Hentry |].
  unfold http.Header_Get. rewrite canonical_Authorization, Hentry. reflexivity.
Qed.

Lemma C10_witness :
  http.Header_ (Example.request_of Example.header_only)
  = range_Header_Set (RequestParams.Headers Example.header_only) ∅
  /\ http.Header_ (Example.request_of Example.header_only) !! "Authorization"
     = Some ["Basic dXNlcjpwYXNz"]
  /\ http.Header_Get (http.Header_ (Example.request_of Example.header_only))
                     "Authorization"
     = "Basic dXNlcjpwYXNz".
Proof.
  apply (C10_no_bearer_keeps_caller_authorization
           Example.ctx Example.header_only None
           (Example.request_of Example.header_only)
           [("Accept", "application/json")] "Basic dXNlcjpwYXNz"
           [("Content-Type", "application/json")]).
  - reflexivity.
  - vm_compute. reflexivity.
  - reflexivity.
  - repeat constructor. vm_compute. discriminate.
Defined.

(** ** The Dispatcher *)

Lemma closes_app t1 t2 : closes (t1 ++ t2) = closes t1 + closes t2.
Proof. unfold closes. rewrite List.filter_app, length_app. reflexivity. Qed.

Section DispatcherFacts.

Context `{FromJSON ErrorResponse} `{FromJSON ResponseMessage.t}.

(** With a body stream, [Send] returns, and the stream is read once and
    then closed once, whatever the branch taken. *)
Lemma Send_with_body ctx client params payload req resp rc t :
  NewRequestWithContext ctx params payload = Ok req ->
  http.Do client req = Ok resp ->
  http.RespBody resp = Some rc ->
  Send ctx client params payload t
  = (Returned (classify resp (http.content rc)),
     t ++ [ev_Do req; ev_ReadAll; ev_Close]).
Proof.
  intros Hreq Hdo Hbody.
  unfold Send. rewrite Hreq.
  unfold Exec.bind at 1, client_Do. rewrite Hdo.
  unfold Exec.defer_method. rewrite Hbody.
  unfold Exec.bind, io_ReadAll, classify, Body_Close, Exec.emit, Exec.ret.
  destruct (http.content rc) as [bodybytes | err];
    [destruct (negb (http.StatusCode resp =? http.StatusOK)%Z);
     [destruct (json_Unmarshal bodybytes) | destruct (json_Decoder_Decode bodybytes)] |];
    cbn; rewrite <- !app_assoc; reflexivity.
Qed.

(** Without a body stream, the deferred [Close] is evaluated on a nil
    interface before the test for it: [Send] panics. *)
Lemma Send_without_body ctx client params payload req resp t :
  NewRequestWithContext ctx params payload = Ok req ->
  http.Do client req = Ok resp ->
  http.RespBody resp = None ->
  Send ctx client params payload t
  = (Panicked Exec.nil_dereference, t ++ [ev_Do req]).
Proof.
  intros Hreq Hdo Hbody.
  unfold Send. rewrite Hreq.
  unfold Exec.bind, client_Do. rewrite Hdo.
  unfold Exec.defer_method. rewrite Hbody. reflexivity.
Qed.

(** With a body stream, every exit of [Send] is a return, and the
    stream has been closed exactly once more than before the call. *)
Lemma Send_releases_body_once ctx client params payload req resp rc t :
  NewRequestWithContext ctx params payload = Ok req ->
  http.Do client req = Ok resp ->
  http.RespBody resp = Some rc ->
  (exists r, fst (Send ctx client params payload t) = Returned r)
  /\ closes (snd (Send ctx client params payload t)) = closes t + 1.
Proof.
  intros Hreq Hdo Hbody.
  rewrite (Send_with_body _ _ _ _ _ _ _ t Hreq Hdo Hbody). cbn [fst snd].
  split; [eauto |]. rewrite closes_app. reflexivity.
Qed.

(** Before the transport is reached there is no stream: a construction
    error or a transport error is returned with nothing to close. *)
Lemma Send_construction_error ctx client params payload err t :
  NewRequestWithContext ctx params payload = Err err ->
  Send ctx client params payload t = (Returned (Err err), t).
Proof. intros Hreq. unfold Send. rewrite Hreq. reflexivity. Qed.

Lemma Send_transport_error ctx client params payload req err t :
  NewRequestWithContext ctx params payload = Ok req ->
  http.Do client req = Err err ->
  Send ctx client params payload t = (Returned (Err err), t ++ [ev_Do req]).
Proof.
  intros Hreq Hdo. unfold Send. rewrite Hreq.
  unfold Exec.bind, client_Do. rewrite Hdo. reflexivity.
Qed.

(** C3: a response with a status other than 200 whose body decodes into
    the error structure makes [Send] return that [ErrorResponse] as the
    error, its [Code] replaced by the status code observed, and no
    [Response]. *)
Theorem C3_error_code_is_http_status
    ctx client params payload req resp rc bodybytes e t :
  NewRequestWithContext ctx params payload = Ok req ->
  http.Do client req = Ok resp ->
  http.RespBody resp = Some rc ->
  http.content rc = Ok bodybytes ->
  http.StatusCode resp <> http.StatusOK ->
  json_Unmarshal bodybytes = Ok e ->
  fst (Send ctx client params payload t)
  = Returned (Err (ErrorResponse_error
                     {| Code := http.StatusCode resp; Fields := Fields e |})).
Proof.
  intros Hreq Hdo Hbody Hread Hstatus Hdecode.
  rewrite (Send_with_body _ _ _ _ _ _ _ t Hreq Hdo Hbody). cbn [fst].
  unfold classify. rewrite Hread.
  destruct (Z.eqb_spec (http.StatusCode resp) http.StatusOK) as [Heq | _];
    [contradiction |].
  cbn [negb]. rewrite Hdecode. reflexivity.
Qed.

(** C6: a response with status 200 whose body decodes into the success
    message structure makes [Send] return a [Response] with status code
    200, the headers of the transport response and the decoded message,
    and no error. *)
Theorem C6_success_response
    ctx client params payload req resp rc bodybytes message t :
  NewRequestWithContext ctx params payload = Ok req ->
  http.Do client req = Ok resp ->
  http.RespBody resp = Some rc ->
  http.content rc = Ok bodybytes ->
  http.StatusCode resp = http.StatusOK ->
  json_Decoder_Decode bodybytes = Ok message ->
  fst (Send ctx client params payload t)
  = Returned (Ok {| Response.StatusCode := 200;
                    Response.Headers := http.RespHeader resp;
                    Response.Message := message |}).
Proof.
  intros Hreq Hdo Hbody Hread Hstatus Hdecode.
  rewrite (Send_with_body _ _ _ _ _ _ _ t Hreq Hdo Hbody). cbn [fst].
  unfold classify. rewrite Hread, Hstatus, Hdecode. reflexivity.
Qed.

(** C9: [Reply] with nil options returns the error "options cannot be
    nil" at once: the trace is unchanged, so no request was sent, and
    the answer depends on neither the client nor the parameters. *)
Theorem C9_reply_rejects_nil_options ctx client params t :
  Reply ctx client params None t
  = (Returned (Err (errorf "options cannot be nil" [])), t).
Proof. reflexivity. Qed.

End DispatcherFacts.

Module ExampleRun.

Import Example.

Lemma request_ok : NewRequestWithContext ctx params None = Ok request.
Proof. vm_compute. reflexivity. Qed.

End ExampleRun.

(** A 400 response whose body carries the code 190 is returned with the
    code 400. *)
Lemma C3_witness :
  fst (Send Example.ctx
            (Example.answering
               (Example.response 400 (Example.body_of Example.error_body)))
            Example.params None [])
  = Returned (Err (ErrorResponse_error
                     {| Code := 400; Fields := Fields Example.error_decoded |})).
Proof.
  apply (C3_error_code_is_http_status
           Example.ctx _ Example.params None Example.request
           (Example.response 400 (Example.body_of Example.error_body))
           {| http.content := Ok Example.error_body |}
           Example.error_body Example.error_decoded []).
  - exact ExampleRun.request_ok.
  - reflexivity.
  - reflexivity.
  - reflexivity.
  - vm_compute. discriminate.
  - vm_compute. reflexivity.
Defined.

Lemma C6_witness :
  fst (Send Example.ctx
            (Example.answering
               (Example.response 200 (Example.body_of Example.success_body)))
            Example.params None [])
  = Returned (Ok {| Response.StatusCode := 200;
                    Response.Headers := ∅;
                    Response.Message := Example.success_decoded |}).
Proof.
  apply (C6_success_response
           Example.ctx _ Example.params None Example.request
           (Example.response 200 (Example.body_of Example.success_body))
           {| http.content := Ok Example.success_body |}
           Example.success_body Example.success_decoded []).
  - exact ExampleRun.request_ok.
  - reflexivity.
  - reflexivity.
  - reflexivity.
  - reflexivity.
  - vm_compute. reflexivity.
Defined.



(** ** The envelopes *)

Section EnvelopeFacts.

Context `{FromJSON ErrorResponse} `{FromJSON ResponseMessage.t}.

(** X20: what [SendText] hands to [Send] is JSON, and a reader finds the
    recipient and the message in it, whatever bytes they are made of:
    [json.Marshal] escapes them. *)
Lemma SendText_payload ctx client params req t :
  exists payload,
    SendText ctx client params req t = Send ctx client params (Some payload) t
    /\ Json.parse payload
       = Json.Parsed
           (JObject
              [("messaging_product", JString "whatsapp");
               ("to", JString (Json.as_read (SendTextRequest.Recipient req)));
               ("recipient_type", JString "individual");
               ("type", JString "text");
               ("text",
                 JObject
                   [("preview_url", JBool (SendTextRequest.PreviewURL req));
                    ("body", JString (Json.as_read (SendTextRequest.Message req)))])])
           "".
Proof.
  eexists. split; [reflexivity |].
  rewrite RoundTrip.parse_render by reflexivity. reflexivity.
Qed.

(** C8: the envelope [React] builds has the discriminant ["reaction"], the
    product ["whatsapp"], the given recipient and a reaction with the given
    message id and emoji; the bytes handed to [Send] are its JSON, an
    object with the members [messaging_product], [to], [type] and
    [reaction] and no member [recipient_type]. *)
Theorem C8_react_envelope ctx client params req t :
  let envelope := React_envelope req in
  let payload := Json.render (Message.to_json envelope) in
  let read :=
    JObject
      [("messaging_product", JString "whatsapp");
       ("to", JString (Json.as_read (ReactRequest.Recipient req)));
       ("type", JString "reaction");
       ("reaction",
         JObject
           [("message_id", JString (Json.as_read (ReactRequest.MessageID req)));
            ("emoji", JString (Json.as_read (ReactRequest.Emoji req)))])] in
  React ctx client params req t = Send ctx client params (Some payload) t
  /\ Message.Type_ envelope = "reaction"
  /\ Message.Product envelope = "whatsapp"
  /\ Message.To envelope = ReactRequest.Recipient req
  /\ Message.Reaction envelope
     = Some {| models.MessageID := ReactRequest.MessageID req;
               models.Emoji := ReactRequest.Emoji req |}
  /\ Json.parse payload = Json.Parsed read ""
  /\ Json.has_field "recipient_type" read = false.
Proof.
  cbv zeta. do 5 (split; [reflexivity |]). split; [| reflexivity].
  rewrite RoundTrip.parse_render by reflexivity. reflexivity.
Qed.

End EnvelopeFacts.

Module ExampleEnvelope.

Import Example.

(** The bytes [React] sends for it, and what a parser reads back. *)
Lemma reaction_bytes :
  json_Marshal_Message (React_envelope reaction) = Ok reaction_payload
  /\ Json.parse reaction_payload
     = Json.Parsed (Message.to_json (React_envelope reaction)) "".
Proof. split; vm_compute; reflexivity. Qed.

Lemma text_round_trip :
  Json.parse (Json.render (Message.to_json text))
  = Json.Parsed (Message.to_json text) ""
  /\ Json.field "to" (Message.to_json text) = Some (JString quoted).
Proof. split; vm_compute; reflexivity. Qed.

Lemma injected_recipient :
  match buildReplyPayload injecting with
  | Ok payload =>
      match Json.parse payload with
      | Json.Parsed v _ => Json.field "to" v
      | _ => None
      end
  | Err _ => None
  end = Some (JString "456").
Proof. vm_compute. reflexivity. Qed.

End ExampleEnvelope.

(** C1: for a recipient with a double quote, [buildReplyPayload] writes the
    quote as it is, and the payload is not JSON: a parser stops with a
    syntax error after the string that the quote closes. *)
Theorem C1_reply_quote_breaks_payload :
  buildReplyPayload Example.reply = Ok Example.reply_payload
  /\ Json.parse Example.reply_payload
     = Json.SyntaxError "invalid character after object key:value pair"
  /\ Json.valid Example.reply_payload = false.
Proof. repeat split; vm_compute; reflexivity. Qed.

(** * Further properties *)

(** ** The Dispatcher, path by path *)

Lemma exchanges_app t1 t2 : exchanges (t1 ++ t2) = exchanges t1 + exchanges t2.
Proof. unfold exchanges. rewrite List.filter_app, length_app. reflexivity. Qed.

Section DispatcherPaths.

Context `{FromJSON ErrorResponse} `{FromJSON ResponseMessage.t}.

(** What [Send] adds to the trace. *)
Lemma Send_trace ctx client params payload req t :
  NewRequestWithContext ctx params payload = Ok req ->
  exists more,
    snd (Send ctx client params payload t) = t ++ ev_Do req :: more
    /\ exchanges more = 0
    /\ forall r, ~ In (ev_Do r) more.
Proof.
  intros Hreq.
  destruct (http.Do client req) as [resp | err] eqn:Hdo.
  - destruct (http.RespBody resp) as [rc |] eqn:Hbody.
    + rewrite (Send_with_body _ _ _ _ _ _ _ t Hreq Hdo Hbody).
      exists [ev_ReadAll; ev_Close]. cbn [snd]. split; [reflexivity |].
      split; [reflexivity |]. intros r [[=] | [[=] | []]].
    + rewrite (Send_without_body _ _ _ _ _ _ t Hreq Hdo Hbody).
      exists []. cbn [snd]. split; [reflexivity |].
      split; [reflexivity |]. intros r [].
  - rewrite (Send_transport_error _ _ _ _ _ _ t Hreq Hdo).
    exists []. cbn [snd]. split; [reflexivity |].
    split; [reflexivity |]. intros r [].
Qed.

Lemma Send_at_most_one_exchange ctx client params payload t :
  at_most_one_exchange t (Send ctx client params payload t).
Proof.
  destruct (NewRequestWithContext ctx params payload) as [req | err] eqn:Hreq.
  - destruct (Send_trace ctx client _ _ _ t Hreq) as (more & Htrace & Hmore & _).
    exists (ev_Do req :: more). split; [exact Htrace |].
    change (ev_Do req :: more) with ([ev_Do req] ++ more).
    rewrite exchanges_app, Hmore. cbn. lia.
  - rewrite (Send_construction_error _ _ _ _ _ t Hreq).
    exists []. cbn [snd]. split; [now rewrite app_nil_r | cbn; lia].
Qed.

(** X1: one call of [Send] is at most one exchange.  The transport is
    called once when the request could be built and not at all otherwise,
    whatever happens afterwards (transport error, missing body, read or
    decode failure), and the request it receives is the one
    [NewRequestWithContext] built. *)
Theorem Send_one_exchange ctx client params payload t :
  let run := Send ctx client params payload t in
  exchanges (snd run)
  = exchanges t
    + (if is_Ok (NewRequestWithContext ctx params payload) then 1 else 0)
  /\ forall req, In (ev_Do req) (snd run) ->
       In (ev_Do req) t \/ NewRequestWithContext ctx params payload = Ok req.
Proof.
  cbv zeta.
  destruct (NewRequestWithContext ctx params payload) as [req | err] eqn:Hreq.
  - destruct (Send_trace ctx client _ _ _ t Hreq) as (more & -> & Hmore & Hnone).
    cbn [is_Ok]. split.
    + rewrite exchanges_app. change (ev_Do req :: more) with ([ev_Do req] ++ more).
      rewrite exchanges_app, Hmore. reflexivity.
    + intros r [Hin | [[= <-] | Hin]]%in_app_or; [now left | now right |].
      now apply Hnone in Hin.
  - rewrite (Send_construction_error _ _ _ _ _ t Hreq). cbn [snd is_Ok].
    split; [lia | intros r Hin; now left].
Qed.

(** X23: no builder calls the transport twice.  [SendText],
    [SendLocation], [React], [SendContact] and [Reply] keep the trace they
    are given and add at most one exchange to it. *)
Theorem builders_at_most_one_exchange ctx client params t :
  (forall req, at_most_one_exchange t (SendText ctx client params req t))
  /\ (forall req, at_most_one_exchange t (SendLocation ctx client params req t))
  /\ (forall req, at_most_one_exchange t (React ctx client params req t))
  /\ (forall req, at_most_one_exchange t (SendContact ctx client params req t))
  /\ (forall options, at_most_one_exchange t (Reply ctx client params options t)).
Proof.
  repeat split; intros req;
    try apply Send_at_most_one_exchange.
  destruct req as [options |].
  - unfold Reply. destruct (buildReplyPayload options).
    + apply Send_at_most_one_exchange.
    + exists []. cbn. split; [now rewrite app_nil_r | lia].
  - exists []. cbn. split; [now rewrite app_nil_r | lia].
Qed.

(** X2: a failure to read the body is returned unchanged, and the stream
    is still closed, once, after the read. *)
Theorem Send_read_failure ctx client params payload req resp rc err t :
  NewRequestWithContext ctx params payload = Ok req ->
  http.Do client req = Ok resp ->
  http.RespBody resp = Some rc ->
  http.content rc = Err err ->
  Send ctx client params payload t
  = (Returned (Err err), t ++ [ev_Do req; ev_ReadAll; ev_Close]).
Proof.
  intros Hreq Hdo Hbody Hread.
  rewrite (Send_with_body _ _ _ _ _ _ _ t Hreq Hdo Hbody).
  unfold classify. rewrite Hread. reflexivity.
Qed.

(** X3: a body that is present but holds no JSON value (it is empty, or
    white space only) is a decode failure that differs with the branch:
    [io.EOF] from the decoder of the 200 branch, a syntax error from
    [json.Unmarshal] on the other. *)
Theorem Send_blank_body ctx client params payload req resp rc bodybytes t :
  NewRequestWithContext ctx params payload = Ok req ->
  http.Do client req = Ok resp ->
  http.RespBody resp = Some rc ->
  http.content rc = Ok bodybytes ->
  Json.skip_space bodybytes = "" ->
  fst (Send ctx client params payload t)
  = Returned (Err (if (http.StatusCode resp =? http.StatusOK)%Z then io_EOF
                   else json_SyntaxError "unexpected end of JSON input")).
Proof.
  intros Hreq Hdo Hbody Hread Hblank.
  rewrite (Send_with_body _ _ _ _ _ _ _ t Hreq Hdo Hbody). cbn [fst].
  unfold classify. rewrite Hread.
  destruct (http.StatusCode resp =? http.StatusOK)%Z; cbn [negb].
  - unfold json_Decoder_Decode. rewrite Hblank. reflexivity.
  - unfold json_Unmarshal, Json.parse, Json.parse_first.
    replace (2 * String.length bodybytes + 2)
      with (S (2 * String.length bodybytes + 1)) by lia.
    cbn [Json.value]. rewrite Hblank. reflexivity.
Qed.


(** X5: on the error branch the whole body must be one JSON value: a
    body that [json.Unmarshal] rejects (text after the value included) is
    returned as its syntax error, and no [ErrorResponse] is made. *)
Theorem Send_unparsable_error_body
    ctx client params payload req resp rc bodybytes msg t :
  NewRequestWithContext ctx params payload = Ok req ->
  http.Do client req = Ok resp ->
  http.RespBody resp = Some rc ->
  http.content rc = Ok bodybytes ->
  http.StatusCode resp <> http.StatusOK ->
  Json.parse bodybytes = Json.SyntaxError msg ->
  fst (Send ctx client params payload t) = Returned (Err (json_SyntaxError msg)).
Proof.
  intros Hreq Hdo Hbody Hread Hstatus Hparse.
  rewrite (Send_with_body _ _ _ _ _ _ _ t Hreq Hdo Hbody). cbn [fst].
  unfold classify. rewrite Hread.
  destruct (Z.eqb_spec (http.StatusCode resp) http.StatusOK) as [Heq | _];
    [contradiction |].
  cbn [negb]. unfold json_Unmarshal. rewrite Hparse. reflexivity.
Qed.

(** X6: [Send] returns a [Response] only for a response with status 200
    whose body was read and decoded: the [Response] has the status 200,
    the headers of that response and the decoded message. *)
Theorem Send_response_only_on_200 ctx client params payload t r :
  fst (Send ctx client params payload t) = Returned (Ok r) ->
  exists req resp rc bodybytes,
    NewRequestWithContext ctx params payload = Ok req
    /\ http.Do client req = Ok resp
    /\ http.StatusCode resp = 200%Z
    /\ http.RespBody resp = Some rc
    /\ http.content rc = Ok bodybytes
    /\ json_Decoder_Decode bodybytes = Ok (Response.Message r)
    /\ Response.StatusCode r = 200%Z
    /\ Response.Headers r = http.RespHeader resp.
Proof.
  destruct (NewRequestWithContext ctx params payload) as [req | err] eqn:Hreq;
    [| rewrite (Send_construction_error _ _ _ _ _ t Hreq); intros [=]].
  destruct (http.Do client req) as [resp | err] eqn:Hdo;
    [| rewrite (Send_transport_error _ _ _ _ _ _ t Hreq Hdo); intros [=]].
  destruct (http.RespBody resp) as [rc |] eqn:Hbody;
    [| rewrite (Send_without_body _ _ _ _ _ _ t Hreq Hdo Hbody); intros [=]].
  rewrite (Send_with_body _ _ _ _ _ _ _ t Hreq Hdo Hbody). cbn [fst].
  unfold classify.
  destruct (http.content rc) as [bodybytes | err] eqn:Hread; [| intros [=]].
  destruct (Z.eqb_spec (http.StatusCode resp) http.StatusOK) as [Hstatus | _];
    cbn [negb].
  - destruct (json_Decoder_Decode bodybytes) as [message |] eqn:Hdecode;
      intros [= <-].
    exists req, resp, rc, bodybytes. cbn. rewrite Hstatus. repeat split; assumption || reflexivity.
  - destruct (json_Unmarshal bodybytes); intros [=].
Qed.

End DispatcherPaths.

(** ** The Request Builder: method, body and errors *)

(** What [http.NewRequestWithContext] returns. *)
Lemma http_NewRequestWithContext_shape ctx method url_ body req :
  http.NewRequestWithContext ctx method url_ body = Ok req ->
  let method' := if String.eqb method "" then "GET" else method in
  exists u,
    url.Parse url_ = Ok u
    /\ http.validMethod method' = true
    /\ ctx <> ctx_nil
    /\ req = {| http.ctx := ctx; http.Method := method';
                http.URL := url.with_host u (url.User u)
                              (http.removeEmptyPort (url.Host u)) (url.OmitHost u);
                http.Header_ := ∅;
                http.Body := match body with
                             | None => http.body_nil
                             | Some b => if String.length b =? 0 then http.NoBody
                                         else http.body_buffer b
                             end;
                http.ContentLength := match body with
                                      | None => 0%Z
                                      | Some b => Z.of_nat (String.length b)
                                      end;
                http.Host := http.removeEmptyPort (url.Host u) |}.
Proof.
  unfold http.NewRequestWithContext. cbv zeta.
  destruct (http.validMethod _); [| discriminate]. cbn [negb].
  destruct ctx as [| name]; [discriminate |].
  destruct (url.Parse url_) as [u |]; [| discriminate].
  cbn [result_bind]. intros [= <-]. exists u. repeat split. discriminate.
Qed.

(** The request [NewRequestWithContext] returns: the one of
    [http.NewRequestWithContext] for the joined URL, with the headers and
    the query set. *)
Lemma NewRequestWithContext_shape ctx p payload req :
  NewRequestWithContext ctx p payload = Ok req ->
  exists requestURL req0,
    url.JoinPath (RequestParams.BaseURL p)
                 [RequestParams.ApiVersion p; RequestParams.SenderID p;
                  RequestParams.Endpoint p] = Ok requestURL
    /\ http.NewRequestWithContext ctx (RequestParams.Method p) requestURL payload
       = Ok req0
    /\ http.ctx req = http.ctx req0
    /\ http.Method req = http.Method req0
    /\ http.Body req = http.Body req0
    /\ http.ContentLength req = http.ContentLength req0
    /\ http.Host req = http.Host req0
    /\ http.URL req
       = if 0 <? List.length (RequestParams.Query p) then
           url.with_query (http.URL req0) (url.ForceQuery (http.URL req0))
             (url.Values_Encode
                (fold_left (fun q kv => url.Values_Add q (fst kv) (snd kv))
                           (RequestParams.Query p) (url.Query (http.URL req0))))
         else http.URL req0.
Proof.
  unfold NewRequestWithContext.
  destruct (url.JoinPath _ _) as [requestURL | err]; [| discriminate].
  assert (Hsame : match payload with
                  | None => http.NewRequestWithContext ctx (RequestParams.Method p)
                                                       requestURL None
                  | Some b => http.NewRequestWithContext ctx (RequestParams.Method p)
                                                         requestURL (Some b)
                  end
                  = http.NewRequestWithContext ctx (RequestParams.Method p)
                                               requestURL payload)
    by now destruct payload.
  rewrite Hsame. clear Hsame.
  destruct (http.NewRequestWithContext _ _ _ _) as [req0 | err] eqn:Hreq0;
    [| discriminate].
  intros [= <-]. exists requestURL, req0.
  split; [reflexivity |]. split; [exact Hreq0 |].
  destruct (0 <? length (RequestParams.Query p)); repeat split; reflexivity.
Qed.

(** X8: the request carries the context and the method of the parameters
    (an empty method means GET) and the payload as its body, byte for
    byte: no body for a nil payload, [http.NoBody] for an empty one, and
    a content length that is the length of the payload. *)
Theorem NewRequestWithContext_method_and_body ctx p payload req :
  NewRequestWithContext ctx p payload = Ok req ->
  http.ctx req = ctx
  /\ http.Method req
     = (if String.eqb (RequestParams.Method p) "" then "GET"
        else RequestParams.Method p)
  /\ http.validMethod (http.Method req) = true
  /\ http.Body req
     = match payload with
       | None => http.body_nil
       | Some b => if String.eqb b "" then http.NoBody else http.body_buffer b
       end
  /\ http.ContentLength req
     = match payload with
       | None => 0%Z
       | Some b => Z.of_nat (String.length b)
       end.
Proof.
  intros Hreq.
  destruct (NewRequestWithContext_shape _ _ _ _ Hreq)
    as (requestURL & req0 & _ & Hnew & -> & -> & -> & -> & _).
  destruct (http_NewRequestWithContext_shape _ _ _ _ _ Hnew)
    as (u & _ & Hvalid & _ & ->).
  cbn. repeat split; try reflexivity; try exact Hvalid.
  destruct payload as [[| c b] |]; reflexivity.
Qed.

(** X9: the join fails exactly when the base URL does not parse, whatever
    the three segments are, and the error returned is that of [url.Parse]
    wrapped as a failure to join. *)
Theorem NewRequestWithContext_join_error ctx p payload e :
  NewRequestWithContext ctx p payload
  = Err (errorf_w "failed to join url parts: %w" e)
  <-> url.Parse (RequestParams.BaseURL p) = Err e.
Proof.
  unfold NewRequestWithContext, url.JoinPath.
  destruct (url.Parse (RequestParams.BaseURL p)) as [u | e0];
    cbn [result_bind].
  - split; [| discriminate].
    destruct payload;
      destruct (http.NewRequestWithContext _ _ _ _);
      try destruct (0 <? _); discriminate.
  - split; intros [= ->]; reflexivity.
Qed.

(** X10: a method that is not a token (a space in it, for instance) makes
    the construction fail with the error of [http.NewRequestWithContext],
    wrapped as a failure to create the request. *)
Theorem NewRequestWithContext_invalid_method ctx p payload u :
  url.Parse (RequestParams.BaseURL p) = Ok u ->
  RequestParams.Method p <> "" ->
  http.validMethod (RequestParams.Method p) = false ->
  NewRequestWithContext ctx p payload
  = Err (errorf_w "failed to create new request: %w"
           (errorf "net/http: invalid method %q" [RequestParams.Method p])).
Proof.
  intros Hparse Hmethod Hvalid.
  unfold NewRequestWithContext, url.JoinPath. rewrite Hparse. cbn [result_bind].
  unfold http.NewRequestWithContext.
  destruct (String.eqb_spec (RequestParams.Method p) "") as [Heq | _];
    [contradiction |].
  rewrite Hvalid. now destruct payload.
Qed.

(** ** The Request Builder: the header map *)

(** [Header.Set] stores under the canonical key; the canonical key of a
    token does not depend on the case the key is written in. *)
Lemma is_token_byte_to_lower c :
  http.is_token_byte (Bytes.to_lower c) = http.is_token_byte c.
Proof. destruct c as [[] [] [] [] [] [] [] []]; reflexivity. Qed.

Lemma forallb_token_to_lower s :
  Str.forallb http.is_token_byte (Str.to_lower s)
  = Str.forallb http.is_token_byte s.
Proof.
  induction s as [| c s IH]; [reflexivity |].
  cbn [Str.to_lower Str.map Str.forallb].
  rewrite is_token_byte_to_lower. f_equal. exact IH.
Qed.

Lemma canonical_from_to_lower upper s :
  http.canonical_from upper (Str.to_lower s) = http.canonical_from upper s.
Proof.
  revert upper. induction s as [| c s IH]; intros upper; [reflexivity |].
  cbn [Str.to_lower Str.map http.canonical_from].
  assert (Hc : (if upper && Bytes.is_lower (Bytes.to_lower c)
                then Bytes.to_upper (Bytes.to_lower c)
                else if negb upper && Bytes.is_upper (Bytes.to_lower c)
                     then Bytes.to_lower (Bytes.to_lower c)
                     else Bytes.to_lower c)
               = (if upper && Bytes.is_lower c then Bytes.to_upper c
                  else if negb upper && Bytes.is_upper c then Bytes.to_lower c
                       else c)).
  { destruct upper; destruct c as [[] [] [] [] [] [] [] []]; reflexivity. }
  cbv zeta. rewrite Hc. f_equal. apply IH.
Qed.

(** X13: header names are not case sensitive.  Two keys made of token
    bytes that differ in the case of their letters only have the same
    canonical form, so [Header.Set] and [Header.Get] treat them as one
    header. *)
Theorem CanonicalMIMEHeaderKey_ignores_case key key' :
  Str.to_lower key = Str.to_lower key' ->
  Str.forallb http.is_token_byte key = true ->
  http.CanonicalMIMEHeaderKey key = http.CanonicalMIMEHeaderKey key'
  /\ forall h value, http.Header_Get (http.Header_Set h key value) key' = value.
Proof.
  intros Hlower Htoken.
  assert (Hcanon : http.CanonicalMIMEHeaderKey key
                   = http.CanonicalMIMEHeaderKey key').
  { unfold http.CanonicalMIMEHeaderKey.
    rewrite <- (forallb_token_to_lower key'), <- Hlower, forallb_token_to_lower.
    rewrite Htoken.
    rewrite <- (canonical_from_to_lower true key'), <- Hlower.
    now rewrite canonical_from_to_lower. }
  split; [exact Hcanon |].
  intros h value. unfold http.Header_Get, http.Header_Set.
  rewrite <- Hcanon, lookup_insert_eq. reflexivity.
Qed.

(** The entries the loop over [Headers] leaves in a header map: each one
    was there before or comes from an entry of [Headers], as a single
    value. *)
Lemma range_Header_Set_lookup entries h c vs :
  range_Header_Set entries h !! c = Some vs ->
  h !! c = Some vs
  \/ exists key value,
       In (key, value) entries
       /\ http.CanonicalMIMEHeaderKey key = c /\ vs = [value].
Proof.
  unfold range_Header_Set. revert h.
  induction entries as [| [k v] entries IH]; intros h; cbn [fold_left fst snd].
  - now left.
  - intros Hlookup. destruct (IH _ Hlookup) as [Hh | (key & value & Hin & Hkey & Hvs)].
    + unfold http.Header_Set in Hh.
      destruct (decide (http.CanonicalMIMEHeaderKey k = c)) as [Heq | Hne].
      * rewrite Heq, lookup_insert_eq in Hh. injection Hh as <-.
        right. exists k, v. split; [now left | now split].
      * rewrite lookup_insert_ne in Hh by exact Hne. now left.
    + right. exists key, value. split; [now right | now split].
Qed.

(** X14: a header of [Headers] reaches the request under every spelling
    of its name with the same canonical form, provided no entry visited
    after it names the same header and the bearer token does not replace
    it. *)
Theorem NewRequestWithContext_carries_header
    ctx p payload req before key value after key' :
  NewRequestWithContext ctx p payload = Ok req ->
  RequestParams.Headers p = before ++ (key, value) :: after ->
  Forall (fun kv => http.CanonicalMIMEHeaderKey (fst kv)
                    <> http.CanonicalMIMEHeaderKey key) after ->
  RequestParams.Bearer p = ""
  \/ http.CanonicalMIMEHeaderKey key <> "Authorization" ->
  http.CanonicalMIMEHeaderKey key' = http.CanonicalMIMEHeaderKey key ->
  http.Header_Get (http.Header_ req) key' = value.
Proof.
  intros Hreq Hheaders Hafter Hbearer Hkey'.
  assert (Hloop : range_Header_Set (RequestParams.Headers p) ∅
                    !! http.CanonicalMIMEHeaderKey key = Some [value])
    by (rewrite Hheaders; now apply range_Header_Set_last).
  unfold http.Header_Get. rewrite Hkey'.
  rewrite (NewRequestWithContext_Header _ _ _ _ Hreq). cbv zeta.
  destruct (String.eqb_spec (RequestParams.Bearer p) "") as [Hempty | Hset];
    cbn [negb].
  - now rewrite Hloop.
  - destruct Hbearer as [Hempty | Hother]; [contradiction |].
    unfold http.Header_Set at 1. rewrite canonical_Authorization.
    rewrite lookup_insert_ne by congruence. now rewrite Hloop.
Qed.

(** X15: the builder adds no header of its own besides [Authorization].
    Every header of the request has exactly one value, which is the bearer
    value for [Authorization] when a token is set and the value of an
    entry of [Headers] with that canonical name otherwise. *)
Theorem NewRequestWithContext_header_origin ctx p payload req c vs :
  NewRequestWithContext ctx p payload = Ok req ->
  http.Header_ req !! c = Some vs ->
  (c = "Authorization" /\ RequestParams.Bearer p <> ""
   /\ vs = ["Bearer " +:+ RequestParams.Bearer p])
  \/ exists key value,
       In (key, value) (RequestParams.Headers p)
       /\ http.CanonicalMIMEHeaderKey key = c /\ vs = [value].
Proof.
  intros Hreq. rewrite (NewRequestWithContext_Header _ _ _ _ Hreq). cbv zeta.
  destruct (String.eqb_spec (RequestParams.Bearer p) "") as [Hempty | Hset];
    cbn [negb].
  - intros Hlookup.
    destruct (range_Header_Set_lookup _ _ _ _ Hlookup) as [Hnone | Hentry];
      [now rewrite lookup_empty in Hnone | now right].
  - unfold http.Header_Set at 1. rewrite canonical_Authorization.
    destruct (decide ("Authorization" = c)) as [<- | Hne].
    + rewrite lookup_insert_eq. intros [= <-]. left. now repeat split.
    + rewrite lookup_insert_ne by exact Hne. intros Hlookup.
      destruct (range_Header_Set_lookup _ _ _ _ Hlookup) as [Hnone | Hentry];
        [now rewrite lookup_empty in Hnone | now right].
Qed.

(** ** The Request Builder: the order in which the maps are visited *)

(** A loop over entries with pairwise distinct keys, whose turns commute
    when their keys differ, does not depend on the order of the visit. *)
Lemma fold_left_any_order {A B K : Type} (key : B -> K) (f : A -> B -> A) :
  (forall a x y, key x <> key y -> f (f a x) y = f (f a y) x) ->
  forall l l', Permutation l l' -> List.NoDup (map key l) ->
  forall a, fold_left f l a = fold_left f l' a.
Proof.
  intros Hcommute l l' Hperm.
  induction Hperm as [| x l l' _ IH | x y l | l l' l'' Hp1 IH1 Hp2 IH2];
    intros Hnodup a.
  - reflexivity.
  - cbn [fold_left]. apply IH. cbn [map] in Hnodup. now inversion Hnodup.
  - cbn [fold_left]. f_equal. apply Hcommute.
    cbn [map] in Hnodup. inversion Hnodup as [| ? ? Hnotin _]; subst.
    intros Heq. apply Hnotin. left. now symmetry.
  - rewrite IH1 by exact Hnodup. apply IH2.
    eapply Permutation_NoDup; [| exact Hnodup]. now apply Permutation_map.
Qed.

Lemma Header_Set_commute h (x y : string * string) :
  http.CanonicalMIMEHeaderKey (fst x) <> http.CanonicalMIMEHeaderKey (fst y) ->
  http.Header_Set (http.Header_Set h (fst x) (snd x)) (fst y) (snd y)
  = http.Header_Set (http.Header_Set h (fst y) (snd y)) (fst x) (snd x).
Proof.
  intros Hne. unfold http.Header_Set. now apply insert_insert_ne.
Qed.

Lemma Values_Add_commute (q : url.Values) (x y : string * string) :
  fst x <> fst y ->
  url.Values_Add (url.Values_Add q (fst x) (snd x)) (fst y) (snd y)
  = url.Values_Add (url.Values_Add q (fst y) (snd y)) (fst x) (snd x).
Proof.
  intros Hne. unfold url.Values_Add.
  rewrite !lookup_insert_ne by congruence. now apply insert_insert_ne.
Qed.

(** X16: the request does not depend on the order in which Go visits the
    two maps, as long as no two keys of [Headers] name the same header:
    two visiting orders of the same entries give the same request. *)
Theorem NewRequestWithContext_any_map_order ctx p payload headers' query' :
  Permutation (RequestParams.Headers p) headers' ->
  Permutation (RequestParams.Query p) query' ->
  NoDup (map (fun kv => http.CanonicalMIMEHeaderKey (fst kv))
             (RequestParams.Headers p)) ->
  NoDup (map fst (RequestParams.Query p)) ->
  NewRequestWithContext ctx
    {| RequestParams.BaseURL := RequestParams.BaseURL p;
       RequestParams.ApiVersion := RequestParams.ApiVersion p;
       RequestParams.SenderID := RequestParams.SenderID p;
       RequestParams.Endpoint := RequestParams.Endpoint p;
       RequestParams.Method := RequestParams.Method p;
       RequestParams.Headers := headers';
       RequestParams.Query := query';
       RequestParams.Bearer := RequestParams.Bearer p |} payload
  = NewRequestWithContext ctx p payload.
Proof.
  intros Hheaders Hquery Hcanon%NoDup_ListNoDup Hkeys%NoDup_ListNoDup.
  unfold NewRequestWithContext.
  cbn [RequestParams.BaseURL RequestParams.ApiVersion RequestParams.SenderID
       RequestParams.Endpoint RequestParams.Method RequestParams.Headers
       RequestParams.Query RequestParams.Bearer].
  destruct (url.JoinPath _ _) as [requestURL | err]; [| reflexivity].
  assert (Hh : forall h,
             fold_left (fun h kv => http.Header_Set h (fst kv) (snd kv)) headers' h
             = fold_left (fun h kv => http.Header_Set h (fst kv) (snd kv))
                         (RequestParams.Headers p) h).
  { intros h. symmetry.
    apply (fold_left_any_order
             (fun kv : string * string => http.CanonicalMIMEHeaderKey (fst kv)));
      [intros a x y; apply Header_Set_commute | exact Hheaders | exact Hcanon]. }
  assert (Hq : forall q,
             fold_left (fun q kv => url.Values_Add q (fst kv) (snd kv)) query' q
             = fold_left (fun q kv => url.Values_Add q (fst kv) (snd kv))
                         (RequestParams.Query p) q).
  { intros q. symmetry.
    apply (fold_left_any_order (fun kv : string * string => fst kv));
      [intros a x y; apply Values_Add_commute | exact Hquery | exact Hkeys]. }
  rewrite <- (Permutation_length Hquery).
  destruct payload;
    (destruct (http.NewRequestWithContext _ _ _ _) as [req0 | err];
     [| reflexivity]);
    rewrite Hh; destruct (0 <? _); try rewrite Hq; reflexivity.
Qed.

(** ** Numbers survive marshalling *)

Module NumberFacts.

Import Json StrFacts RoundTrip.

Lemma ends_value_head c tail :
  ends_value (String c tail) = true ->
  c = ","%char \/ c = "]"%char \/ c = "}"%char.
Proof.
  cbn [ends_value]. unfold Bytes.eqb.
  destruct (Ascii.eqb_spec c ","); [now left |].
  destruct (Ascii.eqb_spec c "]"); [now right; left |].
  destruct (Ascii.eqb_spec c "}"); [now right; right | discriminate].
Qed.

Lemma digits_tail tail : ends_value tail = true -> digits tail = ("", tail).
Proof.
  destruct tail as [| c tail]; [reflexivity |].
  intros [-> | [-> | ->]]%ends_value_head; reflexivity.
Qed.

Lemma digits_before s d r tail :
  ends_value tail = true ->
  digits s = (d, r) -> digits (s +:+ tail) = (d, r +:+ tail).
Proof.
  intros Htail. revert d r.
  induction s as [| c s IH]; intros d r.
  - intros [= <- <-]. rewrite append_nil. now apply digits_tail.
  - rewrite append_cons. cbn [digits].
    destruct (Bytes.is_digit c); [| now intros [= <- <-]].
    destruct (digits s) as [d' r']. intros [= <- <-].
    now rewrite (IH d' r' eq_refl).
Qed.

Lemma int_part_before s i r tail :
  ends_value tail = true ->
  int_part s = Parsed i r -> int_part (s +:+ tail) = Parsed i (r +:+ tail).
Proof.
  intros Htail. destruct s as [| c s]; [discriminate |].
  rewrite append_cons. cbn [int_part].
  destruct (Bytes.eqb c "0"); [now intros [= <- <-] |].
  destruct (Bytes.is_digit c); [| discriminate].
  destruct (digits s) as [d r'] eqn:Hdigits. intros [= <- <-].
  now rewrite (digits_before _ _ _ _ Htail Hdigits).
Qed.

Lemma frac_part_before s f r tail :
  ends_value tail = true ->
  frac_part s = Parsed f r -> frac_part (s +:+ tail) = Parsed f (r +:+ tail).
Proof.
  intros Htail. destruct s as [| c s].
  - intros [= <- <-]. rewrite append_nil.
    destruct tail as [| c tail]; [reflexivity |].
    apply ends_value_head in Htail as [-> | [-> | ->]]; reflexivity.
  - rewrite append_cons. cbn [frac_part].
    destruct (Bytes.eqb c "."); [| now intros [= <- <-]].
    destruct (digits s) as [d r'] eqn:Hdigits.
    rewrite (digits_before _ _ _ _ Htail Hdigits).
    destruct d; [discriminate | now intros [= <- <-]].
Qed.

Lemma exp_part_before s e r tail :
  ends_value tail = true ->
  exp_part s = Parsed e r -> exp_part (s +:+ tail) = Parsed e (r +:+ tail).
Proof.
  intros Htail. destruct s as [| c s].
  - intros [= <- <-]. rewrite append_nil.
    destruct tail as [| c tail]; [reflexivity |].
    apply ends_value_head in Htail as [-> | [-> | ->]]; reflexivity.
  - rewrite append_cons. cbn [exp_part].
    destruct (_ || _); [| now intros [= <- <-]].
    destruct s as [| d t].
    + discriminate.
    + rewrite append_cons.
      destruct (_ || _).
      * destruct (digits t) as [ds r'] eqn:Hdigits.
        rewrite (digits_before _ _ _ _ Htail Hdigits).
        destruct ds; [discriminate | now intros [= <- <-]].
      * destruct (digits (String d t)) as [ds r'] eqn:Hdigits.
        rewrite <- append_cons.
        rewrite (digits_before _ _ _ _ Htail Hdigits).
        destruct ds; [discriminate | now intros [= <- <-]].
Qed.

Lemma number_parts_before sg s1 text r tail :
  ends_value tail = true ->
  match int_part s1 with
  | Parsed i s2 =>
      match frac_part s2 with
      | Parsed f s3 =>
          match exp_part s3 with
          | Parsed e s4 => Parsed (sg +:+ i +:+ f +:+ e) s4
          | other => other
          end
      | other => other
      end
  | other => other
  end = Parsed text r ->
  match int_part (s1 +:+ tail) with
  | Parsed i s2 =>
      match frac_part s2 with
      | Parsed f s3 =>
          match exp_part s3 with
          | Parsed e s4 => Parsed (sg +:+ i +:+ f +:+ e) s4
          | other => other
          end
      | other => other
      end
  | other => other
  end = Parsed text (r +:+ tail).
Proof.
  intros Htail.
  destruct (int_part s1) as [i s2 | |] eqn:Hint; try discriminate.
  rewrite (int_part_before _ _ _ _ Htail Hint).
  destruct (frac_part s2) as [f s3 | |] eqn:Hfrac; try discriminate.
  rewrite (frac_part_before _ _ _ _ Htail Hfrac).
  destruct (exp_part s3) as [e s4 | |] eqn:Hexp; try discriminate.
  rewrite (exp_part_before _ _ _ _ Htail Hexp).
  now intros [= <- <-].
Qed.

Lemma number_before lit text r tail :
  ends_value tail = true ->
  number lit = Parsed text r -> number (lit +:+ tail) = Parsed text (r +:+ tail).
Proof.
  intros Htail. destruct lit as [| c lit]; [discriminate |].
  unfold number. rewrite append_cons. cbn [sign].
  destruct (Bytes.eqb c "-").
  - now apply number_parts_before.
  - rewrite <- append_cons. now apply number_parts_before.
Qed.

(** A JSON number starts with a minus sign or a digit. *)
Lemma number_head lit text r :
  number lit = Parsed text r ->
  exists c s, lit = String c s /\ (Bytes.eqb c "-" || Bytes.is_digit c) = true.
Proof.
  unfold number. destruct lit as [| c s]; [discriminate |].
  intros Hnumber. exists c, s. split; [reflexivity |].
  cbn [sign] in Hnumber.
  destruct (Bytes.eqb c "-"); [reflexivity |].
  cbn [int_part] in Hnumber.
  destruct (Bytes.eqb c "0") eqn:Hzero.
  - unfold Bytes.eqb in Hzero. apply Ascii.eqb_eq in Hzero. now subst c.
  - destruct (Bytes.is_digit c); [reflexivity | discriminate].
Qed.

Lemma value_number_head c s fuel :
  (Bytes.eqb c "-" || Bytes.is_digit c) = true ->
  value (S fuel) (String c s) = map_parsed JNumber (number (String c s))
  /\ is_space c = false /\ Bytes.eqb c "]" = false /\ Bytes.eqb c "}" = false.
Proof.
  destruct c as [[] [] [] [] [] [] [] []]; intros Hc;
    try discriminate Hc; repeat split; reflexivity.
Qed.

Lemma value_number fuel lit tail :
  number_literal lit = true ->
  ends_value tail = true ->
  value (S fuel) (lit +:+ tail) = Parsed (JNumber lit) tail.
Proof.
  unfold number_literal. intros Hlit Htail.
  destruct (number lit) as [text [| ? ?] | |] eqn:Hnumber; try discriminate.
  apply String.eqb_eq in Hlit. subst text.
  destruct (number_head _ _ _ Hnumber) as (c & s & -> & Hc).
  rewrite append_cons.
  destruct (value_number_head c (s +:+ tail) fuel Hc) as (-> & _).
  rewrite <- append_cons, (number_before _ _ _ _ Htail Hnumber).
  reflexivity.
Qed.

Lemma render_head_marshalled v :
  marshalled v = true ->
  exists c r, render v = String c r
              /\ is_space c = false
              /\ Bytes.eqb c "]" = false /\ Bytes.eqb c "}" = false.
Proof.
  destruct v as [| [|] | lit | s | elems | members]; intros Hv;
    try (cbn [render]; eexists _, _;
         (split; [reflexivity | repeat split; reflexivity])).
  cbn [marshalled] in Hv. unfold number_literal in Hv.
  destruct (number lit) as [text [| ? ?] | |] eqn:Hnumber; try discriminate.
  destruct (number_head _ _ _ Hnumber) as (c & s & -> & Hc).
  exists c, s. split; [reflexivity |].
  now destruct (value_number_head c s 0 Hc) as (_ & ? & ? & ?).
Qed.

Lemma elements_before l fuel tail :
  l <> [] ->
  Forall reads_back_before l ->
  needs l <= fuel ->
  elements fuel (Str.join "," (map render l) +:+ String "]" tail)
  = Parsed (map as_read_json l) tail.
Proof.
  intros Hne Hall. revert fuel.
  induction Hall as [| x l Hx Hall IH]; [contradiction |]. clear Hne.
  intros [| fuel] Hfuel; cbn [needs fold_right] in Hfuel; [lia |].
  fold (needs l) in Hfuel.
  destruct l as [| y l].
  - cbn [map Str.join]. apply elements_last, Hx; [reflexivity | lia].
  - change (Str.join "," (map render (x :: y :: l)))
      with (render x +:+ "," +:+ Str.join "," (map render (y :: l))).
    rewrite !append_assoc.
    rewrite (elements_cons fuel _ (as_read_json x)
               (Str.join "," (map render (y :: l)) +:+ String "]" tail))
      by (apply Hx; [reflexivity | lia]).
    rewrite IH by (discriminate || lia). reflexivity.
Qed.

Lemma members_before l fuel tail :
  l <> [] ->
  Forall (fun kv => reads_back_before (snd kv)) l ->
  needs (map snd l) <= fuel ->
  members fuel (Str.join "," (map member_render l) +:+ String "}" tail)
  = Parsed (map member_read l) tail.
Proof.
  intros Hne Hall. revert fuel.
  induction Hall as [| [k x] l Hx Hall IH]; [contradiction |]. clear Hne.
  cbn [snd] in Hx.
  intros [| fuel] Hfuel; cbn [needs map snd fold_right] in Hfuel; [lia |].
  fold (needs (map snd l)) in Hfuel.
  destruct l as [| kv l].
  - cbn [map Str.join]. rewrite member_render_text.
    apply members_last, Hx; [reflexivity | lia].
  - change (Str.join "," (map member_render ((k, x) :: kv :: l)))
      with (member_render (k, x) +:+ "," +:+ Str.join "," (map member_render (kv :: l))).
    rewrite !append_assoc, member_render_text.
    rewrite (members_cons fuel k _ (as_read_json x)
               (Str.join "," (map member_render (kv :: l)) +:+ String "}" tail))
      by (apply Hx; [reflexivity | lia]).
    rewrite IH by (discriminate || lia). reflexivity.
Qed.

(** An object is read back before any text. *)
Lemma object_before members fuel tail :
  Forall (fun kv => reads_back_before (snd kv)) members ->
  need (JObject members) <= fuel ->
  value fuel (render (JObject members) +:+ tail)
  = Parsed (as_read_json (JObject members)) tail.
Proof.
  intros Hall Hfuel. destruct fuel as [| fuel]; [cbn [need] in Hfuel; lia |].
  cbn [need] in Hfuel. cbn [render as_read_json].
  rewrite needs_members in Hfuel.
  destruct members as [| [k x] members]; [reflexivity |].
  rewrite !append_assoc. change ("{" +:+ ?t) with (String "{" t).
  rewrite value_object.
  change ("}" +:+ tail) with (String "}" tail).
  change (map (fun '(k0, x0) => encode_string k0 +:+ ":" +:+ render x0))
    with (map member_render).
  change (map (fun '(k0, x0) => (as_read k0, as_read_json x0)))
    with (map member_read).
  set (text := Str.join "," (map member_render ((k, x) :: members))
               +:+ String "}" tail) in *.
  assert (Hshape : exists body, text = member_text k body).
  { unfold text. cbn [map]. rewrite join_cons, append_assoc, member_render_text.
    now eexists. }
  destruct Hshape as (body & Hshape).
  assert (Hskip : skip_space text = String Bytes.dquote
                     (encode_bytes true 0 k +:+ String Bytes.dquote (String ":" body)))
    by now rewrite Hshape.
  rewrite Hskip at 1. cbv iota.
  change (Bytes.eqb Bytes.dquote "}") with false. cbv iota.
  fold (member_text k body). rewrite Hskip. fold (member_text k body).
  rewrite <- Hshape. unfold text.
  rewrite (members_before ((k, x) :: members) fuel tail)
    by (discriminate || assumption || (cbn [map snd] in *; lia)).
  reflexivity.
Qed.

Lemma marshalled_members members :
  marshalled (JObject members) = true ->
  Forall (fun kv => marshalled (snd kv) = true) members.
Proof.
  cbn [marshalled]. induction members as [| [k x] members IH]; [constructor |].
  cbn [forallb]. intros [Hx Hrest]%andb_true_iff. constructor; auto.
Qed.

Lemma value_before v : marshalled v = true -> reads_back_before v.
Proof.
  induction v as [| b | lit | s | elems IH | members IH] using json_nested_ind;
    intros Hv [| fuel] tail Htail Hfuel; cbn [need] in Hfuel; try lia.
  - reflexivity.
  - destruct b; reflexivity.
  - now apply value_number.
  - apply value_string.
  - cbn [marshalled] in Hv. cbn [render as_read_json].
    assert (Hall : Forall reads_back_before elems).
    { clear Hfuel. induction IH as [| x elems Hx _ IHelems]; [constructor |].
      cbn [forallb] in Hv. apply andb_true_iff in Hv as [Hvx Hvl].
      constructor; [now apply Hx | now apply IHelems]. }
    destruct elems as [| x elems]; [reflexivity |].
    fold (needs (x :: elems)) in Hfuel.
    rewrite !append_assoc. change ("[" +:+ ?t) with (String "[" t).
    rewrite value_array.
    destruct (render_head_marshalled x) as (c & r & Hhead & Hspace & Hclose & _).
    { cbn [forallb] in Hv. now apply andb_true_iff in Hv as [Hvx _]. }
    pose proof (elements_before (x :: elems) fuel tail) as Hread.
    change ("]" +:+ tail) with (String "]" tail).
    rewrite Hread by (discriminate || assumption || lia).
    cbn [map]. rewrite join_cons, Hhead, !append_cons.
    cbn [skip_space]. rewrite Hspace, Hclose. reflexivity.
  - cbn [marshalled] in Hv.
    apply object_before; [| exact Hfuel].
    clear Hfuel. induction IH as [| [k x] members Hx _ IHmembers]; [constructor |].
    cbn [forallb] in Hv. apply andb_true_iff in Hv as [Hvx Hvl].
    constructor; [now apply Hx | now apply IHmembers].
Qed.

Lemma parse_marshalled v :
  marshalled v = true -> parse (render v) = Parsed (as_read_json v) "".
Proof.
  intros Hv.
  pose proof (value_before v Hv (need v) "" eq_refl (Nat.le_refl _)) as Hvalue.
  rewrite append_empty_r in Hvalue.
  apply JsonFacts.parse_first_with in Hvalue.
  unfold parse. now rewrite Hvalue.
Qed.

(** The first value of a text that starts with a marshalled object. *)
Lemma parse_first_object members tail :
  marshalled (JObject members) = true ->
  parse_first (render (JObject members) +:+ tail)
  = Parsed (as_read_json (JObject members)) tail.
Proof.
  intros Hv. apply (JsonFacts.parse_first_with (need (JObject members))).
  apply object_before; [| apply Nat.le_refl].
  apply marshalled_members in Hv.
  induction Hv as [| kv members Hkv _ IH]; constructor;
    [now apply value_before | exact IH].
Qed.

Lemma textual_marshalled v : textual v = true -> marshalled v = true.
Proof.
  induction v as [| b | lit | s | elems IH | members IH] using json_nested_ind;
    cbn [textual marshalled]; try reflexivity; try discriminate.
  - induction IH as [| x elems Hx _ IHelems]; [reflexivity |].
    cbn [forallb]. intros [Hvx Hvl]%andb_true_iff.
    now rewrite Hx, IHelems.
  - induction IH as [| [k x] members Hx _ IHmembers]; [reflexivity |].
    cbn [forallb]. intros [Hvx Hvl]%andb_true_iff.
    cbn [snd] in Hx. now rewrite Hx, IHmembers.
Qed.

End NumberFacts.

(** ** The Reply Builder on identifiers without quotes *)

Module ReplyFacts.

Import Json StrFacts RoundTrip.

Lemma forallb_append f a b :
  Str.forallb f (a +:+ b) = Str.forallb f a && Str.forallb f b.
Proof.
  induction a as [| c a IH]; [reflexivity |].
  rewrite append_cons. cbn [Str.forallb]. now rewrite IH, andb_assoc.
Qed.

(** One byte of a literal is read as it is. *)
Lemma unquote_literal_byte c fuel tail :
  (Bytes.code c <? 128) = true -> literal_byte c = true ->
  unquote (S fuel) (String c tail)
  = map_parsed (String.append (Str.of_byte c)) (unquote fuel tail).
Proof.
  destruct c as [b0 b1 b2 b3 b4 b5 b6 b7].
  destruct b0, b1, b2, b3, b4, b5, b6, b7; intros Hascii Hliteral;
    try discriminate Hascii; try discriminate Hliteral; reflexivity.
Qed.

(** A quote does not complete an encoding. *)
Lemma between_quote lo hi : 128 <= lo -> Bytes.between lo hi Bytes.dquote = false.
Proof.
  intros Hlo. unfold Bytes.between.
  change (Bytes.code Bytes.dquote) with 34.
  destruct (Nat.leb_spec lo 34); [lia | reflexivity].
Qed.

Lemma size_none_quote c s tail :
  utf8.size c s = None -> utf8.size c (s +:+ String Bytes.dquote tail) = None.
Proof.
  assert (Hcont : utf8.cont Bytes.dquote = false) by reflexivity.
  assert (Hlo : forall (b : bool) hi,
             Bytes.between (if b then 160 else 128) hi Bytes.dquote = false)
    by (intros [] hi; apply between_quote; lia).
  assert (Hlo' : forall (b : bool) hi,
             Bytes.between (if b then 144 else 128) hi Bytes.dquote = false)
    by (intros [] hi; apply between_quote; lia).
  unfold utf8.size. cbv zeta.
  destruct (_ && _).
  { destruct s as [| c1 t]; [intros _ | now rewrite append_cons].
    rewrite append_nil. now rewrite Hcont. }
  destruct (_ && _).
  { destruct s as [| c1 [| c2 t]]; rewrite ?append_cons, ?append_nil;
      [intros _ | intros _ | trivial].
    - destruct tail; [reflexivity |]. now rewrite Hlo.
    - now rewrite Hcont, andb_false_r. }
  destruct (_ && _); [| reflexivity].
  destruct s as [| c1 [| c2 [| c3 t]]]; rewrite ?append_cons, ?append_nil;
    [intros _ | intros _ | intros _ | trivial].
  - destruct tail as [| ? [| ? ?]]; try reflexivity. now rewrite Hlo'.
  - destruct tail; [reflexivity |]. now rewrite Hcont, andb_false_r.
  - now rewrite Hcont, andb_false_r.
Qed.

(** Text without quote, backslash and control bytes, followed by a quote,
    is read as a string: the text itself, its bytes that are not UTF-8
    replaced. *)
Lemma unquote_literal fuel s tail :
  literal_text s = true ->
  String.length s < fuel ->
  unquote fuel (s +:+ String Bytes.dquote tail) = Parsed (as_read s) tail.
Proof.
  unfold as_read, literal_text. revert s tail.
  induction fuel as [| fuel IH]; intros s tail Hliteral Hfuel; [lia |].
  destruct s as [| c s']; [reflexivity |].
  cbn [String.length] in Hfuel. cbn [Str.forallb] in Hliteral.
  apply andb_true_iff in Hliteral as [Hc Hs'].
  cbn [coerce]. rewrite append_cons.
  destruct (Bytes.code c <? 128) eqn:Hascii.
  - rewrite unquote_literal_byte by assumption.
    now rewrite IH by (assumption || lia).
  - rewrite unquote_high by assumption.
    destruct (utf8.size c s') as [n |] eqn:Hsize.
    + destruct (size_shape _ _ _ Hsize) as (chunk & rest & -> & Hlen & Hany).
      rewrite append_length in Hfuel.
      rewrite forallb_append in Hs'. apply andb_true_iff in Hs' as [_ Hrest].
      rewrite append_assoc, Hany.
      rewrite <- Hlen, split_at_append, coerce_pending.
      now rewrite IH by (assumption || lia).
    + rewrite (size_none_quote _ _ _ Hsize).
      now rewrite IH by (assumption || lia).
Qed.

Lemma value_raw_literal fuel s tail :
  literal_text s = true ->
  value (S fuel) (raw_literal s tail) = Parsed (JString (as_read s)) tail.
Proof.
  intros Hliteral. unfold raw_literal. cbn [value].
  change (skip_space (String Bytes.dquote ?x)) with (String Bytes.dquote x).
  cbv iota. change (Bytes.eqb Bytes.dquote Bytes.dquote) with true. cbv iota.
  rewrite unquote_literal by (assumption || (rewrite append_length; cbn; lia)).
  reflexivity.
Qed.

Lemma value_object_raw fuel k rest :
  value (S fuel) (String "{" (raw_literal k rest))
  = map_parsed JObject (members fuel (raw_literal k rest)).
Proof. reflexivity. Qed.

Lemma members_raw fuel k body :
  literal_text k = true ->
  members (S fuel) (raw_literal k (String ":" body))
  = match value fuel body with
    | Parsed v rest'' =>
        match skip_space rest'' with
        | String d rest3 =>
            if Bytes.eqb d ","
            then map_parsed (cons (as_read k, v)) (members fuel rest3)
            else if Bytes.eqb d "}" then Parsed [(as_read k, v)] rest3
                 else SyntaxError "invalid character after object key:value pair"
        | EmptyString => SyntaxError "unexpected end of JSON input"
        end
    | SyntaxError m => SyntaxError m
    | OutOfFuel => OutOfFuel
    end.
Proof.
  intros Hliteral. unfold raw_literal. cbn [members].
  change (skip_space (String Bytes.dquote ?x)) with (String Bytes.dquote x).
  cbv iota. change (Bytes.eqb Bytes.dquote Bytes.dquote) with true. cbv iota.
  rewrite unquote_literal by (assumption || (rewrite append_length; cbn; lia)).
  reflexivity.
Qed.

Lemma members_raw_cons fuel k body v rest :
  literal_text k = true ->
  value fuel body = Parsed v (String "," rest) ->
  members (S fuel) (raw_literal k (String ":" body))
  = map_parsed (cons (as_read k, v)) (members fuel rest).
Proof. intros Hk Hvalue. rewrite members_raw, Hvalue by exact Hk. reflexivity. Qed.

Lemma members_raw_last fuel k body v rest :
  literal_text k = true ->
  value fuel body = Parsed v (String "}" rest) ->
  members (S fuel) (raw_literal k (String ":" body)) = Parsed [(as_read k, v)] rest.
Proof. intros Hk Hvalue. rewrite members_raw, Hvalue by exact Hk. reflexivity. Qed.

Lemma need_positive v : exists n, need v = S n.
Proof. destruct v; cbn [need]; eauto. Qed.

(** The bytes [buildReplyPayload] writes. *)
Lemma buildReplyPayload_text options content :
  json_Marshal_any (ReplyParams.Content options) = Ok content ->
  buildReplyPayload options
  = Ok (reply_head (ReplyParams.Context options)
          (raw_literal (ReplyParams.Recipient options)
             (reply_tail (ReplyParams.MessageType_ options) content))).
Proof.
  intros Hcontent. unfold buildReplyPayload. rewrite Hcontent. reflexivity.
Qed.

(** Reading the members up to [to], and the members after the
    recipient. *)
Lemma reply_head_read fuel context to_value_on :
  literal_text context = true ->
  value (S (S (S (S (S (S fuel)))))) (reply_head context to_value_on)
  = map_parsed JObject
      (map_parsed (cons ("messaging_product", JString "whatsapp"))
         (map_parsed
            (cons ("context", JObject [("message_id", JString (as_read context))]))
            (members (S (S (S fuel))) (raw_member "to" to_value_on)))).
Proof.
  intros Hcontext. unfold reply_head. cbv zeta.
  unfold raw_member at 1. rewrite value_object_raw. f_equal.
  rewrite (members_raw_cons _ "messaging_product" _ (JString "whatsapp") _ eq_refl)
    by (apply (value_raw_literal _ "whatsapp"); reflexivity).
  f_equal. unfold raw_member at 1.
  rewrite (members_raw_cons _ "context" _
             (JObject [("message_id", JString (as_read context))])
             (raw_member "to" to_value_on) eq_refl); [reflexivity |].
  unfold raw_member at 1. rewrite value_object_raw.
  rewrite (members_raw_last _ "message_id" _ (JString (as_read context))
             (String "," (raw_member "to" to_value_on)) eq_refl)
    by (apply value_raw_literal; exact Hcontext).
  reflexivity.
Qed.

Lemma reply_tail_read fuel type_ v :
  literal_text type_ = true ->
  reads_back_before v ->
  need v <= fuel ->
  members (S (S fuel)) (Str.tail (reply_tail type_ (render v)))
  = Parsed [("type", JString (as_read type_)); (as_read type_, as_read_json v)] "".
Proof.
  intros Htype Hv Hfuel. unfold reply_tail. cbn [Str.tail].
  unfold raw_member at 1.
  rewrite (members_raw_cons _ "type" _ (JString (as_read type_))
             (raw_member type_ (render v +:+ "}")) eq_refl)
    by (apply value_raw_literal; exact Htype).
  unfold raw_member.
  rewrite (members_raw_last _ type_ _ (as_read_json v) "" Htype); [reflexivity |].
  change ("}" : string) with (String "}" ""). apply Hv; [reflexivity | exact Hfuel].
Qed.

Lemma reply_read context recipient type_ v :
  literal_text context = true ->
  literal_text recipient = true ->
  literal_text type_ = true ->
  marshalled v = true ->
  parse (reply_head context (raw_literal recipient (reply_tail type_ (render v))))
  = Parsed (reply_envelope (as_read context) (as_read recipient)
                           (as_read type_) (as_read_json v)) "".
Proof.
  intros Hcontext Hrecipient Htype Htext.
  assert (Hvalue :
            value (S (S (S (S (S (S (need v)))))))
                  (reply_head context
                     (raw_literal recipient (reply_tail type_ (render v))))
            = Parsed (reply_envelope (as_read context) (as_read recipient)
                                     (as_read type_) (as_read_json v)) "").
  { rewrite reply_head_read by exact Hcontext.
    unfold raw_member at 1.
    rewrite (members_raw_cons _ "to" _ (JString (as_read recipient))
               (Str.tail (reply_tail type_ (render v))) eq_refl)
      by (apply (value_raw_literal _ _ _ Hrecipient)).
    rewrite reply_tail_read
      by (exact Htype || (now apply NumberFacts.value_before) || apply Nat.le_refl).
    reflexivity. }
  apply JsonFacts.parse_first_with in Hvalue.
  unfold parse. now rewrite Hvalue.
Qed.

End ReplyFacts.

(** A recipient that closes its string and opens a second [to] member. *)
Lemma raw_literal_injected a b tail :
  raw_literal (a +:+ Q "','to':'" +:+ b) tail
  = raw_literal a (String "," (raw_member "to" (raw_literal b tail))).
Proof.
  unfold raw_member, raw_literal. f_equal.
  rewrite !StrFacts.append_assoc. reflexivity.
Qed.

(** A recipient with a quote in it ends its string at the quote. *)
Lemma raw_literal_quoted a b tail :
  raw_literal (a +:+ String Bytes.dquote b) tail
  = raw_literal a (b +:+ String Bytes.dquote tail).
Proof.
  unfold raw_literal. f_equal. rewrite StrFacts.append_assoc.
  now rewrite StrFacts.append_cons.
Qed.

Section ReplyPaths.

Context `{FromJSON ErrorResponse} `{FromJSON ResponseMessage.t}.

(** X24: when the context id, the recipient and the message type have no
    quote, no backslash and no control byte, and the content marshals, the
    payload of a reply is JSON, and a reader finds in it the context id, the recipient, the
    type and, under the member named by the type, the content.  The
    three identifiers are read back as they are, bytes that are not UTF-8
    apart. *)
Theorem Reply_plain_identifiers ctx client params options v t :
  literal_text (ReplyParams.Context options) = true ->
  literal_text (ReplyParams.Recipient options) = true ->
  literal_text (ReplyParams.MessageType_ options) = true ->
  json_Marshal_any (ReplyParams.Content options) = Ok (Json.render v) ->
  marshalled v = true ->
  exists payload,
    buildReplyPayload options = Ok payload
    /\ Reply ctx client params (Some options) t
       = Send ctx client params (Some payload) t
    /\ Json.parse payload
       = Json.Parsed
           (reply_envelope (Json.as_read (ReplyParams.Context options))
                           (Json.as_read (ReplyParams.Recipient options))
                           (Json.as_read (ReplyParams.MessageType_ options))
                           (Json.as_read_json v)) "".
Proof.
  intros Hcontext Hrecipient Htype Hcontent Htext.
  pose proof (ReplyFacts.buildReplyPayload_text _ _ Hcontent) as Hpayload.
  eexists. split; [exact Hpayload |].
  split; [unfold Reply; now rewrite Hpayload |].
  now apply ReplyFacts.reply_read.
Qed.

(** X25: a recipient made of a first part, the bytes [","to":"] and a
    second part gives a payload that is JSON with two [to] members; a
    decoder keeps the last one, so the message goes to the second part,
    which is not the recipient that was given. *)
Theorem Reply_recipient_injection options a b v :
  ReplyParams.Recipient options = a +:+ Q "','to':'" +:+ b ->
  literal_text (ReplyParams.Context options) = true ->
  literal_text a = true ->
  literal_text b = true ->
  literal_text (ReplyParams.MessageType_ options) = true ->
  Json.as_read (ReplyParams.MessageType_ options) <> "to" ->
  json_Marshal_any (ReplyParams.Content options) = Ok (Json.render v) ->
  marshalled v = true ->
  exists payload read,
    buildReplyPayload options = Ok payload
    /\ Json.parse payload = Json.Parsed read ""
    /\ read
       = JObject
           [("messaging_product", JString "whatsapp");
            ("context",
              JObject [("message_id",
                         JString (Json.as_read (ReplyParams.Context options)))]);
            ("to", JString (Json.as_read a));
            ("to", JString (Json.as_read b));
            ("type", JString (Json.as_read (ReplyParams.MessageType_ options)));
            (Json.as_read (ReplyParams.MessageType_ options), Json.as_read_json v)]
    /\ Json.field "to" read = Some (JString (Json.as_read b)).
Proof.
  intros Hrecipient Hcontext Ha Hb Htype Hnot_to Hcontent Htext.
  pose proof (ReplyFacts.buildReplyPayload_text _ _ Hcontent) as Hpayload.
  rewrite Hrecipient, raw_literal_injected in Hpayload.
  eexists. eexists. split; [exact Hpayload |].
  split; [| split; [reflexivity |]].
  - assert (Hvalue :
              Json.value (S (S (S (S (S (S (S (Json.need v))))))))
                (reply_head (ReplyParams.Context options)
                   (raw_literal a
                      (String ","
                         (raw_member "to"
                            (raw_literal b
                               (reply_tail (ReplyParams.MessageType_ options)
                                           (Json.render v)))))))
              = Json.Parsed
                  (JObject
                     [("messaging_product", JString "whatsapp");
                      ("context",
                        JObject [("message_id",
                                   JString (Json.as_read (ReplyParams.Context options)))]);
                      ("to", JString (Json.as_read a));
                      ("to", JString (Json.as_read b));
                      ("type", JString (Json.as_read (ReplyParams.MessageType_ options)));
                      (Json.as_read (ReplyParams.MessageType_ options),
                       Json.as_read_json v)]) "").
    { rewrite ReplyFacts.reply_head_read by exact Hcontext.
      unfold raw_member at 1.
      rewrite (ReplyFacts.members_raw_cons _ "to" _ (JString (Json.as_read a))
                 (raw_member "to"
                    (raw_literal b
                       (reply_tail (ReplyParams.MessageType_ options)
                                   (Json.render v)))) eq_refl)
        by (apply (ReplyFacts.value_raw_literal _ _ _ Ha)).
      unfold raw_member at 1.
      rewrite (ReplyFacts.members_raw_cons _ "to" _ (JString (Json.as_read b))
                 (Str.tail (reply_tail (ReplyParams.MessageType_ options)
                                       (Json.render v))) eq_refl)
        by (apply (ReplyFacts.value_raw_literal _ _ _ Hb)).
      rewrite ReplyFacts.reply_tail_read
        by (exact Htype || (now apply NumberFacts.value_before) || apply Nat.le_refl).
      reflexivity. }
    apply JsonFacts.parse_first_with in Hvalue.
    unfold Json.parse. now rewrite Hvalue.
  - cbn [Json.field Json.lookup_members].
    destruct (String.eqb_spec "to" (Json.as_read (ReplyParams.MessageType_ options)))
      as [Heq | _]; [now symmetry in Heq |].
    reflexivity.
Qed.

(** X26: a quote in the recipient breaks the payload whenever the text
    before the quote has no quote, backslash or control byte and the byte
    after the quote is not white space, a comma or a closing brace: a
    reader stops after the string that the quote closes, and the payload
    is not JSON. *)
Theorem Reply_quote_breaks_payload options a c b content :
  ReplyParams.Recipient options = a +:+ String Bytes.dquote (String c b) ->
  literal_text (ReplyParams.Context options) = true ->
  literal_text a = true ->
  Json.is_space c = false ->
  c <> ","%char ->
  c <> "}"%char ->
  json_Marshal_any (ReplyParams.Content options) = Ok content ->
  exists payload,
    buildReplyPayload options = Ok payload
    /\ Json.parse payload
       = Json.SyntaxError "invalid character after object key:value pair"
    /\ Json.valid payload = false.
Proof.
  intros Hrecipient Hcontext Ha Hspace Hcomma Hbrace Hcontent.
  pose proof (ReplyFacts.buildReplyPayload_text _ _ Hcontent) as Hpayload.
  rewrite Hrecipient, raw_literal_quoted in Hpayload.
  eexists. split; [exact Hpayload |].
  set (rest := b +:+ String Bytes.dquote
                 (reply_tail (ReplyParams.MessageType_ options) content)).
  assert (Hvalue :
            Json.value 6
              (reply_head (ReplyParams.Context options)
                 (raw_literal a (String c rest)))
            = Json.SyntaxError "invalid character after object key:value pair").
  { rewrite ReplyFacts.reply_head_read by exact Hcontext.
    unfold raw_member at 1. rewrite ReplyFacts.members_raw by reflexivity.
    rewrite (ReplyFacts.value_raw_literal _ _ _ Ha).
    cbn [Json.skip_space]. rewrite Hspace.
    unfold Bytes.eqb.
    destruct (Ascii.eqb_spec c ","); [contradiction |].
    destruct (Ascii.eqb_spec c "}"); [contradiction |].
    reflexivity. }
  assert (Hparse :
            Json.parse_first
              (reply_head (ReplyParams.Context options)
                 (raw_literal a (String c rest)))
            = Json.SyntaxError "invalid character after object key:value pair").
  { unfold Json.parse_first. rewrite <- Hvalue.
    apply (proj1 (JsonFacts.readers_stable 6)).
    - unfold reply_head, raw_member, raw_literal. cbn [String.length]. lia.
    - rewrite Hvalue. discriminate. }
  assert (Hwhole :
            Json.parse
              (reply_head (ReplyParams.Context options)
                 (raw_literal a (String c rest)))
            = Json.SyntaxError "invalid character after object key:value pair")
    by (unfold Json.parse; now rewrite Hparse).
  split; [exact Hwhole |]. unfold Json.valid.
  change (String c b +:+ String Bytes.dquote
            (reply_tail (ReplyParams.MessageType_ options) content))
    with (String c rest).
  now rewrite Hwhole.
Qed.

(** X27: content that [json.Marshal] rejects makes [Reply] return the
    error of [json.Marshal]; no payload is built and the transport is not
    called. *)
Theorem Reply_unsupported_content ctx client params options err t :
  json_Marshal_any (ReplyParams.Content options) = Err err ->
  buildReplyPayload options = Err err
  /\ Reply ctx client params (Some options) t = (Returned (Err err), t).
Proof.
  intros Hcontent.
  assert (Hpayload : buildReplyPayload options = Err err)
    by (unfold buildReplyPayload; now rewrite Hcontent).
  split; [exact Hpayload |]. unfold Reply. now rewrite Hpayload.
Qed.

End ReplyPaths.

(** ** The query string *)

Module QueryFacts.

Import StrFacts.

(** One byte of [QueryEscape]. *)
Lemma escape_cons c s mode :
  url.escape (String c s) mode = url.escape (Str.of_byte c) mode +:+ url.escape s mode.
Proof.
  unfold Str.of_byte. cbn [url.escape].
  destruct (_ && _); [reflexivity |].
  destruct (url.shouldEscape c mode); reflexivity.
Qed.

Lemma unescape_escape_byte c rest :
  url.unescape (url.escape (Str.of_byte c) url.encodeQueryComponent +:+ rest)
               url.encodeQueryComponent
  = let? r := url.unescape rest url.encodeQueryComponent in Ok (String c r).
Proof. destruct c as [[] [] [] [] [] [] [] []]; reflexivity. Qed.

Lemma QueryUnescape_QueryEscape s : url.QueryUnescape (url.QueryEscape s) = Ok s.
Proof.
  unfold url.QueryUnescape, url.QueryEscape.
  induction s as [| c s IH]; [reflexivity |].
  rewrite escape_cons, unescape_escape_byte, IH. reflexivity.
Qed.

Lemma contains_byte_append c a b :
  Str.contains_byte c (a +:+ b) = Str.contains_byte c a || Str.contains_byte c b.
Proof.
  unfold Str.contains_byte.
  induction a as [| d a IH]; [reflexivity |].
  rewrite append_cons. cbn [Str.existsb]. now rewrite IH, orb_assoc.
Qed.

(** The bytes that structure a query string do not occur in escaped
    text. *)

Lemma escape_byte_free c d :
  separator d ->
  Str.contains_byte d (url.escape (Str.of_byte c) url.encodeQueryComponent) = false.
Proof.
  intros [-> | [-> | ->]]; destruct c as [[] [] [] [] [] [] [] []]; reflexivity.
Qed.

Lemma QueryEscape_free s d :
  separator d -> Str.contains_byte d (url.QueryEscape s) = false.
Proof.
  intros Hd. unfold url.QueryEscape.
  induction s as [| c s IH]; [reflexivity |].
  rewrite escape_cons, contains_byte_append, IH, escape_byte_free by exact Hd.
  reflexivity.
Qed.

Lemma eqb_sym a b : Bytes.eqb a b = Bytes.eqb b a.
Proof. unfold Bytes.eqb. apply Ascii.eqb_sym. Qed.

Lemma split_none c x : Str.contains_byte c x = false -> Str.split c x = [x].
Proof.
  unfold Str.contains_byte.
  induction x as [| d x IH]; [reflexivity |].
  cbn [Str.existsb Str.split]. intros [Hd Hx]%orb_false_iff.
  rewrite eqb_sym, Hd, IH by exact Hx. reflexivity.
Qed.

Lemma split_join c l :
  l <> [] ->
  Forall (fun x => Str.contains_byte c x = false) l ->
  Str.split c (Str.join (String c "") l) = l.
Proof.
  intros Hne Hall. induction Hall as [| x l Hx Hall IH]; [contradiction |].
  destruct l as [| y l]; [now apply split_none |].
  change (Str.join (String c "") (x :: y :: l))
    with (x +:+ String c "" +:+ Str.join (String c "") (y :: l)).
  rewrite append_cons, append_nil, PathFacts.split_append_sep.
  rewrite split_none by exact Hx. rewrite IH by discriminate. reflexivity.
Qed.

Lemma cut_append sep k v :
  Str.contains_byte sep k = false ->
  Str.cut sep (k +:+ String sep v) = (k, v, true).
Proof.
  unfold Str.contains_byte.
  induction k as [| d k IH].
  - intros _. rewrite append_nil. cbn [Str.cut].
    unfold Bytes.eqb. now rewrite Ascii.eqb_refl.
  - cbn [Str.existsb]. intros [Hd Hk]%orb_false_iff.
    rewrite append_cons. cbn [Str.cut]. rewrite eqb_sym, Hd, IH by exact Hk.
    reflexivity.
Qed.

(** One turn of [parseQuery] on a pair as [Values.Encode] writes it. *)
Lemma parseQuery_step_encoded m k x :
  url.parseQuery_step m (url.QueryEscape k +:+ "=" +:+ url.QueryEscape x)
  = url.Values_Add m k x.
Proof.
  unfold url.parseQuery_step.
  rewrite !contains_byte_append, !QueryEscape_free by (unfold separator; auto).
  change (Str.contains_byte ";" "=") with false. cbn [orb].
  destruct (String.eqb_spec (url.QueryEscape k +:+ "=" +:+ url.QueryEscape x) "")
    as [Hempty | _].
  { apply (f_equal String.length) in Hempty.
    rewrite !append_length in Hempty. cbn in Hempty. lia. }
  change ("=" +:+ url.QueryEscape x) with (String "=" (url.QueryEscape x)).
  rewrite cut_append by (apply QueryEscape_free; unfold separator; auto).
  now rewrite !QueryUnescape_QueryEscape.
Qed.

Lemma parseQuery_pairs pairs m :
  url.parseQuery m
    (Str.join "&" (map (fun kx => url.QueryEscape (fst kx) +:+ "="
                                  +:+ url.QueryEscape (snd kx)) pairs))
  = range_Values_Add pairs m.
Proof.
  unfold url.parseQuery, range_Values_Add.
  destruct pairs as [| kx pairs]; [reflexivity |].
  rewrite split_join.
  - generalize (kx :: pairs). clear. intros pairs. revert m.
    induction pairs as [| [k x] pairs IH]; intros m; [reflexivity |].
    cbn [map fold_left fst snd]. now rewrite parseQuery_step_encoded.
  - discriminate.
  - apply List.Forall_forall. intros piece Hin.
    apply in_map_iff in Hin as (kx' & <- & _).
    rewrite !contains_byte_append, !QueryEscape_free by (unfold separator; auto).
    reflexivity.
Qed.

Lemma Values_Encode_pairs v :
  url.Values_Encode v
  = Str.join "&" (map (fun kx => url.QueryEscape (fst kx) +:+ "="
                                 +:+ url.QueryEscape (snd kx))
                      (encoded_pairs v)).
Proof.
  unfold url.Values_Encode, encoded_pairs. f_equal.
  induction (url.sorted_keys v) as [| k ks IH]; [reflexivity |].
  cbn [flat_map]. rewrite map_app, IH. f_equal.
  now rewrite map_map.
Qed.

(** The values a loop of [Values.Add] leaves under a key. *)
Lemma Add_values_lookup k l m k' :
  fold_left (fun m x => url.Values_Add m k x) l m !! k'
  = if decide (k = k') then
      match l with
      | [] => m !! k
      | _ :: _ => Some (default [] (m !! k) ++ l)
      end
    else m !! k'.
Proof.
  revert m. induction l as [| x l IH]; intros m; cbn [fold_left].
  - now destruct (decide (k = k')) as [<- | _].
  - rewrite IH. unfold url.Values_Add.
    destruct (decide (k = k')) as [<- | Hne].
    + rewrite lookup_insert_eq. cbn [default].
      destruct l; [reflexivity |]. unfold id. now rewrite <- app_assoc.
    + now rewrite lookup_insert_ne.
Qed.

Lemma range_Values_Add_flat (vals : string -> list string) ks m :
  range_Values_Add (flat_map (fun k => map (pair k) (vals k)) ks) m
  = fold_left (fun m k => fold_left (fun m x => url.Values_Add m k x) (vals k) m)
              ks m.
Proof.
  unfold range_Values_Add. revert m.
  induction ks as [| k ks IH]; intros m; [reflexivity |].
  cbn [flat_map fold_left]. rewrite fold_left_app, IH. f_equal.
  generalize (vals k). clear. intros l. revert m.
  induction l as [| x l IH]; intros m; [reflexivity |].
  cbn [map fold_left fst snd]. apply IH.
Qed.

Lemma keys_values_lookup (vals : string -> list string) ks m k' :
  List.NoDup ks ->
  fold_left (fun m k => fold_left (fun m x => url.Values_Add m k x) (vals k) m)
            ks m !! k'
  = if decide (k' ∈ ks) then
      match vals k' with
      | [] => m !! k'
      | _ :: _ => Some (default [] (m !! k') ++ vals k')
      end
    else m !! k'.
Proof.
  intros Hnodup. revert m.
  induction Hnodup as [| k ks Hnotin Hnodup IH]; intros m; cbn [fold_left].
  - destruct (decide (k' ∈ [])) as [Hin | _]; [| reflexivity].
    now apply elem_of_nil in Hin.
  - rewrite <- list_elem_of_In in Hnotin. rewrite IH, Add_values_lookup.
    destruct (decide (k' ∈ ks)) as [Hin | Hout];
      destruct (decide (k' ∈ k :: ks)) as [Hin' | Hout'];
      destruct (decide (k = k')) as [<- | Hne];
      try reflexivity; try contradiction.
    + exfalso. apply Hout'. now right.
    + apply elem_of_cons in Hin' as [-> | Hin']; contradiction.
    + exfalso. apply Hout'. now left.
Qed.

Lemma insert_sorted_perm k l : Permutation (url.insert_sorted k l) (k :: l).
Proof.
  induction l as [| x l IH]; [reflexivity |].
  cbn [url.insert_sorted]. destruct (String.leb k x); [reflexivity |].
  rewrite IH. apply perm_swap.
Qed.

Lemma sorted_keys_perm (v : url.Values) :
  Permutation (url.sorted_keys v) (map fst (map_to_list v)).
Proof.
  unfold url.sorted_keys.
  induction (map fst (map_to_list v)) as [| k ks IH]; [reflexivity |].
  cbn [foldr]. rewrite insert_sorted_perm. now constructor.
Qed.

Lemma sorted_keys_NoDup (v : url.Values) : List.NoDup (url.sorted_keys v).
Proof.
  eapply Permutation_NoDup; [symmetry; apply sorted_keys_perm |].
  apply NoDup_ListNoDup, (fin_maps.NoDup_fst_map_to_list v).
Qed.

Lemma sorted_keys_In (v : url.Values) k :
  In k (url.sorted_keys v) <-> is_Some (v !! k).
Proof.
  rewrite <- list_elem_of_In, (sorted_keys_perm v).
  rewrite list_elem_of_fmap. split.
  - intros ([k' l] & -> & Hin). apply elem_of_map_to_list in Hin. eauto.
  - intros [l Hl]. exists (k, l). split; [reflexivity |].
    now apply elem_of_map_to_list.
Qed.

(** Adding the pairs of a populated map to the empty map gives the map
    back. *)
Lemma range_encoded_pairs v :
  populated v -> range_Values_Add (encoded_pairs v) ∅ = v.
Proof.
  intros Hpop. unfold encoded_pairs.
  rewrite (range_Values_Add_flat (fun k => default [] (v !! k))).
  apply map_eq. intros k.
  rewrite keys_values_lookup by apply sorted_keys_NoDup.
  rewrite lookup_empty.
  destruct (decide (k ∈ url.sorted_keys v)) as [Hin | Hout].
  - apply list_elem_of_In, sorted_keys_In in Hin as [l Hl]. rewrite Hl. cbn [default].
    destruct l as [| x l]; [now apply Hpop in Hl | reflexivity].
  - destruct (v !! k) as [l |] eqn:Hl; [| reflexivity].
    exfalso. apply Hout, list_elem_of_In, sorted_keys_In. eauto.
Qed.

Lemma populated_empty : populated ∅.
Proof. intros k l Hl. now rewrite lookup_empty in Hl. Qed.

Lemma populated_Add v k x : populated v -> populated (url.Values_Add v k x).
Proof.
  intros Hpop k' l. unfold url.Values_Add.
  destruct (decide (k = k')) as [<- | Hne].
  - rewrite lookup_insert_eq. intros [= <-]. now destruct (default [] (v !! k)).
  - rewrite lookup_insert_ne by exact Hne. apply Hpop.
Qed.

Lemma populated_range entries v :
  populated v -> populated (range_Values_Add entries v).
Proof.
  unfold range_Values_Add. revert v.
  induction entries as [| kv entries IH]; intros v Hpop; [exact Hpop |].
  cbn [fold_left]. now apply IH, populated_Add.
Qed.

Lemma populated_parseQuery query v :
  populated v -> populated (url.parseQuery v query).
Proof.
  unfold url.parseQuery. revert v.
  induction (Str.split "&" query) as [| piece pieces IH]; intros v Hpop;
    [exact Hpop |].
  cbn [fold_left]. apply IH. unfold url.parseQuery_step.
  destruct (Str.contains_byte ";" piece); [exact Hpop |].
  destruct (String.eqb piece ""); [exact Hpop |].
  destruct (Str.cut "=" piece) as [[key value] found].
  destruct (url.QueryUnescape key); [| exact Hpop].
  destruct (url.QueryUnescape value); [| exact Hpop].
  now apply populated_Add.
Qed.

End QueryFacts.

(** X18: [QueryUnescape] undoes [QueryEscape] on every byte string, and
    escaped text holds none of the bytes that structure a query string
    (ampersand, equals sign, semicolon). *)
Theorem QueryEscape_round_trip s :
  url.QueryUnescape (url.QueryEscape s) = Ok s
  /\ forall d, separator d -> Str.contains_byte d (url.QueryEscape s) = false.
Proof.
  split; [apply QueryFacts.QueryUnescape_QueryEscape |].
  intros d Hd. now apply QueryFacts.QueryEscape_free.
Qed.

Lemma parseQuery_Values_Encode (v : url.Values) :
  populated v -> url.parseQuery ∅ (url.Values_Encode v) = v.
Proof.
  intros Hpop.
  rewrite QueryFacts.Values_Encode_pairs, QueryFacts.parseQuery_pairs.
  now apply QueryFacts.range_encoded_pairs.
Qed.

(** X19: reading back what [Values.Encode] wrote gives the value map
    again, for every map in which each key has at least one value; and the
    maps [URL.Query] returns are of that kind. *)
Theorem Values_Encode_round_trip (v : url.Values) :
  populated v ->
  url.parseQuery ∅ (url.Values_Encode v) = v
  /\ forall query, populated (url.parseQuery ∅ query).
Proof.
  intros Hpop. split; [now apply parseQuery_Values_Encode |].
  intros query. apply QueryFacts.populated_parseQuery, QueryFacts.populated_empty.
Qed.

Lemma range_Values_Add_other entries (q : url.Values) k :
  ~ In k (map fst entries) -> range_Values_Add entries q !! k = q !! k.
Proof.
  unfold range_Values_Add. revert q.
  induction entries as [| [k0 v0] entries IH]; intros q Hnotin; [reflexivity |].
  assert (Hsplit : k0 <> k /\ ~ In k (map fst entries))
    by (cbn [map fst In] in Hnotin; tauto).
  destruct Hsplit as [Hne Hrest].
  cbn [fold_left fst snd]. rewrite IH by exact Hrest.
  unfold url.Values_Add. now apply lookup_insert_ne.
Qed.

Lemma range_Values_Add_lookup entries (q : url.Values) k v :
  NoDup (map fst entries) ->
  In (k, v) entries ->
  range_Values_Add entries q !! k = Some (default [] (q !! k) ++ [v]).
Proof.
  intros Hnodup%NoDup_ListNoDup. revert q.
  induction entries as [| [k0 v0] entries IH]; intros q Hin; [destruct Hin |].
  cbn [map fst] in Hnodup. inversion Hnodup as [| ? ? Hnotin Hrest]; subst.
  change (range_Values_Add ((k0, v0) :: entries) q)
    with (range_Values_Add entries (url.Values_Add q k0 v0)).
  destruct Hin as [[= -> ->] | Hin].
  - rewrite range_Values_Add_other by exact Hnotin.
    unfold url.Values_Add. apply lookup_insert_eq.
  - rewrite IH by assumption.
    assert (Hne : k0 <> k).
    { intros ->. apply Hnotin. apply in_map_iff. now exists (k, v). }
    unfold url.Values_Add. now rewrite lookup_insert_ne.
Qed.

(** X17: with a non-empty [Query], the query string of the request
    decodes to the parameters of the joined URL with the entries of
    [Query] added: each entry is found under its key, after the values
    the base URL already had for that key, and nothing is lost to the
    encoding. *)
Theorem NewRequestWithContext_query ctx p payload req :
  NewRequestWithContext ctx p payload = Ok req ->
  RequestParams.Query p <> [] ->
  exists requestURL u,
    url.JoinPath (RequestParams.BaseURL p)
                 [RequestParams.ApiVersion p; RequestParams.SenderID p;
                  RequestParams.Endpoint p] = Ok requestURL
    /\ url.Parse requestURL = Ok u
    /\ url.Query (http.URL req)
       = range_Values_Add (RequestParams.Query p) (url.Query u)
    /\ forall k v,
         NoDup (map fst (RequestParams.Query p)) ->
         In (k, v) (RequestParams.Query p) ->
         url.Query (http.URL req) !! k
         = Some (default [] (url.Query u !! k) ++ [v]).
Proof.
  intros Hreq Hquery.
  destruct (NewRequestWithContext_shape _ _ _ _ Hreq)
    as (requestURL & req0 & Hjoin & Hnew & _ & _ & _ & _ & _ & Hurl).
  destruct (http_NewRequestWithContext_shape _ _ _ _ _ Hnew)
    as (u & Hparse & _ & _ & ->).
  exists requestURL, u. split; [exact Hjoin |]. split; [exact Hparse |].
  assert (Hdecoded : url.Query (http.URL req)
                     = range_Values_Add (RequestParams.Query p) (url.Query u)).
  { rewrite Hurl.
    destruct (RequestParams.Query p) as [| kv entries] eqn:Hentries;
      [contradiction |].
    cbn [length Nat.ltb Nat.leb http.URL].
    unfold url.Query at 1. cbn [url.with_query url.RawQuery].
    apply parseQuery_Values_Encode.
    apply QueryFacts.populated_range, QueryFacts.populated_parseQuery,
      QueryFacts.populated_empty. }
  split; [exact Hdecoded |].
  intros k v Hnodup Hin. rewrite Hdecoded.
  now apply range_Values_Add_lookup.
Qed.

(** ** The further properties on example inputs *)

Lemma Send_read_failure_witness :
  Send Example.ctx (Example.answering Example.unreadable) Example.params None []
  = (Returned (Err (foreign_error "unexpected EOF")),
     [ev_Do Example.request; ev_ReadAll; ev_Close]).
Proof.
  apply (Send_read_failure
           Example.ctx (Example.answering Example.unreadable) Example.params None
           Example.request Example.unreadable
           {| http.content := Err (foreign_error "unexpected EOF") |}
           (foreign_error "unexpected EOF") []).
  - exact ExampleRun.request_ok.
  - reflexivity.
  - reflexivity.
  - reflexivity.
Defined.

Lemma Send_blank_body_witness :
  fst (Send Example.ctx (Example.answering Example.blank) Example.params None [])
  = Returned (Err io_EOF).
Proof.
  apply (Send_blank_body
           Example.ctx (Example.answering Example.blank) Example.params None
           Example.request Example.blank {| http.content := Ok " " |} " " []).
  - exact ExampleRun.request_ok.
  - reflexivity.
  - reflexivity.
  - reflexivity.
  - reflexivity.
Defined.


Lemma Send_unparsable_error_body_witness :
  fst (Send Example.ctx (Example.answering Example.bad_gateway)
            Example.params None [])
  = Returned (Err (json_SyntaxError
                     "invalid character looking for beginning of value")).
Proof.
  apply (Send_unparsable_error_body
           Example.ctx (Example.answering Example.bad_gateway) Example.params None
           Example.request Example.bad_gateway
           {| http.content := Ok "Bad Gateway" |} "Bad Gateway"
           "invalid character looking for beginning of value" []).
  - exact ExampleRun.request_ok.
  - reflexivity.
  - reflexivity.
  - reflexivity.
  - vm_compute. discriminate.
  - vm_compute. reflexivity.
Defined.

Lemma Send_response_only_on_200_witness :
  exists req resp rc bodybytes,
    NewRequestWithContext Example.ctx Example.params None = Ok req
    /\ http.Do (Example.answering
                  (Example.response 200 (Example.body_of Example.success_body)))
               req = Ok resp
    /\ http.StatusCode resp = 200%Z
    /\ http.RespBody resp = Some rc
    /\ http.content rc = Ok bodybytes
    /\ json_Decoder_Decode bodybytes = Ok Example.success_decoded
    /\ 200%Z = 200%Z
    /\ (∅ : http.Header) = http.RespHeader resp.
Proof.
  apply (Send_response_only_on_200
           Example.ctx
           (Example.answering
              (Example.response 200 (Example.body_of Example.success_body)))
           Example.params None []
           {| Response.StatusCode := 200; Response.Headers := ∅;
              Response.Message := Example.success_decoded |}).
  vm_compute. reflexivity.
Defined.

Lemma NewRequestWithContext_method_and_body_witness :
  http.ctx (Example.request_of Example.with_query) = Example.ctx
  /\ http.Method (Example.request_of Example.with_query) = "GET"
  /\ http.validMethod (http.Method (Example.request_of Example.with_query)) = true
  /\ http.Body (Example.request_of Example.with_query) = http.body_nil
  /\ http.ContentLength (Example.request_of Example.with_query) = 0%Z.
Proof.
  apply (NewRequestWithContext_method_and_body
           Example.ctx Example.with_query None
           (Example.request_of Example.with_query)).
  vm_compute. reflexivity.
Defined.

Lemma NewRequestWithContext_invalid_method_witness :
  NewRequestWithContext Example.ctx Example.bad_method (Some "{}")
  = Err (errorf_w "failed to create new request: %w"
           (errorf "net/http: invalid method %q" ["PO ST"])).
Proof.
  apply (NewRequestWithContext_invalid_method
           Example.ctx Example.bad_method (Some "{}") Example.base).
  - vm_compute. reflexivity.
  - discriminate.
  - reflexivity.
Defined.

Lemma CanonicalMIMEHeaderKey_ignores_case_witness :
  http.CanonicalMIMEHeaderKey "content-type"
  = http.CanonicalMIMEHeaderKey "CONTENT-Type"
  /\ forall h value,
       http.Header_Get (http.Header_Set h "content-type" value) "CONTENT-Type"
       = value.
Proof.
  apply (CanonicalMIMEHeaderKey_ignores_case "content-type" "CONTENT-Type");
    reflexivity.
Defined.

Lemma NewRequestWithContext_carries_header_witness :
  http.Header_Get (http.Header_ (Example.request_of Example.lower_case))
                  "Content-Type"
  = "application/json".
Proof.
  apply (NewRequestWithContext_carries_header
           Example.ctx Example.lower_case None
           (Example.request_of Example.lower_case)
           [] "content-type" "application/json" [("x-request-id", "42")]
           "Content-Type").
  - vm_compute. reflexivity.
  - reflexivity.
  - repeat constructor. vm_compute. discriminate.
  - right. vm_compute. discriminate.
  - reflexivity.
Defined.

Lemma NewRequestWithContext_header_origin_witness :
  ("Authorization" = "Authorization" /\ "ACCESS_TOKEN" <> ""
   /\ ["Bearer ACCESS_TOKEN"] = ["Bearer " +:+ "ACCESS_TOKEN"])
  \/ exists key value,
       In (key, value) (RequestParams.Headers Example.both)
       /\ http.CanonicalMIMEHeaderKey key = "Authorization"
       /\ ["Bearer ACCESS_TOKEN"] = [value].
Proof.
  apply (NewRequestWithContext_header_origin
           Example.ctx Example.both None (Example.request_of Example.both)
           "Authorization" ["Bearer ACCESS_TOKEN"]).
  - vm_compute. reflexivity.
  - vm_compute. reflexivity.
Defined.

Lemma NewRequestWithContext_any_map_order_witness :
  NewRequestWithContext Example.ctx
    {| RequestParams.BaseURL := "https://graph.facebook.com?debug=all";
       RequestParams.ApiVersion := "v15.0";
       RequestParams.SenderID := "1234567890";
       RequestParams.Endpoint := "messages";
       RequestParams.Method := "GET";
       RequestParams.Headers := [("Content-Type", "application/json");
                                 ("Accept", "application/json")];
       RequestParams.Query := [("limit", "10"); ("fields", "id,name")];
       RequestParams.Bearer := "ACCESS_TOKEN" |} None
  = NewRequestWithContext Example.ctx Example.with_query None.
Proof.
  apply (NewRequestWithContext_any_map_order
           Example.ctx Example.with_query None
           [("Content-Type", "application/json"); ("Accept", "application/json")]
           [("limit", "10"); ("fields", "id,name")]).
  - apply perm_swap.
  - apply perm_swap.
  - apply (bool_decide_unpack _). vm_compute. reflexivity.
  - apply (bool_decide_unpack _). vm_compute. reflexivity.
Defined.

Lemma Reply_plain_identifiers_witness :
  exists payload,
    buildReplyPayload Example.plain_reply = Ok payload
    /\ Reply Example.ctx (Example.answering Example.blank) Example.params
             (Some Example.plain_reply) []
       = Send Example.ctx (Example.answering Example.blank) Example.params
              (Some payload) []
    /\ Json.parse payload
       = Json.Parsed
           (reply_envelope (Json.as_read "wamid.ABC") (Json.as_read "15550001111")
              (Json.as_read "text")
              (Json.as_read_json
                 (models.Text_json
                    {| models.PreviewUrl := false; models.Body := "hi" |}))) "".
Proof.
  apply (Reply_plain_identifiers
           Example.ctx (Example.answering Example.blank) Example.params
           Example.plain_reply
           (models.Text_json {| models.PreviewUrl := false; models.Body := "hi" |})
           []);
    reflexivity.
Defined.

Lemma Reply_recipient_injection_witness :
  exists payload read,
    buildReplyPayload Example.injecting = Ok payload
    /\ Json.parse payload = Json.Parsed read ""
    /\ read
       = JObject
           [("messaging_product", JString "whatsapp");
            ("context", JObject [("message_id", JString (Json.as_read "wamid.ABC"))]);
            ("to", JString (Json.as_read "123"));
            ("to", JString (Json.as_read "456"));
            ("type", JString (Json.as_read "text"));
            (Json.as_read "text",
             Json.as_read_json
               (models.Text_json
                  {| models.PreviewUrl := false; models.Body := "hi" |}))]
    /\ Json.field "to" read = Some (JString (Json.as_read "456")).
Proof.
  apply (Reply_recipient_injection
           Example.injecting "123" "456"
           (models.Text_json {| models.PreviewUrl := false; models.Body := "hi" |}));
    try reflexivity.
  vm_compute. discriminate.
Defined.

Lemma Reply_unsupported_content_witness :
  buildReplyPayload Example.unsupported_reply
  = Err (json_UnsupportedTypeError "chan int")
  /\ Reply Example.ctx (Example.answering Example.blank) Example.params
           (Some Example.unsupported_reply) []
     = (Returned (Err (json_UnsupportedTypeError "chan int")), []).
Proof.
  apply (Reply_unsupported_content
           Example.ctx (Example.answering Example.blank) Example.params
           Example.unsupported_reply (json_UnsupportedTypeError "chan int") []).
  reflexivity.
Defined.

Lemma Values_Encode_round_trip_witness :
  url.parseQuery ∅ (url.Values_Encode Example.values) = Example.values
  /\ forall query, populated (url.parseQuery ∅ query).
Proof.
  apply (Values_Encode_round_trip Example.values).
  change (map_Forall (fun (_ : string) (l : list string) => l <> []) Example.values).
  apply (bool_decide_unpack _). vm_compute. reflexivity.
Defined.

Lemma NewRequestWithContext_query_witness :
  exists requestURL u,
    url.JoinPath "https://graph.facebook.com?debug=all"
                 ["v15.0"; "1234567890"; "messages"] = Ok requestURL
    /\ url.Parse requestURL = Ok u
    /\ url.Query (http.URL (Example.request_of Example.with_query))
       = range_Values_Add [("fields", "id,name"); ("limit", "10")] (url.Query u)
    /\ forall k v,
         NoDup (map fst [("fields", "id,name"); ("limit", "10")]) ->
         In (k, v) [("fields", "id,name"); ("limit", "10")] ->
         url.Query (http.URL (Example.request_of Example.with_query)) !! k
         = Some (default [] (url.Query u !! k) ++ [v]).
Proof.
  apply (NewRequestWithContext_query
           Example.ctx Example.with_query None
           (Example.request_of Example.with_query)).
  - vm_compute. reflexivity.
  - discriminate.
Defined.

(** ** Dot elements in the segments *)

Module DotFacts.

Import path StrFacts.

















End DotFacts.



(** X12: a malformed percent escape in a segment is not reported.
    [URL.JoinPath] drops the error of [setPath], which leaves the path of
    the base URL as it was: all three segments are lost and the URL is
    the base URL. *)
Theorem JoinPath_malformed_escape p u err :
  url.Parse (RequestParams.BaseURL p) = Ok u ->
  url.unescape
    (url.joined_path (url.EscapedPath u)
       [RequestParams.ApiVersion p; RequestParams.SenderID p;
        RequestParams.Endpoint p]) url.encodePath = Err err ->
  url.JoinPath (RequestParams.BaseURL p)
               [RequestParams.ApiVersion p; RequestParams.SenderID p;
                RequestParams.Endpoint p]
  = Ok (url.String_ u).
Proof.
  intros Hparse Hescape.
  unfold url.JoinPath, url.URL_JoinPath, url.with_path, url.setPath.
  rewrite Hparse. cbn [result_bind]. now rewrite Hescape.
Qed.


Lemma JoinPath_malformed_escape_witness :
  url.JoinPath "https://graph.facebook.com" ["v15.0"; "1234567890"; "100%/messages"]
  = Ok "https://graph.facebook.com".
Proof.
  apply (JoinPath_malformed_escape Example.malformed_escape Example.base
           (url_EscapeError "%/m")).
  - vm_compute. reflexivity.
  - vm_compute. reflexivity.
Defined.

(** ** Location and contact envelopes, and text after a body *)

Section EnvelopePaths.

Context `{FromJSON ErrorResponse} `{FromJSON ResponseMessage.t}.

(** X21: for a location that marshals, what [SendLocation] hands to
    [Send] is JSON: an object with the recipient, [recipient_type]
    ["individual"], the type ["location"] and the location, numbers
    included, as its only payload member. *)
Theorem SendLocation_payload ctx client params req location t :
  SendLocationRequest.Location req = Some location ->
  marshalled location = true ->
  exists payload,
    SendLocation ctx client params req t = Send ctx client params (Some payload) t
    /\ Json.parse payload
       = Json.Parsed
           (JObject
              [("messaging_product", JString "whatsapp");
               ("to", JString (Json.as_read (SendLocationRequest.Recipient req)));
               ("recipient_type", JString "individual");
               ("type", JString "location");
               ("location", Json.as_read_json location)])
           "".
Proof.
  intros Hlocation Hmarshalled. eexists. split; [reflexivity |].
  rewrite NumberFacts.parse_marshalled.
  - rewrite Hlocation. reflexivity.
  - rewrite Hlocation. cbn. now rewrite Hmarshalled.
Qed.

(** X22: for contacts that marshal, what [SendContact] hands to [Send]
    is JSON: an object with the recipient, [recipient_type]
    ["individual"], the type ["contact"] and the contacts under the
    member [contacts], as its only payload member. *)
Theorem SendContact_payload ctx client params req contacts t :
  SendContactRequest.Contacts req = Some contacts ->
  marshalled contacts = true ->
  exists payload,
    SendContact ctx client params req t = Send ctx client params (Some payload) t
    /\ Json.parse payload
       = Json.Parsed
           (JObject
              [("messaging_product", JString "whatsapp");
               ("to", JString (Json.as_read (SendContactRequest.Recipient req)));
               ("recipient_type", JString "individual");
               ("type", JString "contact");
               ("contacts", Json.as_read_json contacts)])
           "".
Proof.
  intros Hcontacts Hmarshalled. eexists. split; [reflexivity |].
  rewrite NumberFacts.parse_marshalled.
  - rewrite Hcontacts. reflexivity.
  - rewrite Hcontacts. cbn. now rewrite Hmarshalled.
Qed.

(** X7: text after the JSON object of a body is treated differently by
    the two branches.  On status 200 the decoder reads the object and
    leaves the rest unread, so the call succeeds when the object decodes;
    on any other status [json.Unmarshal] rejects the body with a syntax
    error and no [ErrorResponse] is made. *)
Theorem Send_text_after_body
    ctx client params payload req resp rc members tail t :
  NewRequestWithContext ctx params payload = Ok req ->
  http.Do client req = Ok resp ->
  http.RespBody resp = Some rc ->
  http.content rc = Ok (Json.render (JObject members) +:+ tail) ->
  marshalled (JObject members) = true ->
  Json.skip_space tail <> "" ->
  fst (Send ctx client params payload t)
  = Returned
      (if (http.StatusCode resp =? http.StatusOK)%Z then
         match from_json (T := ResponseMessage.t)
                         (Json.as_read_json (JObject members)) with
         | Ok message =>
             Ok {| Response.StatusCode := http.StatusCode resp;
                   Response.Headers := http.RespHeader resp;
                   Response.Message := message |}
         | Err err => Err err
         end
       else Err (json_SyntaxError "invalid character after top-level value")).
Proof.
  intros Hreq Hdo Hbody Hread Hmarshalled Htail.
  rewrite (Send_with_body _ _ _ _ _ _ _ t Hreq Hdo Hbody). cbn [fst].
  unfold classify. rewrite Hread.
  pose proof (NumberFacts.parse_first_object members tail Hmarshalled) as Hfirst.
  destruct (http.StatusCode resp =? http.StatusOK)%Z; cbn [negb].
  - unfold json_Decoder_Decode. rewrite Hfirst.
    assert (Hstart : exists c r,
               Json.skip_space (Json.render (JObject members) +:+ tail) = String c r).
    { cbn [Json.render]. rewrite !StrFacts.append_assoc.
      change ("{" +:+ ?x) with (String "{" x). cbn [Json.skip_space]. eauto. }
    destruct Hstart as (c & r & ->). reflexivity.
  - unfold json_Unmarshal, Json.parse. rewrite Hfirst.
    destruct (Json.skip_space tail); [contradiction | reflexivity].
Qed.

End EnvelopePaths.

Lemma SendLocation_payload_witness :
  exists payload,
    SendLocation Example.ctx (Example.answering Example.blank) Example.params
                 Example.location []
    = Send Example.ctx (Example.answering Example.blank) Example.params
           (Some payload) []
    /\ Json.parse payload
       = Json.Parsed
           (JObject
              [("messaging_product", JString "whatsapp");
               ("to", JString (Json.as_read "15550001111"));
               ("recipient_type", JString "individual");
               ("type", JString "location");
               ("location", Json.as_read_json Example.dar_es_salaam)])
           "".
Proof.
  apply (SendLocation_payload
           Example.ctx (Example.answering Example.blank) Example.params
           Example.location Example.dar_es_salaam []);
    reflexivity.
Defined.

Lemma SendContact_payload_witness :
  exists payload,
    SendContact Example.ctx (Example.answering Example.blank) Example.params
                Example.contact []
    = Send Example.ctx (Example.answering Example.blank) Example.params
           (Some payload) []
    /\ Json.parse payload
       = Json.Parsed
           (JObject
              [("messaging_product", JString "whatsapp");
               ("to", JString (Json.as_read "15550001111"));
               ("recipient_type", JString "individual");
               ("type", JString "contact");
               ("contacts", Json.as_read_json Example.jane)])
           "".
Proof.
  apply (SendContact_payload
           Example.ctx (Example.answering Example.blank) Example.params
           Example.contact Example.jane []);
    reflexivity.
Defined.

Lemma Send_text_after_body_witness :
  fst (Send Example.ctx (Example.answering (Example.trailing 200))
            Example.params None [])
  = Returned (Ok {| Response.StatusCode := 200; Response.Headers := ∅;
                    Response.Message := Example.accepted_decoded |})
  /\ fst (Send Example.ctx (Example.answering (Example.trailing 400))
               Example.params None [])
     = Returned (Err (json_SyntaxError "invalid character after top-level value")).
Proof.
  split.
  - etransitivity;
      [apply (Send_text_after_body
                Example.ctx (Example.answering (Example.trailing 200))
                Example.params None Example.request (Example.trailing 200)
                {| http.content := Ok (Json.render (JObject Example.accepted)
                                       +:+ " -- served by edge-7") |}
                Example.accepted " -- served by edge-7" [])
      | vm_compute; reflexivity].
    + exact ExampleRun.request_ok.
    + reflexivity.
    + reflexivity.
    + reflexivity.
    + reflexivity.
    + vm_compute. discriminate.
  - etransitivity;
      [apply (Send_text_after_body
                Example.ctx (Example.answering (Example.trailing 400))
                Example.params None Example.request (Example.trailing 400)
                {| http.content := Ok (Json.render (JObject Example.accepted)
                                       +:+ " -- served by edge-7") |}
                Example.accepted " -- served by edge-7" [])
      | vm_compute; reflexivity].
    + exact ExampleRun.request_ok.
    + reflexivity.
    + reflexivity.
    + reflexivity.
    + reflexivity.
    + vm_compute. discriminate.
Defined.

Lemma Reply_quote_breaks_payload_witness :
  exists payload,
    buildReplyPayload Example.reply = Ok payload
    /\ Json.parse payload
       = Json.SyntaxError "invalid character after object key:value pair"
    /\ Json.valid payload = false.
Proof.
  apply (Reply_quote_breaks_payload
           Example.reply "12" "3"%char "4"
           (Json.render (models.Text_json
                           {| models.PreviewUrl := false; models.Body := "hi" |})));
    try reflexivity; discriminate.
Defined.
